(** * HostelEase backend: leave workflow, fee settlement, entry/exit toggle

    A shallow embedding of the request handlers of
      - src/controllers/leave.controller.js
      - src/controllers/payment.controller.js
      - controllers/fee.controller.js
      - controllers/entryExit.controller.js
      - controllers/complaint.controller.js
    together with the Mongoose schemas they run against
    (Leave, Fee, Payment, EntryExit, Student, Parent, Complaint),
    including the save hook of the Leave schema, the unique index of the
    Fee schema and the enum of the EntryExit schema.

    Every collection is a finite map from [_id] to document, a handler is a
    function from the environment (clock, random source), the state (the
    collections and the error console) and the request to the new state and
    the HTTP response.  Awaited calls are sequenced in program order.

    Conventions of the embedding:
      - an ObjectId is a natural number; route parameters and references are
        taken after the ObjectId cast;
      - request bodies are read at the types the schemas give their fields;
        [None] is JavaScript's [undefined];
      - a string is held as the bytes of its UTF-8 encoding;
      - timestamps are milliseconds, in [Z]; amounts are whole numbers of
        the currency unit, in [Z] (the handlers add and compare them as
        JavaScript numbers, which is exact for whole numbers below 2^53);
      - all clock readings of one request are the one instant [now];
      - [populate] replaces a reference by the referenced document, or by
        null when there is none; a nested path ('studentId.userId') is
        populated by a populate call on a document whose first level is
        already populated, and by the [populate] option of the first level,
        but not by a second populate chained on the same query, which
        leaves the inner reference an ObjectId;
      - a key whose value is [undefined] is left out of an update;
      - an exception thrown inside a handler is a value of [Exn], caught by
        the handler's own [catch] as the source does. *)

From Stdlib Require Import ZArith String Ascii Lia.
From stdpp Require Import gmap strings list fin_maps sorting.

Local Open Scope string_scope.
Local Open Scope list_scope.
Local Open Scope Z_scope.

Abbreviation ObjectId := nat.

(** ** JavaScript values used by the handlers *)

(** [new Date(x)]: a time value in milliseconds, or Invalid Date (NaN). *)
Inductive JsDate : Type :=
  | ValidDate (ms : Z)
  | InvalidDate.

(** [a >= b] on Date objects: both are converted to numbers; any comparison
    with NaN is false. *)
Definition date_ge (a b : JsDate) : bool :=
  match a, b with
  | ValidDate x, ValidDate y => bool_decide (y ≤ x)
  | _, _ => false
  end.

Definition date_lt (a b : JsDate) : bool :=
  match a, b with
  | ValidDate x, ValidDate y => bool_decide (x < y)
  | _, _ => false
  end.

(** Truthiness of a string that may be [undefined]: absent and empty are
    both falsy. *)
Definition truthy (s : option string) : bool :=
  match s with
  | Some s => negb (bool_decide (s = ""))
  | None => false
  end.

(** [a || b] on such strings. *)
Definition js_or (a : option string) (b : string) : string :=
  match a with
  | Some s => if bool_decide (s = "") then b else s
  | None => b
  end.

(** [String.prototype.trim] removes the WhiteSpace and LineTerminator code
    points of ECMAScript from both ends.  A string is held as the bytes of
    its UTF-8 encoding, so a white-space code point is one byte (TAB, LF,
    VT, FF, CR, SP) or the two or three bytes of U+00A0, U+1680,
    U+2000 to U+200A, U+2028, U+2029, U+202F, U+205F, U+3000 or U+FEFF. *)
Definition isSpace (c : ascii) : bool :=
  match nat_of_ascii c with
  | 9%nat | 10%nat | 11%nat | 12%nat | 13%nat | 32%nat => true
  | _ => false
  end.

(** U+00A0 is C2 A0. *)
Definition isSpace2 (c d : ascii) : bool :=
  (nat_of_ascii c =? 194)%nat && (nat_of_ascii d =? 160)%nat.

(** U+1680 is E1 9A 80; U+2000 to U+200A are E2 80 80 to E2 80 8A; U+2028,
    U+2029 and U+202F are E2 80 A8, E2 80 A9 and E2 80 AF; U+205F is
    E2 81 9F; U+3000 is E3 80 80; U+FEFF is EF BB BF. *)
Definition isSpace3 (c d e : ascii) : bool :=
  let '(a, b, x) := (nat_of_ascii c, nat_of_ascii d, nat_of_ascii e) in
  ((a =? 225) && (b =? 154) && (x =? 128)
   || (a =? 226) && (b =? 128)
      && ((128 <=? x) && (x <=? 138) || (x =? 168) || (x =? 169) || (x =? 175))
   || (a =? 226) && (b =? 129) && (x =? 159)
   || (a =? 227) && (b =? 128) && (x =? 128)
   || (a =? 239) && (b =? 187) && (x =? 191))%nat.

(** The number of bytes of the white-space code point [s] starts with, or
    0 when it starts with none. *)
Definition spaceLength (s : string) : nat :=
  match s with
  | String c r =>
      if isSpace c then 1%nat
      else
        match r with
        | String d r' =>
            if isSpace2 c d then 2%nat
            else
              match r' with
              | String e _ => if isSpace3 c d e then 3%nat else 0%nat
              | EmptyString => 0%nat
              end
        | EmptyString => 0%nat
        end
  | EmptyString => 0%nat
  end.

(** [trimStart], with [skip] the bytes still to drop of the white-space
    code point being removed. *)
Fixpoint trimStartFrom (skip : nat) (s : string) : string :=
  match s with
  | EmptyString => EmptyString
  | String _ r =>
      match skip with
      | S k => trimStartFrom k r
      | O =>
          match spaceLength s with
          | S k => trimStartFrom k r
          | O => s
          end
      end
  end.

Definition trimStart (s : string) : string := trimStartFrom 0 s.

(** [s], after its first [skip] bytes, is made of white-space code points
    only. *)
Fixpoint allSpaceFrom (skip : nat) (s : string) : bool :=
  match s with
  | EmptyString => bool_decide (skip = 0%nat)
  | String _ r =>
      match skip with
      | S k => allSpaceFrom k r
      | O =>
          match spaceLength s with
          | S k => allSpaceFrom k r
          | O => false
          end
      end
  end.

Fixpoint trimEnd (s : string) : string :=
  match s with
  | EmptyString => EmptyString
  | String c r => if allSpaceFrom 0 s then EmptyString else String c (trimEnd r)
  end.

Definition trim (s : string) : string := trimEnd (trimStart s).

(** ** The identity layer: [req.user] *)

Inductive Role : Type := student | parent | warden.

Global Instance Role_eq_dec : EqDecision Role.
Proof. solve_decision. Defined.

Record ReqUser : Type := mkReqUser {
  _id : ObjectId;
  role : Role;
}.

(** ** Exceptions and responses *)

(** What a handler's [try] block can throw. *)
Inductive Exn : Type :=
  | ValidationFailed      (* Mongoose ValidationError / CastError on save *)
  | DuplicateKey          (* E11000: a unique index rejects the write *)
  | PreSaveHook (msg : string) (* an Error passed to next() by a save hook *)
  | NullDereference       (* TypeError: property read on null *)
  | StoreDown             (* the persistence layer refuses the write *)
  | DocumentNotFound.     (* save() of a document that is no longer stored *)

(** The [message] of a JSON answer. *)
Inductive Message : Type :=
  | Static (s : string)
  | AmountMismatchMsg (expected received : Z)
  | ErrorMessage (e : Exn).

Record Response (D : Type) : Type := mkResponse {
  httpStatus : nat;
  success : bool;
  message : Message;
  data : option D;
}.
Arguments mkResponse {D} _ _ _ _.
Arguments httpStatus {D} _.
Arguments success {D} _.
Arguments message {D} _.
Arguments data {D} _.

Definition fail {D} (code : nat) (msg : string) : Response D :=
  mkResponse code false (Static msg) None.

Definition failWith {D} (code : nat) (msg : Message) : Response D :=
  mkResponse code false msg None.

Definition ok {D} (code : nat) (msg : string) (d : D) : Response D :=
  mkResponse code true (Static msg) (Some d).

(** ** Schemas *)

Module User.
Record doc : Type := mk { name : string }.
End User.

Module Student.
Record doc : Type := mk {
  userId : ObjectId;
  rollNumber : string;
  room : option string;
}.

(** [Student.findOne({ userId })] *)
Definition findOneByUserId (c : gmap nat doc) (uid : ObjectId)
  : option (ObjectId * doc) :=
  head (filter (λ p, userId p.2 = uid) (map_to_list c)).

(** [Student.findOne({ rollNumber })] *)
Definition findOneByRollNumber (c : gmap nat doc) (r : string)
  : option (ObjectId * doc) :=
  head (filter (λ p, rollNumber p.2 = r) (map_to_list c)).
End Student.

Module Parent.
Record doc : Type := mk {
  userId : ObjectId;
  studentId : ObjectId;
}.

(** [Parent.findOne({ userId })] *)
Definition findOneByUserId (c : gmap nat doc) (uid : ObjectId)
  : option (ObjectId * doc) :=
  head (filter (λ p, userId p.2 = uid) (map_to_list c)).
End Parent.

Module Leave.
(** enum of [status] in the Leave schema *)
Inductive Status : Type :=
  | Pending | PendingParent | ApprovedByParent | RejectedByParent
  | Approved | Rejected | Cancelled.

Global Instance Status_eq_dec : EqDecision Status.
Proof. solve_decision. Defined.

(** enum of [parentApprovalStatus] *)
Inductive ParentStatus : Type := PPending | PApproved | PRejected.

(** one element of [statusHistory] *)
Record HistoryEntry : Type := mkEntry {
  h_status : Status;
  h_updatedBy : option ObjectId;
  h_role : Role;
  h_reason : option string;
  h_timestamp : Z;
}.

Record doc : Type := mk {
  studentId : ObjectId;
  reason : string;
  type : string;
  status : Status;
  outDate : Z;
  inDate : Z;
  outTime : option string;
  inTime : option string;
  approvedBy : option ObjectId;
  approvedAt : option Z;
  rejectionReason : option string;
  parentApprovalStatus : option ParentStatus;
  parentApprovedBy : option ObjectId;
  parentApprovedAt : option Z;
  parentRejectionReason : option string;
  statusHistory : list HistoryEntry;
  createdAt : Z;
}.

(** enum of [type] *)
Definition typeEnum : list string :=
  ["Home Visit"; "Local Coaching/Classes"; "Medical Checkup";
   "Local Market/Personal"; "Emergency Leave"; "Other"].

(** [leaveSchema.pre('save')]: the hook passes an Error to [next] when
    [inDate < outDate]. *)
Definition preSave (d : doc) : option Exn :=
  if bool_decide (inDate d < outDate d)
  then Some (PreSaveHook "Return date must be after outing date")
  else None.

(** [Leave.create(fields)]: the fields are cast and validated (both
    dates must be valid, [reason] is required after trimming, [type]
    must be in its enum), the save hook runs, and the document is
    inserted under a fresh [_id]. *)
Definition create (c : gmap nat doc) (now : Z)
    (sid : ObjectId) (reason type : string) (outD inD : JsDate)
    (outT inT : option string) (st : Status) (pst : ParentStatus)
    (hist : list HistoryEntry)
  : Exn + (ObjectId * doc * gmap nat doc) :=
  match outD, inD with
  | ValidDate o, ValidDate i =>
      if bool_decide (trim reason = "")
         || negb (bool_decide (type ∈ typeEnum))
      then inl ValidationFailed
      else
        let d := mk sid (trim reason) type st o i outT inT None None None
                    (Some pst) None None None hist now in
        match preSave d with
        | Some e => inl e
        | None => let id := fresh (dom c) in inr (id, d, <[id := d]> c)
        end
  | _, _ => inl ValidationFailed
  end.

(** [Leave.findOneAndUpdate(filter, update, { new: true })] with a filter
    on [_id]: the one document with that [_id] is updated when it
    matches the rest of the filter; no validator or save hook runs. *)
Definition findOneAndUpdate (c : gmap nat doc) (id : ObjectId)
    (matches : doc → bool) (update : doc → doc)
  : option (doc * gmap nat doc) :=
  match c !! id with
  | Some d =>
      if matches d then Some (update d, <[id := update d]> c) else None
  | None => None
  end.

(** [leave.save()] of a loaded document: the save hook runs, then the
    document replaces the stored one. *)
Definition save (c : gmap nat doc) (id : ObjectId) (d : doc)
  : Exn + gmap nat doc :=
  match preSave d with
  | Some e => inl e
  | None => inr (<[id := d]> c)
  end.

(** [$set] of the parent's decision and [$push] of its history entry.  A
    key whose value is [undefined] is left out of [$set]. *)
Definition applyParentDecision (st : Status) (pst : ParentStatus)
    (by_ : ObjectId) (at_ : Z) (rej : option string) (e : HistoryEntry)
    (d : doc) : doc :=
  mk (studentId d) (reason d) (type d) st (outDate d) (inDate d)
     (outTime d) (inTime d) (approvedBy d) (approvedAt d)
     (rejectionReason d)
     (Some pst) (Some by_) (Some at_)
     (match rej with Some r => Some (trim r) | None => parentRejectionReason d end)
     (statusHistory d ++ [e]) (createdAt d).

(** [$set] of the warden's decision and [$push] of its history entry. *)
Definition applyWardenDecision (st : Status) (by_ : ObjectId)
    (at_ : option Z) (rej : option string) (e : HistoryEntry)
    (d : doc) : doc :=
  mk (studentId d) (reason d) (type d) st (outDate d) (inDate d)
     (outTime d) (inTime d) (Some by_)
     (match at_ with Some t => Some t | None => approvedAt d end)
     (match rej with Some r => Some (trim r) | None => rejectionReason d end)
     (parentApprovalStatus d) (parentApprovedBy d) (parentApprovedAt d)
     (parentRejectionReason d)
     (statusHistory d ++ [e]) (createdAt d).

(** [leave.status = s] *)
Definition setStatus (s : Status) (d : doc) : doc :=
  mk (studentId d) (reason d) (type d) s (outDate d) (inDate d)
     (outTime d) (inTime d) (approvedBy d) (approvedAt d)
     (rejectionReason d) (parentApprovalStatus d) (parentApprovedBy d)
     (parentApprovedAt d) (parentRejectionReason d)
     (statusHistory d) (createdAt d).
End Leave.

Module Fee.
Inductive Status : Type := Paid | Pending.

Global Instance Status_eq_dec : EqDecision Status.
Proof. solve_decision. Defined.

Record doc : Type := mk {
  studentId : ObjectId;
  amount : Z;
  term : string;
  status : Status;
  receiptNumber : option string;
  paidAt : option Z;
  paidBy : option Role;
  paidByUserId : option ObjectId;
  createdAt : Z;
}.

(** cast of a request string to the [status] enum; anything else fails
    validation on save *)
Definition parseStatus (s : string) : option Status :=
  if bool_decide (s = "Paid") then Some Paid
  else if bool_decide (s = "Pending") then Some Pending
  else None.

(** The unique, sparse index on [receiptNumber]: a write of receipt [r]
    to document [id] is refused when another document holds [r]. *)
Definition receiptTaken (c : gmap nat doc) (id : ObjectId) (r : string)
  : Prop :=
  map_Exists (λ id' d', id' ≠ id ∧ receiptNumber d' = Some r) c.

Global Instance receiptTaken_dec c id r : Decision (receiptTaken c id r).
Proof. unfold receiptTaken. apply _. Defined.

(** What the storage layer does with [doc.save()] / [Fee.create]: the
    write is applied unless the unique index refuses it. *)
Definition write (c : gmap nat doc) (id : ObjectId) (d : doc)
  : Exn + gmap nat doc :=
  match receiptNumber d with
  | Some r =>
      if bool_decide (receiptTaken c id r) then inl DuplicateKey
      else inr (<[id := d]> c)
  | None => inr (<[id := d]> c)
  end.

(** Schema validators of the paths a warden can set: [amount] has
    [min: 0], [term] is required after trimming. *)
Definition validAmount (a : Z) : bool := bool_decide (0 ≤ a).
Definition validTerm (t : string) : bool := negb (bool_decide (trim t = "")).

Definition olderFirst (a b : ObjectId * doc) : Prop :=
  createdAt a.2 ≤ createdAt b.2.
Definition newerFirst (a b : ObjectId * doc) : Prop :=
  createdAt b.2 ≤ createdAt a.2.

Global Instance olderFirst_dec : RelDecision olderFirst.
Proof. intros a b. unfold olderFirst. apply _. Defined.
Global Instance newerFirst_dec : RelDecision newerFirst.
Proof. intros a b. unfold newerFirst. apply _. Defined.

(** [Fee.find({ studentId, status: 'Pending' }).sort({ createdAt: 1 })] *)
Definition findPending (c : gmap nat doc) (sid : ObjectId)
  : list (ObjectId * doc) :=
  merge_sort olderFirst
    (filter (λ p, studentId p.2 = sid ∧ status p.2 = Pending)
            (map_to_list c)).

(** [Fee.find({ studentId }).sort({ createdAt: -1 })] *)
Definition findByStudent (c : gmap nat doc) (sid : ObjectId)
  : list (ObjectId * doc) :=
  merge_sort newerFirst
    (filter (λ p, studentId p.2 = sid) (map_to_list c)).
End Fee.

Module Payment.
Record doc : Type := mk {
  studentId : ObjectId;
  payerType : Role;
  payerUserId : ObjectId;
  amount : Z;
  method : string;
  status : string;
  transactionId : string;
  createdAt : Z;
}.

(** enum of [method] *)
Definition methodEnum : list string := ["UPI"; "Card"; "Netbanking"; "Cash"].

(** [Payment.create]: the document is validated against the schema and
    inserted under a fresh [_id]; [up] says whether the persistence layer
    takes the write. *)
Definition create (up : bool) (c : gmap nat doc) (d : doc)
  : Exn + gmap nat doc :=
  if negb (bool_decide (method d ∈ methodEnum)) then inl ValidationFailed
  else if negb up then inl StoreDown
  else inr (<[fresh (dom c) := d]> c).
End Payment.

Module EntryExit.
Inductive Status : Type := IN | OUT.

Global Instance Status_eq_dec : EqDecision Status.
Proof. solve_decision. Defined.

(** The EntryExit schema (models/EntryExit.model.js): [studentId]
    required, [inTime] and [outTime] optional dates, [status] in
    {IN, OUT}, [method] required and in its enum, and the [createdAt] of
    [timestamps: true]. *)
Record doc : Type := mk {
  studentId : ObjectId;
  inTime : option Z;
  outTime : option Z;
  status : Status;
  method : string;
  createdAt : Z;
}.

(** enum of [method] *)
Definition methodEnum : list string := ["QR"; "Biometric"; "Manual"].

(** The more recent of the candidates, by [createdAt]; of two documents
    created at the same instant the one met first is kept. *)
Fixpoint latestOf (l : list (ObjectId * doc)) : option (ObjectId * doc) :=
  match l with
  | [] => None
  | x :: r =>
      match latestOf r with
      | Some y => if bool_decide (createdAt x.2 < createdAt y.2)
                  then Some y else Some x
      | None => Some x
      end
  end.

(** [EntryExit.findOne({ studentId }).sort({ createdAt: -1 })] *)
Definition findLatest (c : gmap nat doc) (sid : ObjectId)
  : option (ObjectId * doc) :=
  latestOf (filter (λ p, studentId p.2 = sid) (map_to_list c)).
End EntryExit.

(** ** The state: the collections and the error console *)

Record State : Type := mkState {
  users : gmap nat User.doc;
  students : gmap nat Student.doc;
  parents : gmap nat Parent.doc;
  leaves : gmap nat Leave.doc;
  fees : gmap nat Fee.doc;
  payments : gmap nat Payment.doc;
  entryExits : gmap nat EntryExit.doc;
  console : list (string * Exn);
}.

Definition set_leaves (st : State) (c : gmap nat Leave.doc) : State :=
  mkState (users st) (students st) (parents st) c (fees st) (payments st)
          (entryExits st) (console st).

Definition set_fees (st : State) (c : gmap nat Fee.doc) : State :=
  mkState (users st) (students st) (parents st) (leaves st) c (payments st)
          (entryExits st) (console st).

Definition set_payments (st : State) (c : gmap nat Payment.doc) : State :=
  mkState (users st) (students st) (parents st) (leaves st) (fees st) c
          (entryExits st) (console st).

Definition set_entryExits (st : State) (c : gmap nat EntryExit.doc) : State :=
  mkState (users st) (students st) (parents st) (leaves st) (fees st)
          (payments st) c (console st).

(** [console.error(label, error)] *)
Definition console_error (st : State) (label : string) (e : Exn) : State :=
  mkState (users st) (students st) (parents st) (leaves st) (fees st)
          (payments st) (entryExits st) (console st ++ [(label, e)]).

(** What a handler cannot compute from the request and the state. *)
Record Env : Type := mkEnv {
  now : Z;                 (* new Date(), Date.now() *)
  dateNow36 : string;      (* Date.now().toString(36).toUpperCase() *)
  random36 : string;       (* Math.random().toString(36).slice(2, 8).toUpperCase() *)
  paymentStoreUp : bool;   (* whether Payment.create reaches the store *)
}.


(** ** Leave workflow: src/controllers/leave.controller.js *)

Record CreateLeaveBody : Type := mkCreateLeaveBody {
  cl_reason : option string;
  cl_type : option string;
  cl_outDate : option JsDate;  (* [None]: missing or empty; else new Date(outDate) *)
  cl_inDate : option JsDate;
  cl_outTime : option string;
  cl_inTime : option string;
}.

Record DecisionBody : Type := mkDecisionBody {
  d_status : string;
  d_rejectionReason : option string;
}.

Definition LeaveResponse : Type := Response (ObjectId * Leave.doc).

(** [await doc.populate('studentId', ...)] then
    [await doc.populate('studentId.userId', 'name')] on a document,
    followed by the read of [doc.studentId.userId.name]: the name, or the
    TypeError of reading through a reference that resolved to null. *)
Definition populatedStudentName (st : State) (sid : ObjectId)
  : option string :=
  match students st !! sid with
  | Some s =>
      match users st !! Student.userId s with
      | Some u => Some (User.name u)
      | None => None
      end
  | None => None
  end.

Definition createLeaveRequest (env : Env) (st : State) (user : ReqUser)
    (body : CreateLeaveBody) : State * LeaveResponse :=
  match cl_reason body, cl_type body, cl_outDate body, cl_inDate body with
  | Some reason, Some type, Some outDateObj, Some inDateObj =>
      if negb (truthy (Some reason)) || negb (truthy (Some type)) then
        (st, fail 400 "Please provide reason, type, out date, and in date")
      else if date_ge outDateObj inDateObj then
        (st, fail 400 "Out date must be before in date")
      else
        match Student.findOneByUserId (students st) (_id user) with
        | None => (st, fail 404 "Student profile not found")
        | Some (sid, _) =>
            match Leave.create (leaves st) (now env) sid (trim reason) type
                    outDateObj inDateObj (cl_outTime body) (cl_inTime body)
                    Leave.PendingParent Leave.PPending
                    [Leave.mkEntry Leave.PendingParent None student None
                                   (now env)]
            with
            | inl e =>
                (console_error st "Create leave error:" e,
                 fail 500 "Server error while creating leave request")
            | inr (id, d, c) =>
                let st' := set_leaves st c in
                match populatedStudentName st' sid with
                | None =>
                    (console_error st' "Create leave error:" NullDereference,
                     fail 500 "Server error while creating leave request")
                | Some _ =>
                    (st', ok 201 "Leave request submitted successfully" (id, d))
                end
            end
        end
  | _, _, _, _ =>
      (st, fail 400 "Please provide reason, type, out date, and in date")
  end.

Definition parentApproveOrReject (env : Env) (st : State) (user : ReqUser)
    (id : ObjectId) (body : DecisionBody) : State * LeaveResponse :=
  let status := d_status body in
  if negb (bool_decide (status ∈ ["Approved"; "Rejected"])) then
    (st, fail 400 "Invalid status. Must be Approved or Rejected")
  else
    match Parent.findOneByUserId (parents st) (_id user) with
    | None => (st, fail 403 "Parent profile not found")
    | Some (_, par) =>
        let newStatus :=
          if bool_decide (status = "Approved")
          then Leave.ApprovedByParent else Leave.RejectedByParent in
        let parentApprovalStatus :=
          if bool_decide (status = "Approved")
          then Leave.PApproved else Leave.PRejected in
        let decisionTime := now env in
        let reason :=
          if bool_decide (status = "Rejected")
          then d_rejectionReason body else None in
        let entry :=
          Leave.mkEntry newStatus (Some (_id user)) parent reason decisionTime in
        match Leave.findOneAndUpdate (leaves st) id
                (λ d, bool_decide (Leave.studentId d = Parent.studentId par)
                      && bool_decide (Leave.status d = Leave.PendingParent))
                (Leave.applyParentDecision newStatus parentApprovalStatus
                   (_id user) decisionTime reason entry)
        with
        | Some (updated, c) =>
            (set_leaves st c,
             ok 200
                (if bool_decide (status = "Approved")
                 then "Leave request approved by parent"
                 else "Leave request rejected by parent")
                (id, updated))
        | None =>
            match leaves st !! id with
            | None => (st, fail 404 "Leave request not found")
            | Some existing =>
                (* [existing] is loaded with populate('studentId', ...): the
                   reference is replaced by the student document, or by
                   null when that student is no longer stored.  Then
                   existing.studentId?._id?.toString()
                     !== parent.studentId.toString() *)
                if match students st !! Leave.studentId existing with
                   | Some _ =>
                       negb (bool_decide (Leave.studentId existing
                                          = Parent.studentId par))
                   | None => true
                   end
                then (st, fail 403 "Not authorized to approve this leave request")
                else (st, fail 409
                            "This outing request was already processed by parent")
            end
        end
    end.

Definition updateLeaveStatus (env : Env) (st : State) (user : ReqUser)
    (id : ObjectId) (body : DecisionBody) : State * LeaveResponse :=
  let status := d_status body in
  if negb (bool_decide (status ∈ ["Approved"; "Rejected"])) then
    (st, fail 400 "Invalid status. Must be Approved or Rejected")
  else
    let newStatus :=
      if bool_decide (status = "Approved")
      then Leave.Approved else Leave.Rejected in
    let decisionTime := now env in
    let reason :=
      if bool_decide (status = "Rejected")
      then d_rejectionReason body else None in
    let entry :=
      Leave.mkEntry newStatus (Some (_id user)) warden reason decisionTime in
    match Leave.findOneAndUpdate (leaves st) id
            (λ d, bool_decide (Leave.status d = Leave.ApprovedByParent))
            (Leave.applyWardenDecision newStatus (_id user)
               (if bool_decide (status = "Approved")
                then Some decisionTime else None)
               reason entry)
    with
    | Some (updated, c) =>
        let st' := set_leaves st c in
        (* the query populates 'studentId' and, chained, 'studentId.userId':
           the student document or null replaces the reference, the user
           inside it stays an ObjectId.  The answer reads
           updated.studentId.userId.name: undefined, or a TypeError when
           the student is no longer stored *)
        match students st' !! Leave.studentId updated with
        | None =>
            (console_error st' "Update leave status error:" NullDereference,
             fail 500 "Server error while updating leave request")
        | Some _ =>
            (st',
             ok 200
                (if bool_decide (status = "Approved")
                 then "Leave request approved successfully"
                 else "Leave request rejected successfully")
                (id, updated))
        end
    | None =>
        match leaves st !! id with
        | None => (st, fail 404 "Leave request not found")
        | Some _ =>
            (st, fail 409 "This outing request was already processed by warden")
        end
    end.

Definition cancelMyLeaveRequest (st : State) (user : ReqUser)
    (id : ObjectId) : State * LeaveResponse :=
  match Student.findOneByUserId (students st) (_id user) with
  | None => (st, fail 404 "Student profile not found")
  | Some (sid, _) =>
      match leaves st !! id with
      | None => (st, fail 404 "Leave request not found")
      | Some leave =>
          (* leave.studentId._id on the populated reference *)
          match students st !! Leave.studentId leave with
          | None =>
              (console_error st "Cancel leave error:" NullDereference,
               fail 500 "Server error while cancelling leave request")
          | Some _ =>
              if negb (bool_decide (Leave.studentId leave = sid)) then
                (st, fail 403 "Not authorized to cancel this leave request")
              else if negb (bool_decide
                              (Leave.status leave
                               ∈ [Leave.Pending; Leave.PendingParent])) then
                (st, fail 400
                   "Only pending requests (before parent/warden approval) can be cancelled")
              else
                let leave' := Leave.setStatus Leave.Cancelled leave in
                match Leave.save (leaves st) id leave' with
                | inl e =>
                    (console_error st "Cancel leave error:" e,
                     fail 500 "Server error while cancelling leave request")
                | inr c =>
                    (set_leaves st c,
                     ok 200 "Leave request cancelled successfully" (id, leave'))
                end
          end
      end
  end.

(** ** Fee settlement: src/controllers/payment.controller.js *)

Record PayBody : Type := mkPayBody {
  pay_amount : option Z;         (* [None]: not a number, or NaN *)
  pay_method : option string;
  pay_transactionId : option string;
}.

Record PayData : Type := mkPayData {
  pd_data : list (ObjectId * Fee.doc);
  pd_receiptNumber : option string;
}.

Definition generateReceiptNumber (env : Env) : string :=
  "RCPT-" +:+ dateNow36 env +:+ "-" +:+ random36 env.

(** The assignments of the [pendingFees.map] callback to one fee;
    [receiptNumber] goes through the schema's [trim] setter. *)
Definition markPaid (paidAt : Z) (transactionReceipt : string)
    (paidBy : Role) (paidByUserId : ObjectId) (fee : Fee.doc) : Fee.doc :=
  Fee.mk (Fee.studentId fee) (Fee.amount fee) (Fee.term fee) Fee.Paid
         (Some (trim (js_or (Fee.receiptNumber fee) transactionReceipt)))
         (Some paidAt) (Some paidBy) (Some paidByUserId)
         (Fee.createdAt fee).

(** The array [pendingFees.map] runs over, each fee as the callback has
    assigned it when it calls [fee.save()]. *)
Definition settlementWrites (paidAt : Z) (transactionReceipt : string)
    (paidBy : Role) (paidByUserId : ObjectId)
    (pendingFees : list (ObjectId * Fee.doc)) : list (ObjectId * Fee.doc) :=
  (λ p, (p.1, markPaid paidAt transactionReceipt paidBy paidByUserId p.2))
    <$> pendingFees.

(** [Promise.all] over the saves: every save is issued, in the order of the
    array; a rejected save leaves its document as stored and the first
    rejection is the one [Promise.all] rejects with. *)
Fixpoint saveAll (c : gmap nat Fee.doc) (l : list (ObjectId * Fee.doc))
  : gmap nat Fee.doc * option Exn :=
  match l with
  | [] => (c, None)
  | (id, d) :: r =>
      match Fee.write c id d with
      | inl e => (fst (saveAll c r), Some e)
      | inr c' => saveAll c' r
      end
  end.

(** The student a payment is made for: the parent's linked student, or the
    caller's own profile. *)
Definition payerStudent (st : State) (user : ReqUser)
  : Response PayData + ObjectId :=
  if bool_decide (role user = parent) then
    match Parent.findOneByUserId (parents st) (_id user) with
    | None => inl (fail 404 "Parent profile not found")
    | Some (_, par) =>
        match students st !! Parent.studentId par with
        | None => inl (fail 404 "Student profile not found")
        | Some _ => inr (Parent.studentId par)
        end
    end
  else
    match Student.findOneByUserId (students st) (_id user) with
    | None => inl (fail 404 "Student profile not found")
    | Some (sid, _) => inr sid
    end.

Definition totalDue (pendingFees : list (ObjectId * Fee.doc)) : Z :=
  foldl (λ sum fee, sum + Fee.amount fee.2) 0 pendingFees.

Definition payMyFees (env : Env) (st : State) (user : ReqUser)
    (body : PayBody) : State * Response PayData :=
  match pay_amount body with
  | None => (st, fail 400 "Please provide a valid amount")
  | Some amount =>
      if bool_decide (amount ≤ 0) then
        (st, fail 400 "Please provide a valid amount")
      else
        match payerStudent st user with
        | inl r => (st, r)
        | inr sid =>
            let pendingFees := Fee.findPending (fees st) sid in
            match pendingFees with
            | [] =>
                (st, ok 200 "No pending fees to pay" (mkPayData [] None))
            | _ =>
                if negb (bool_decide (amount = totalDue pendingFees)) then
                  (st, failWith 400
                         (AmountMismatchMsg (totalDue pendingFees) amount))
                else
                  let paidAt := now env in
                  let transactionReceipt := generateReceiptNumber env in
                  let paidBy :=
                    if bool_decide (role user = parent)
                    then parent else student in
                  let paidByUserId := _id user in
                  match saveAll (fees st)
                          (settlementWrites paidAt transactionReceipt
                                            paidBy paidByUserId pendingFees)
                  with
                  | (c, Some e) =>
                      (console_error (set_fees st c)
                                     "Error recording payment:" e,
                       failWith 500 (ErrorMessage e))
                  | (c, None) =>
                      let st1 := set_fees st c in
                      let st2 :=
                        match Payment.create (paymentStoreUp env)
                                (payments st1)
                                (Payment.mk sid paidBy paidByUserId amount
                                   (default "UPI" (pay_method body))
                                   "Completed"
                                   (trim (js_or (pay_transactionId body)
                                                transactionReceipt))
                                   (now env))
                        with
                        | inl payErr =>
                            console_error st1
                              "Failed to create Payment record:" payErr
                        | inr pc => set_payments st1 pc
                        end in
                      (st2, ok 200 "Payment recorded successfully"
                              (mkPayData (Fee.findByStudent (fees st2) sid)
                                         (Some transactionReceipt)))
                  end
            end
        end
  end.

(** ** Fee administration: controllers/fee.controller.js *)

Record CreateFeeBody : Type := mkCreateFeeBody {
  cf_studentId : option ObjectId;
  cf_amount : option Z;
  cf_term : option string;
  cf_status : option string;
}.

Record UpdateFeeBody : Type := mkUpdateFeeBody {
  uf_amount : option Z;
  uf_status : option string;
  uf_term : option string;
  uf_receiptNumber : option string;
}.

Definition FeeResponse : Type := Response (ObjectId * Fee.doc).

Definition createFee (env : Env) (st : State) (body : CreateFeeBody)
  : State * FeeResponse :=
  match cf_studentId body, cf_amount body, cf_term body with
  | Some studentId, Some amount, Some term =>
      if bool_decide (amount = 0) || negb (truthy (Some term)) then
        (st, fail 400 "Please provide studentId, amount, and term")
      else
        match students st !! studentId with
        | None => (st, fail 404 "Student not found")
        | Some _ =>
            (* Fee.create({ studentId, amount, term, status }) *)
            match Fee.parseStatus (default "Pending" (cf_status body)) with
            | None => (st, failWith 500 (ErrorMessage ValidationFailed))
            | Some status =>
                if negb (Fee.validAmount amount && Fee.validTerm term) then
                  (st, failWith 500 (ErrorMessage ValidationFailed))
                else
                  let id := fresh (dom (fees st)) in
                  let fee := Fee.mk studentId amount (trim term) status
                                    None None None None (now env) in
                  match Fee.write (fees st) id fee with
                  | inl e => (st, failWith 500 (ErrorMessage e))
                  | inr c =>
                      (set_fees st c,
                       ok 201 "Fee record created successfully" (id, fee))
                  end
            end
        end
  | _, _, _ => (st, fail 400 "Please provide studentId, amount, and term")
  end.

Definition updateFee (env : Env) (st : State) (id : ObjectId)
    (body : UpdateFeeBody) : State * FeeResponse :=
  match fees st !! id with
  | None => (st, fail 404 "Fee record not found")
  | Some fee =>
      let amount := default (Fee.amount fee) (uf_amount body) in
      let paidAt :=
        match uf_status body with
        | Some status =>
            if bool_decide (status = "Paid")
               && negb (bool_decide (is_Some (Fee.paidAt fee)))
            then Some (now env) else Fee.paidAt fee
        | None => Fee.paidAt fee
        end in
      let term :=
        match uf_term body with
        | Some t => trim t
        | None => Fee.term fee
        end in
      let receiptNumber :=
        match uf_receiptNumber body with
        | Some r => Some (trim r)
        | None => Fee.receiptNumber fee
        end in
      (* fee.save(): the modified paths are validated, then written *)
      match match uf_status body with
            | Some status => Fee.parseStatus status
            | None => Some (Fee.status fee)
            end
      with
      | None => (st, failWith 500 (ErrorMessage ValidationFailed))
      | Some status =>
          if negb (from_option Fee.validAmount true (uf_amount body)
                   && from_option Fee.validTerm true (uf_term body)) then
            (st, failWith 500 (ErrorMessage ValidationFailed))
          else
            let fee' := Fee.mk (Fee.studentId fee) amount term status
                               receiptNumber paidAt (Fee.paidBy fee)
                               (Fee.paidByUserId fee) (Fee.createdAt fee) in
            match Fee.write (fees st) id fee' with
            | inl e => (st, failWith 500 (ErrorMessage e))
            | inr c =>
                (set_fees st c,
                 ok 200 "Fee record updated successfully" (id, fee'))
            end
      end
  end.

Definition markFeePaid (env : Env) (st : State) (user : ReqUser)
    (id : ObjectId) (receiptNumber : option string) : State * FeeResponse :=
  match fees st !! id with
  | None => (st, fail 404 "Fee record not found")
  | Some fee =>
      let fee' :=
        Fee.mk (Fee.studentId fee) (Fee.amount fee) (Fee.term fee) Fee.Paid
               (if truthy receiptNumber
                then trim <$> receiptNumber else Fee.receiptNumber fee)
               (Some (now env)) (Some warden) (Some (_id user))
               (Fee.createdAt fee) in
      match Fee.write (fees st) id fee' with
      | inl e => (st, failWith 500 (ErrorMessage e))
      | inr c =>
          (set_fees st c, ok 200 "Fee marked as paid successfully" (id, fee'))
      end
  end.

(** ** Entry/exit toggle: controllers/entryExit.controller.js *)

(** [req.body.studentId] after the [ObjectId.isValid] test: an ObjectId, or
    a roll number. *)
Inductive StudentRef : Type :=
  | ById (id : ObjectId)
  | ByRollNumber (r : string).

Record EntryExitBody : Type := mkEntryExitBody {
  ee_studentId : option StudentRef;
  ee_method : option string;
}.

Definition EntryExitResponse : Type := Response (ObjectId * EntryExit.doc).

(** The first part of both handlers: [targetStudentId]. *)
Definition targetStudent (st : State) (user : ReqUser) (body : EntryExitBody)
  : EntryExitResponse + ObjectId :=
  if bool_decide (role user = student) then
    match Student.findOneByUserId (students st) (_id user) with
    | None => inl (fail 404 "Student profile not found")
    | Some (sid, _) => inr sid
    end
  else
    match ee_studentId body with
    | None => inl (fail 400 "Please provide studentId")
    | Some (ById id) =>
        match students st !! id with
        | None => inl (fail 404 "Student not found")
        | Some _ => inr id
        end
    | Some (ByRollNumber r) =>
        match Student.findOneByRollNumber (students st) (trim r) with
        | None => inl (fail 404 "Student not found")
        | Some (sid, _) => inr sid
        end
    end.

Definition markEntry (env : Env) (st : State) (user : ReqUser)
    (body : EntryExitBody) : State * EntryExitResponse :=
  let method := default "Manual" (ee_method body) in
  match targetStudent st user body with
  | inl r => (st, r)
  | inr targetStudentId =>
      let lastLog := EntryExit.findLatest (entryExits st) targetStudentId in
      if match lastLog with
         | Some (_, l) => bool_decide (EntryExit.status l = EntryExit.IN)
         | None => false
         end
      then (st, fail 400 "Student is already marked as IN")
      else
        (* EntryExit.create validates the new document: [method] must be
           in its enum *)
        if negb (bool_decide (method ∈ EntryExit.methodEnum)) then
          (st, failWith 500 (ErrorMessage ValidationFailed))
        else
          let id := fresh (dom (entryExits st)) in
          let entryLog := EntryExit.mk targetStudentId (Some (now env)) None
                                       EntryExit.IN method (now env) in
          (set_entryExits st (<[id := entryLog]> (entryExits st)),
           ok 201 "Entry marked successfully" (id, entryLog))
  end.

Definition markExit (env : Env) (st : State) (user : ReqUser)
    (body : EntryExitBody) : State * EntryExitResponse :=
  let method := default "Manual" (ee_method body) in
  match targetStudent st user body with
  | inl r => (st, r)
  | inr targetStudentId =>
      match EntryExit.findLatest (entryExits st) targetStudentId with
      | None => (st, fail 400 "Student is not currently marked as IN")
      | Some (id, lastLog) =>
          if bool_decide (EntryExit.status lastLog = EntryExit.OUT) then
            (st, fail 400 "Student is not currently marked as IN")
          else if negb (bool_decide (method ∈ EntryExit.methodEnum)) then
            (* lastLog.save() validates the document: [method] must be in
               its enum *)
            (st, failWith 500 (ErrorMessage ValidationFailed))
          else
            let lastLog' :=
              EntryExit.mk (EntryExit.studentId lastLog)
                           (EntryExit.inTime lastLog) (Some (now env))
                           EntryExit.OUT method
                           (EntryExit.createdAt lastLog) in
            (set_entryExits st (<[id := lastLog']> (entryExits st)),
             ok 200 "Exit marked successfully" (id, lastLog'))
      end
  end.

(** ** The API as one step function *)

Inductive Request : Type :=
  | CreateLeaveRequest (user : ReqUser) (body : CreateLeaveBody)
  | ParentApproveOrReject (user : ReqUser) (id : ObjectId) (body : DecisionBody)
  | UpdateLeaveStatus (user : ReqUser) (id : ObjectId) (body : DecisionBody)
  | CancelMyLeaveRequest (user : ReqUser) (id : ObjectId)
  | PayMyFees (user : ReqUser) (body : PayBody)
  | CreateFee (body : CreateFeeBody)
  | UpdateFee (id : ObjectId) (body : UpdateFeeBody)
  | MarkFeePaid (user : ReqUser) (id : ObjectId) (receiptNumber : option string)
  | MarkEntry (user : ReqUser) (body : EntryExitBody)
  | MarkExit (user : ReqUser) (body : EntryExitBody).

(** The state a request leaves behind. *)
Definition handle (env : Env) (st : State) (rq : Request) : State :=
  match rq with
  | CreateLeaveRequest user body => (createLeaveRequest env st user body).1
  | ParentApproveOrReject user id body =>
      (parentApproveOrReject env st user id body).1
  | UpdateLeaveStatus user id body => (updateLeaveStatus env st user id body).1
  | CancelMyLeaveRequest user id => (cancelMyLeaveRequest st user id).1
  | PayMyFees user body => (payMyFees env st user body).1
  | CreateFee body => (createFee env st body).1
  | UpdateFee id body => (updateFee env st id body).1
  | MarkFeePaid user id receiptNumber =>
      (markFeePaid env st user id receiptNumber).1
  | MarkEntry user body => (markEntry env st user body).1
  | MarkExit user body => (markExit env st user body).1
  end.

(** The states the API can reach from [init], one request after another,
    each under its own environment. *)
Inductive reachable (init : State) : State → Prop :=
  | reachable_init : reachable init init
  | reachable_step env st rq :
      reachable init st → reachable init (handle env st rq).

(** ** Record invariants *)

(** An entry/exit log has its entry time; it has an exit time exactly when
    its status is OUT. *)
Definition logConsistent (l : EntryExit.doc) : Prop :=
  is_Some (EntryExit.inTime l)
  ∧ (EntryExit.status l = EntryExit.IN → EntryExit.outTime l = None)
  ∧ (EntryExit.status l = EntryExit.OUT → is_Some (EntryExit.outTime l)).





(** The receipt number [payMyFees] assigns to a fee: the one it has, or
    else the one generated for the settlement. *)
Definition stampedReceipt (env : Env) (fee : Fee.doc) : string :=
  trim (js_or (Fee.receiptNumber fee) (generateReceiptNumber env)).

(** ** Sample data for the examples *)

Module Sample.
Definition env : Env := mkEnv 1700000000000 "LOYW3V28" "4FZZZX" true.

Definition asha : ReqUser := mkReqUser 10 student.
Definition bina : ReqUser := mkReqUser 11 student.
Definition chitra : ReqUser := mkReqUser 12 student.
Definition ravi : ReqUser := mkReqUser 20 parent.
Definition mala : ReqUser := mkReqUser 21 parent.
Definition head_warden : ReqUser := mkReqUser 30 warden.

Definition submitted (at_ : Z) : Leave.HistoryEntry :=
  Leave.mkEntry Leave.PendingParent None student None at_.

(** a request of student 1, waiting for the parent *)
Definition leave1 : Leave.doc :=
  Leave.mk 1 "Family function" "Home Visit" Leave.PendingParent
           1000 3000 None None None None None (Some Leave.PPending)
           None None None [submitted 500] 500.

(** a request of student 1 the warden has approved *)
Definition leave2 : Leave.doc :=
  Leave.mk 1 "Dentist" "Medical Checkup" Leave.Approved
           1000 2000 None None (Some 30%nat) (Some 900) None
           (Some Leave.PApproved) (Some 20%nat) (Some 800) None
           [submitted 700;
            Leave.mkEntry Leave.ApprovedByParent (Some 20%nat) parent None 800;
            Leave.mkEntry Leave.Approved (Some 30%nat) warden None 900]
           700.

(** a request of student 9, whose profile has since been deleted *)
Definition leave3 : Leave.doc :=
  Leave.mk 9 "Shopping" "Local Market/Personal" Leave.RejectedByParent
           1000 2000 None None None None None
           (Some Leave.PRejected) (Some 21%nat) (Some 650)
           (Some "not convenient")
           [submitted 600;
            Leave.mkEntry Leave.RejectedByParent (Some 21%nat) parent
                          (Some "not convenient") 650]
           600.

Definition fee1 : Fee.doc :=
  Fee.mk 1 500 "Term 1" Fee.Pending None None None None 100.
Definition fee2 : Fee.doc :=
  Fee.mk 1 300 "Term 2" Fee.Pending None None None None 200.
Definition fee3 : Fee.doc :=
  Fee.mk 2 700 "Term 1" Fee.Pending None None None None 150.

Definition hostel : State :=
  mkState
    (<[10%nat := User.mk "Asha"]> (<[11%nat := User.mk "Bina"]>
      (<[12%nat := User.mk "Chitra"]>
        (<[20%nat := User.mk "Ravi"]> (<[21%nat := User.mk "Mala"]>
          (<[30%nat := User.mk "Warden"]> ∅))))))
    (<[1%nat := Student.mk 10 "R-001" (Some "A1")]>
      (<[2%nat := Student.mk 11 "R-002" None]>
        (<[3%nat := Student.mk 12 "R-003" (Some "B4")]> ∅)))
    (<[1%nat := Parent.mk 20 1]> (<[2%nat := Parent.mk 21 9]> ∅))
    (<[1%nat := leave1]> (<[2%nat := leave2]> (<[3%nat := leave3]> ∅)))
    (<[1%nat := fee1]> (<[2%nat := fee2]> (<[3%nat := fee3]> ∅)))
    ∅ ∅ [].
End Sample.


(** ** Listings and reports: the read-only handlers *)

(** An answer that carries data and no message. *)
Definition okData {D} (d : D) : Response D :=
  mkResponse 200 true (Static "") (Some d).

(** cast of a query string to the [status] enum of the Leave schema; a
    string outside the enum matches no stored request *)
Definition leaveStatusOfString (s : string) : option Leave.Status :=
  if bool_decide (s = "Pending") then Some Leave.Pending
  else if bool_decide (s = "PendingParent") then Some Leave.PendingParent
  else if bool_decide (s = "ApprovedByParent") then Some Leave.ApprovedByParent
  else if bool_decide (s = "RejectedByParent") then Some Leave.RejectedByParent
  else if bool_decide (s = "Approved") then Some Leave.Approved
  else if bool_decide (s = "Rejected") then Some Leave.Rejected
  else if bool_decide (s = "Cancelled") then Some Leave.Cancelled
  else None.

Definition leaveNewerFirst (a b : ObjectId * Leave.doc) : Prop :=
  Leave.createdAt b.2 ≤ Leave.createdAt a.2.

Global Instance leaveNewerFirst_dec : RelDecision leaveNewerFirst.
Proof. intros a b. unfold leaveNewerFirst. apply _. Defined.

(** One element of the [leaves] array of a listing: the fields copied from
    the request, the [student] object with its name and room (warden
    listing only; a name that is undefined is [None]) and the name of the
    approving user, if any. *)
Record FormattedLeave : Type := mkFormattedLeave {
  fl_id : ObjectId;
  fl_leave : Leave.doc;
  fl_student : option (option string * option string);
  fl_approvedBy : option string;
}.

(** [leave.approvedBy ? leave.approvedBy.name : null] on the populated
    reference *)
Definition approvedByName (st : State) (leave : Leave.doc) : option string :=
  match Leave.approvedBy leave with
  | Some w => User.name <$> users st !! w
  | None => None
  end.

(** The [leaves.map] callback of [getAllLeaveRequests].  The query
    populates 'studentId' and, chained, 'studentId.userId': the student
    document or null replaces the reference, the user inside it stays an
    ObjectId.  So [leave.studentId.userId.name] is undefined, and a
    TypeError ([None]) when the student is no longer stored. *)
Definition formatLeaveForWarden (st : State) (p : ObjectId * Leave.doc)
  : option FormattedLeave :=
  match students st !! Leave.studentId p.2 with
  | Some s =>
      Some (mkFormattedLeave p.1 p.2 (Some (None, Student.room s))
                             (approvedByName st p.2))
  | None => None
  end.

(** [if (status) filter.status = status] *)
Definition statusFilter (status : option string) (leave : Leave.doc) : bool :=
  if truthy status then
    match status ≫= leaveStatusOfString with
    | Some s => bool_decide (Leave.status leave = s)
    | None => false
    end
  else true.

Definition getAllLeaveRequests (st : State) (status : option string)
  : State * Response (list FormattedLeave) :=
  let leaves :=
    merge_sort leaveNewerFirst
      (filter (λ p, statusFilter status p.2 = true) (map_to_list (leaves st))) in
  match mapM (formatLeaveForWarden st) leaves with
  | Some formattedLeaves => (st, okData formattedLeaves)
  | None =>
      (console_error st "Get leaves error:" NullDereference,
       fail 500 "Server error while fetching leave requests")
  end.

Definition getMyLeaveRequests (st : State) (user : ReqUser)
  : State * Response (list FormattedLeave) :=
  match Student.findOneByUserId (students st) (_id user) with
  | None => (st, fail 404 "Student profile not found")
  | Some (sid, _) =>
      let leaves :=
        merge_sort leaveNewerFirst
          (filter (λ p, Leave.studentId p.2 = sid) (map_to_list (leaves st))) in
      (st, okData ((λ p, mkFormattedLeave p.1 p.2 None (approvedByName st p.2))
                     <$> leaves))
  end.

(** [getWardenDecisionTimestamp]: the timestamp of the last history entry
    a warden wrote with status Approved or Rejected, else [approvedAt],
    else null.  A stored timestamp is a Date object, which is truthy. *)
Definition getWardenDecisionTimestamp (leave : Leave.doc) : option Z :=
  match Leave.statusHistory leave with
  | [] => Leave.approvedAt leave
  | _ =>
      match List.find
              (λ item, bool_decide (Leave.h_role item = warden)
                       && bool_decide (Leave.h_status item
                                       ∈ [Leave.Approved; Leave.Rejected]))
              (reverse (Leave.statusHistory leave))
      with
      | Some entry => Some (Leave.h_timestamp entry)
      | None => Leave.approvedAt leave
      end
  end.

(** The two warden columns of a row of [exportOutingReport], before the
    dates are formatted: the decision and its time. *)
Definition exportWardenDecision (leave : Leave.doc) : string * option Z :=
  let wardenDecision :=
    if bool_decide (Leave.status leave = Leave.Approved) then "Approved"
    else if bool_decide (Leave.status leave = Leave.Rejected) then "Rejected"
    else "N/A" in
  let wardenDecisionAt :=
    if bool_decide (wardenDecision = "N/A") then None
    else getWardenDecisionTimestamp leave in
  (wardenDecision, wardenDecisionAt).

(** *** Fees *)

Definition getFeeById (st : State) (user : ReqUser) (id : ObjectId)
  : State * FeeResponse :=
  match fees st !! id with
  | None => (st, fail 404 "Fee record not found")
  | Some fee =>
      if bool_decide (role user = student) then
        match Student.findOneByUserId (students st) (_id user) with
        | None => (st, fail 403 "Not authorized to access this fee record")
        | Some (sid, _) =>
            (* fee.studentId._id on the populated reference *)
            match students st !! Fee.studentId fee with
            | None => (st, failWith 500 (ErrorMessage NullDereference))
            | Some _ =>
                if negb (bool_decide (Fee.studentId fee = sid)) then
                  (st, fail 403 "Not authorized to access this fee record")
                else (st, okData (id, fee))
            end
        end
      else (st, okData (id, fee))
  end.

Definition deleteFee (st : State) (id : ObjectId) : State * Response unit :=
  match fees st !! id with
  | None => (st, fail 404 "Fee record not found")
  | Some _ =>
      (set_fees st (delete id (fees st)),
       mkResponse 200 true (Static "Fee record deleted successfully") None)
  end.

(** One element of the [data] array of [getPaymentSummary].  The fields
    copied unchanged from the profile and the user (email, class, section)
    are not part of the embedding. *)
Record SummaryRow : Type := mkSummaryRow {
  sr_studentId : ObjectId;
  sr_studentName : string;
  sr_rollNumber : string;
  sr_room : string;
  sr_totalFees : Z;
  sr_paidAmount : Z;
  sr_dueAmount : Z;
  sr_paymentStatus : string;
  sr_feeCount : nat;
  sr_fees : list (ObjectId * Fee.doc);
}.

Definition byRollNumber (a b : ObjectId * Student.doc) : Prop :=
  String.leb (Student.rollNumber a.2) (Student.rollNumber b.2) = true.

Global Instance byRollNumber_dec : RelDecision byRollNumber.
Proof. intros a b. unfold byRollNumber. apply _. Defined.

(** [fees.reduce((sum, fee) => sum + fee.amount, 0)], on whole-number
    amounts; the sum of fractional amounts is rounded by the code and is
    not what this definition gives. *)
Definition sumAmounts (l : list (ObjectId * Fee.doc)) : Z :=
  foldl (λ sum fee, sum + Fee.amount fee.2) 0 l.

(** [allFees.filter(fee => fee.studentId._id.toString() === student._id.toString())]
    on the fees with their [studentId] populated: the callback runs on
    every fee, and throws on a fee whose student is no longer stored. *)
Definition studentFeesOf (st : State) (sid : ObjectId)
  : option (list (ObjectId * Fee.doc)) :=
  filter (λ p, Fee.studentId p.2 = sid)
    <$> mapM (λ p, match students st !! Fee.studentId p.2 with
                   | Some _ => Some p
                   | None => None
                   end)
             (map_to_list (fees st)).

(** The [students.map] callback of [getPaymentSummary]. *)
Definition summaryRow (st : State) (p : ObjectId * Student.doc)
  : option SummaryRow :=
  match studentFeesOf st p.1 with
  | None => None
  | Some studentFees =>
      let totalFees := sumAmounts studentFees in
      let paidAmount :=
        sumAmounts (filter (λ fee, Fee.status fee.2 = Fee.Paid) studentFees) in
      let dueAmount := totalFees - paidAmount in
      let paymentStatus :=
        if bool_decide (dueAmount = 0) then "Paid"
        else if bool_decide (dueAmount = totalFees) then "Pending"
        else "Partial" in
      Some (mkSummaryRow p.1
              (js_or (User.name <$> users st !! Student.userId p.2) "Unknown")
              (Student.rollNumber p.2)
              (js_or (Student.room p.2) "N/A")
              totalFees paidAmount dueAmount paymentStatus
              (length studentFees) studentFees)
  end.

Definition getPaymentSummary (st : State)
  : State * Response (list SummaryRow) :=
  let students := merge_sort byRollNumber (map_to_list (students st)) in
  match mapM (summaryRow st) students with
  | Some paymentSummary => (st, okData paymentSummary)
  | None =>
      (console_error st "Error fetching payment summary:" NullDereference,
       failWith 500 (ErrorMessage NullDereference))
  end.

(** *** Entry/exit logs *)

Definition logNewerFirst (a b : ObjectId * EntryExit.doc) : Prop :=
  EntryExit.createdAt b.2 ≤ EntryExit.createdAt a.2.

Global Instance logNewerFirst_dec : RelDecision logNewerFirst.
Proof. intros a b. unfold logNewerFirst. apply _. Defined.

(** [EntryExit.find({ studentId }).sort({ createdAt: -1 }).limit(100)] *)
Definition getMyLogs (st : State) (user : ReqUser)
  : State * Response (list (ObjectId * EntryExit.doc)) :=
  match Student.findOneByUserId (students st) (_id user) with
  | None => (st, fail 404 "Student profile not found")
  | Some (sid, _) =>
      (st, okData (take 100
                     (merge_sort logNewerFirst
                        (filter (λ p, EntryExit.studentId p.2 = sid)
                                (map_to_list (entryExits st))))))
  end.

(** ** Every modelled handler as one step

    [serve] runs a handler from its first read to its last write without
    another handler in between.  Requests are handled concurrently, so
    this is one of the runs the code has; the runs in which handlers
    overlap are given further down ([runStep]). *)

Inductive Call : Type :=
  | Mutation (rq : Request)
  | DeleteFee (id : ObjectId)
  | GetFeeById (user : ReqUser) (id : ObjectId)
  | GetPaymentSummary
  | GetAllLeaveRequests (status : option string)
  | GetMyLeaveRequests (user : ReqUser)
  | GetMyLogs (user : ReqUser).

Definition serve (env : Env) (st : State) (call : Call) : State :=
  match call with
  | Mutation rq => handle env st rq
  | DeleteFee id => (deleteFee st id).1
  | GetFeeById user id => (getFeeById st user id).1
  | GetPaymentSummary => (getPaymentSummary st).1
  | GetAllLeaveRequests status => (getAllLeaveRequests st status).1
  | GetMyLeaveRequests user => (getMyLeaveRequests st user).1
  | GetMyLogs user => (getMyLogs st user).1
  end.

(** The states reached from [init] by serving calls one after another,
    none overlapping with another. *)
Inductive served (init : State) : State → Prop :=
  | served_init : served init init
  | served_step env st call :
      served init st → served init (serve env st call).

(** The clock of a call is ahead of the creation time of every stored
    entry/exit log. *)
Definition clockAhead (env : Env) (st : State) : Prop :=
  map_Forall (λ _ l, EntryExit.createdAt l < now env) (entryExits st).

(** ** Handlers that overlap

    A handler runs until its next [await]; another handler may run before
    it resumes.  The parent's and the warden's decision write the requests
    with one [findOneAndUpdate] that tests the status it replaces, and
    [createLeaveRequest] with one insert: as far as the stored requests
    and logs go, each is the one step [serve] makes of it.  The handlers
    whose write to the requests or to the logs follows an earlier read of
    them, [cancelMyLeaveRequest], [markEntry] and [markExit], are given
    here in two halves: up to the [await] of the write, and from the
    write on.  The fee handlers read and write the fees only; they appear
    as whole steps, and nothing below speaks about the fees. *)

(** [cancelMyLeaveRequest] up to [await leave.save()]: the state and the
    answer of an early return, or the document as loaded, with
    [status = 'Cancelled'] assigned. *)
Definition cancelMyLeaveRequest_read (st : State) (user : ReqUser)
    (id : ObjectId) : State * LeaveResponse + Leave.doc :=
  match Student.findOneByUserId (students st) (_id user) with
  | None => inl (st, fail 404 "Student profile not found")
  | Some (sid, _) =>
      match leaves st !! id with
      | None => inl (st, fail 404 "Leave request not found")
      | Some leave =>
          match students st !! Leave.studentId leave with
          | None =>
              inl (console_error st "Cancel leave error:" NullDereference,
                   fail 500 "Server error while cancelling leave request")
          | Some _ =>
              if negb (bool_decide (Leave.studentId leave = sid)) then
                inl (st, fail 403 "Not authorized to cancel this leave request")
              else if negb (bool_decide
                              (Leave.status leave
                               ∈ [Leave.Pending; Leave.PendingParent])) then
                inl (st, fail 400
                       "Only pending requests (before parent/warden approval) can be cancelled")
              else inr (Leave.setStatus Leave.Cancelled leave)
          end
      end
  end.

(** [await leave.save()] and the answer, on the state the save finds.  The
    save hook runs on the document in hand; the one modified path,
    [status], is then set on the stored document, whatever has been
    written to it since it was loaded. *)
Definition cancelMyLeaveRequest_save (st : State) (id : ObjectId)
    (leave : Leave.doc) : State * LeaveResponse :=
  match Leave.preSave leave with
  | Some e =>
      (console_error st "Cancel leave error:" e,
       fail 500 "Server error while cancelling leave request")
  | None =>
      match leaves st !! id with
      | None =>
          (console_error st "Cancel leave error:" DocumentNotFound,
           fail 500 "Server error while cancelling leave request")
      | Some stored =>
          (set_leaves st
             (<[id := Leave.setStatus Leave.Cancelled stored]> (leaves st)),
           ok 200 "Leave request cancelled successfully" (id, leave))
      end
  end.

(** [markEntry] up to [await EntryExit.create(...)]: the answer of an early
    return, or the student the entry is for. *)
Definition markEntry_check (st : State) (user : ReqUser)
    (body : EntryExitBody) : EntryExitResponse + ObjectId :=
  match targetStudent st user body with
  | inl r => inl r
  | inr targetStudentId =>
      let lastLog := EntryExit.findLatest (entryExits st) targetStudentId in
      if match lastLog with
         | Some (_, l) => bool_decide (EntryExit.status l = EntryExit.IN)
         | None => false
         end
      then inl (fail 400 "Student is already marked as IN")
      else inr targetStudentId
  end.

(** The check of [markEntry] passes for a student: the latest log, if
    any, is not IN. *)
Definition markEntry_check_passes (st : State) (sid : ObjectId) : Prop :=
  ∀ id l, EntryExit.findLatest (entryExits st) sid = Some (id, l) →
          EntryExit.status l ≠ EntryExit.IN.

(** [await EntryExit.create(...)] and the answer, on the state the insert
    finds. *)
Definition markEntry_create (env : Env) (st : State)
    (targetStudentId : ObjectId) (method : string)
  : State * EntryExitResponse :=
  if negb (bool_decide (method ∈ EntryExit.methodEnum)) then
    (st, failWith 500 (ErrorMessage ValidationFailed))
  else
    let id := fresh (dom (entryExits st)) in
    let entryLog := EntryExit.mk targetStudentId (Some (now env)) None
                                 EntryExit.IN method (now env) in
    (set_entryExits st (<[id := entryLog]> (entryExits st)),
     ok 201 "Entry marked successfully" (id, entryLog)).

(** [markExit] up to [await lastLog.save()]: the answer of an early return,
    or the log loaded. *)
Definition markExit_check (st : State) (user : ReqUser)
    (body : EntryExitBody) : EntryExitResponse + ObjectId * EntryExit.doc :=
  match targetStudent st user body with
  | inl r => inl r
  | inr targetStudentId =>
      match EntryExit.findLatest (entryExits st) targetStudentId with
      | None => inl (fail 400 "Student is not currently marked as IN")
      | Some (id, lastLog) =>
          if bool_decide (EntryExit.status lastLog = EntryExit.OUT) then
            inl (fail 400 "Student is not currently marked as IN")
          else inr (id, lastLog)
      end
  end.

(** [await lastLog.save()] and the answer, on the state the save finds.
    The document in hand is validated and its modified paths are set on
    the stored log: [outTime], [status], and [method] when it differs from
    the one loaded. *)
Definition markExit_save (env : Env) (st : State) (id : ObjectId)
    (lastLog : EntryExit.doc) (method : string)
  : State * EntryExitResponse :=
  if negb (bool_decide (method ∈ EntryExit.methodEnum)) then
    (st, failWith 500 (ErrorMessage ValidationFailed))
  else
    match entryExits st !! id with
    | None => (st, failWith 500 (ErrorMessage DocumentNotFound))
    | Some stored =>
        let stored' :=
          EntryExit.mk (EntryExit.studentId stored) (EntryExit.inTime stored)
                       (Some (now env)) EntryExit.OUT
                       (if bool_decide (method = EntryExit.method lastLog)
                        then EntryExit.method stored else method)
                       (EntryExit.createdAt stored) in
        (set_entryExits st (<[id := stored']> (entryExits st)),
         ok 200 "Exit marked successfully" (id, stored'))
    end.

(** A handler suspended at the [await] of its write, with what it holds. *)
Inductive Flight : Type :=
  | CancelSave (id : ObjectId) (leave : Leave.doc)
  | EntryCreate (targetStudentId : ObjectId) (method : string)
  | ExitSave (id : ObjectId) (lastLog : EntryExit.doc) (method : string).

Record Running : Type := mkRunning {
  store : State;
  flights : list Flight;
}.

(** One step of the server: a handler that is not overlapped runs as a
    whole, or one of the three handlers above runs one of its halves.
    [env] is the environment at the time of the step. *)
Inductive runStep (env : Env) : Running → Running → Prop :=
  | run_whole st fl call :
      runStep env (mkRunning st fl) (mkRunning (serve env st call) fl)
  | run_cancel_read st fl user id leave :
      cancelMyLeaveRequest_read st user id = inr leave →
      runStep env (mkRunning st fl) (mkRunning st (CancelSave id leave :: fl))
  | run_cancel_save st fl1 fl2 id leave :
      runStep env (mkRunning st (fl1 ++ CancelSave id leave :: fl2))
        (mkRunning (cancelMyLeaveRequest_save st id leave).1 (fl1 ++ fl2))
  | run_entry_check st fl user body sid :
      markEntry_check st user body = inr sid →
      runStep env (mkRunning st fl)
        (mkRunning st (EntryCreate sid (default "Manual" (ee_method body))
                       :: fl))
  | run_entry_create st fl1 fl2 sid method :
      runStep env (mkRunning st (fl1 ++ EntryCreate sid method :: fl2))
        (mkRunning (markEntry_create env st sid method).1 (fl1 ++ fl2))
  | run_exit_check st fl user body id lastLog :
      markExit_check st user body = inr (id, lastLog) →
      runStep env (mkRunning st fl)
        (mkRunning st (ExitSave id lastLog (default "Manual" (ee_method body))
                       :: fl))
  | run_exit_save st fl1 fl2 id lastLog method :
      runStep env (mkRunning st (fl1 ++ ExitSave id lastLog method :: fl2))
        (mkRunning (markExit_save env st id lastLog method).1 (fl1 ++ fl2)).

(** The states reached from [init], with no handler suspended at first. *)
Inductive runs (init : State) : Running → Prop :=
  | runs_init : runs init (mkRunning init [])
  | runs_step env r r' : runs init r → runStep env r r' → runs init r'.

(** ** Invariants of the stored requests and fees *)

Definition submittedEntry (e : Leave.HistoryEntry) : Prop :=
  Leave.h_status e = Leave.PendingParent ∧ Leave.h_role e = student.

Definition decisionEntry (r : Role) (s : Leave.Status)
    (e : Leave.HistoryEntry) : Prop :=
  Leave.h_status e = s ∧ Leave.h_role e = r ∧ is_Some (Leave.h_updatedBy e).

(** What the history and the decision fields of a request are at status
    [s], Cancelled apart. *)
Definition leaveShape (s : Leave.Status) (l : Leave.doc) : Prop :=
  match s, Leave.statusHistory l with
  | Leave.PendingParent, [s0] =>
      submittedEntry s0
      ∧ Leave.parentApprovalStatus l = Some Leave.PPending
      ∧ Leave.parentApprovedAt l = None
      ∧ Leave.approvedBy l = None ∧ Leave.approvedAt l = None
  | Leave.ApprovedByParent, [s0; p] =>
      submittedEntry s0 ∧ decisionEntry parent Leave.ApprovedByParent p
      ∧ Leave.parentApprovalStatus l = Some Leave.PApproved
      ∧ Leave.parentApprovedAt l = Some (Leave.h_timestamp p)
      ∧ Leave.approvedBy l = None ∧ Leave.approvedAt l = None
  | Leave.RejectedByParent, [s0; p] =>
      submittedEntry s0 ∧ decisionEntry parent Leave.RejectedByParent p
      ∧ Leave.parentApprovalStatus l = Some Leave.PRejected
      ∧ Leave.parentApprovedAt l = Some (Leave.h_timestamp p)
      ∧ Leave.approvedBy l = None ∧ Leave.approvedAt l = None
  | Leave.Approved, [s0; p; w] =>
      submittedEntry s0 ∧ decisionEntry parent Leave.ApprovedByParent p
      ∧ decisionEntry warden Leave.Approved w
      ∧ Leave.parentApprovalStatus l = Some Leave.PApproved
      ∧ Leave.approvedBy l = Leave.h_updatedBy w
      ∧ Leave.approvedAt l = Some (Leave.h_timestamp w)
  | Leave.Rejected, [s0; p; w] =>
      submittedEntry s0 ∧ decisionEntry parent Leave.ApprovedByParent p
      ∧ decisionEntry warden Leave.Rejected w
      ∧ Leave.parentApprovalStatus l = Some Leave.PApproved
      ∧ Leave.approvedBy l = Leave.h_updatedBy w
      ∧ Leave.approvedAt l = None
  | _, _ => False
  end.

(** The history and the decision fields of a request agree with its
    status, or, when it is Cancelled, with the status it had when the
    cancellation was saved. *)
Definition leaveCoherent (l : Leave.doc) : Prop :=
  Leave.outDate l < Leave.inDate l
  ∧ ∃ s, (Leave.status l = s ∨ Leave.status l = Leave.Cancelled)
         ∧ leaveShape s l.

(** The transitions made by the writes that test the status they
    replace. *)
Definition leaveTransition (a b : Leave.Status) : Prop :=
  match a, b with
  | Leave.PendingParent, Leave.ApprovedByParent
  | Leave.PendingParent, Leave.RejectedByParent
  | Leave.ApprovedByParent, Leave.Approved
  | Leave.ApprovedByParent, Leave.Rejected => True
  | _, _ => False
  end.

(** What the schema of a fee guarantees of a stored document: the amount
    is not negative, the term is trimmed and not empty, a receipt number is
    trimmed. *)
Definition feeValid (d : Fee.doc) : Prop :=
  0 ≤ Fee.amount d
  ∧ Fee.term d ≠ "" ∧ trim (Fee.term d) = Fee.term d
  ∧ ∀ r, Fee.receiptNumber d = Some r → trim r = r.

(** No two fees hold the same receipt number. *)
Definition receiptsUnique (c : gmap nat Fee.doc) : Prop :=
  ∀ i j d d' r,
    c !! i = Some d → c !! j = Some d' →
    Fee.receiptNumber d = Some r → Fee.receiptNumber d' = Some r → i = j.

(** A log with status IN is strictly the newest log of its student. *)
Definition openLogIsNewest (c : gmap nat EntryExit.doc) : Prop :=
  ∀ i j l l',
    c !! i = Some l → c !! j = Some l' → i ≠ j →
    EntryExit.studentId l = EntryExit.studentId l' →
    EntryExit.status l = EntryExit.IN →
    EntryExit.createdAt l' < EntryExit.createdAt l.

(** What a step can do to the request stored under one id: leave it as it
    is, create it, apply a decision whose write tests the status, or set
    the status to Cancelled, which the save of a cancellation does
    whatever the status is by then. *)
Inductive leaveWrite : option Leave.doc → Leave.doc → Prop :=
  | leaveWrite_keep l : leaveWrite (Some l) l
  | leaveWrite_create sid reason type o i outT inT t :
      o < i →
      leaveWrite None
        (Leave.mk sid reason type Leave.PendingParent o i outT inT
                  None None None (Some Leave.PPending) None None None
                  [Leave.mkEntry Leave.PendingParent None student None t] t)
  | leaveWrite_parent l (approve : bool) uid t rej :
      Leave.status l = Leave.PendingParent →
      leaveWrite (Some l)
        (Leave.applyParentDecision
           (if approve then Leave.ApprovedByParent else Leave.RejectedByParent)
           (if approve then Leave.PApproved else Leave.PRejected)
           uid t rej
           (Leave.mkEntry
              (if approve then Leave.ApprovedByParent
               else Leave.RejectedByParent)
              (Some uid) parent rej t)
           l)
  | leaveWrite_warden l (approve : bool) uid t rej :
      Leave.status l = Leave.ApprovedByParent →
      leaveWrite (Some l)
        (Leave.applyWardenDecision
           (if approve then Leave.Approved else Leave.Rejected)
           uid (if approve then Some t else None) rej
           (Leave.mkEntry (if approve then Leave.Approved else Leave.Rejected)
                          (Some uid) warden rej t)
           l)
  | leaveWrite_cancel l :
      leaveWrite (Some l) (Leave.setStatus Leave.Cancelled l).

(** ** Complaints: controllers/complaint.controller.js *)

Module Complaint.
(** enum of [status] in the Complaint schema *)
Inductive Status : Type := Pending | InProgress | Resolved | Rejected.

Global Instance Status_eq_dec : EqDecision Status.
Proof. solve_decision. Defined.

Record doc : Type := mk {
  studentId : ObjectId;
  title : string;
  description : string;
  category : string;
  status : Status;
  priority : string;
  assignedTo : option ObjectId;
  resolvedAt : option Z;
  resolution : option string;
  createdAt : Z;
}.

Definition categoryEnum : list string :=
  ["Maintenance"; "Electrical"; "Carpentry"; "Cleaning"; "Food / Mess";
   "IT Support"; "Plumbing"; "Other"].

Definition priorityEnum : list string := ["Low"; "Medium"; "High"; "Urgent"].

(** Validation of a new document: [title] and [description] are required
    after trimming, [category] and [priority] are in their enums. *)
Definition valid (d : doc) : bool :=
  negb (bool_decide (title d = ""))
  && negb (bool_decide (description d = ""))
  && bool_decide (category d ∈ categoryEnum)
  && bool_decide (priority d ∈ priorityEnum).

Definition newerFirst (a b : ObjectId * doc) : Prop :=
  createdAt b.2 ≤ createdAt a.2.

Global Instance newerFirst_dec : RelDecision newerFirst.
Proof. intros a b. unfold newerFirst. apply _. Defined.
End Complaint.

(** The collections of the hostel together with the complaints. *)
Record Store : Type := mkStore {
  base : State;
  complaints : gmap nat Complaint.doc;
}.

Definition logged (sd : Store) (label : string) (e : Exn) : Store :=
  mkStore (console_error (base sd) label e) (complaints sd).

Definition set_complaints (sd : Store) (c : gmap nat Complaint.doc) : Store :=
  mkStore (base sd) c.

Record CreateComplaintBody : Type := mkCreateComplaintBody {
  cc_title : option string;
  cc_description : option string;
  cc_category : option string;
  cc_priority : option string;
}.

Record ComplaintStatusBody : Type := mkComplaintStatusBody {
  cs_status : option string;
  cs_resolution : option string;
}.

(** One complaint of an answer: the fields copied from the document, the
    [student] object with its name and room where the handler builds it
    (a name that is undefined is [None]), and the name of the assigned
    warden, if any. *)
Record ComplaintView : Type := mkComplaintView {
  cv_id : ObjectId;
  cv_complaint : Complaint.doc;
  cv_student : option (option string * option string);
  cv_assignedTo : option string;
}.

(** [complaint.studentId.userId.name] and [complaint.studentId.room] after
    [await complaint.populate('studentId', ...)] and
    [await complaint.populate('studentId.userId', 'name')] on the document;
    [None] is the TypeError of reading through a reference that resolved
    to null. *)
Definition complaintStudent (st : State) (c : Complaint.doc)
  : option (option string * option string) :=
  match students st !! Complaint.studentId c with
  | Some s =>
      match users st !! Student.userId s with
      | Some u => Some (Some (User.name u), Student.room s)
      | None => None
      end
  | None => None
  end.

(** The same reads on a document loaded by a query that populates
    'studentId' and, chained, 'studentId.userId': the student document or
    null replaces the reference, the user inside it stays an ObjectId,
    whose [name] is undefined. *)
Definition complaintStudentOfQuery (st : State) (c : Complaint.doc)
  : option (option string * option string) :=
  match students st !! Complaint.studentId c with
  | Some s => Some (None, Student.room s)
  | None => None
  end.

(** [complaint.assignedTo ? complaint.assignedTo.name : null] *)
Definition assignedToName (st : State) (c : Complaint.doc) : option string :=
  match Complaint.assignedTo c with
  | Some w => User.name <$> users st !! w
  | None => None
  end.

Definition createComplaint (env : Env) (sd : Store) (user : ReqUser)
    (body : CreateComplaintBody) : Store * Response ComplaintView :=
  match cc_title body, cc_description body, cc_category body with
  | Some title, Some description, Some category =>
      if negb (truthy (Some title)) || negb (truthy (Some description))
         || negb (truthy (Some category)) then
        (sd, fail 400 "Please provide title, description, and category")
      else
        match Student.findOneByUserId (students (base sd)) (_id user) with
        | None => (sd, fail 404 "Student profile not found")
        | Some (sid, _) =>
            (* Complaint.create({ ..., title: title.trim(), ... }); the
               schema trims title and description once more *)
            let complaint :=
              Complaint.mk sid (trim (trim title)) (trim (trim description))
                           category Complaint.Pending
                           (default "Medium" (cc_priority body))
                           None None None (now env) in
            if negb (Complaint.valid complaint) then
              (logged sd "Create complaint error:" ValidationFailed,
               fail 500 "Server error while creating complaint")
            else
              let id := fresh (dom (complaints sd)) in
              let sd' := set_complaints sd (<[id := complaint]> (complaints sd)) in
              match complaintStudent (base sd) complaint with
              | None =>
                  (logged sd' "Create complaint error:" NullDereference,
                   fail 500 "Server error while creating complaint")
              | Some named =>
                  (sd', ok 201 "Complaint submitted successfully"
                           (mkComplaintView id complaint (Some named) None))
              end
        end
  | _, _, _ => (sd, fail 400 "Please provide title, description, and category")
  end.

(** The [complaints.map] callback of [getAllComplaints]. *)
Definition formatComplaintForWarden (st : State)
    (p : ObjectId * Complaint.doc) : option ComplaintView :=
  match complaintStudentOfQuery st p.2 with
  | Some named =>
      Some (mkComplaintView p.1 p.2 (Some named) (assignedToName st p.2))
  | None => None
  end.

Definition getAllComplaints (sd : Store)
  : Store * Response (list ComplaintView) :=
  let complaints :=
    merge_sort Complaint.newerFirst (map_to_list (complaints sd)) in
  match mapM (formatComplaintForWarden (base sd)) complaints with
  | Some formattedComplaints => (sd, okData formattedComplaints)
  | None =>
      (logged sd "Get complaints error:" NullDereference,
       fail 500 "Server error while fetching complaints")
  end.

Definition getMyComplaints (sd : Store) (user : ReqUser)
  : Store * Response (list ComplaintView) :=
  match Student.findOneByUserId (students (base sd)) (_id user) with
  | None => (sd, fail 404 "Student profile not found")
  | Some (sid, _) =>
      let complaints :=
        merge_sort Complaint.newerFirst
          (filter (λ p, Complaint.studentId p.2 = sid)
                  (map_to_list (complaints sd))) in
      (sd, okData ((λ p, mkComplaintView p.1 p.2 None
                           (assignedToName (base sd) p.2))
                     <$> complaints))
  end.

(** [['Resolved', 'Rejected', 'In Progress'].includes(status)], with the
    status and the [status.toLowerCase()] of the answer. *)
Definition decisionOfString (s : string)
  : option (Complaint.Status * string) :=
  if bool_decide (s = "Resolved") then Some (Complaint.Resolved, "resolved")
  else if bool_decide (s = "Rejected") then
    Some (Complaint.Rejected, "rejected")
  else if bool_decide (s = "In Progress") then
    Some (Complaint.InProgress, "in progress")
  else None.

(** The update [findByIdAndUpdate(id, updateData)] applies: [status] and
    [assignedTo] always, [resolvedAt] and [resolution] for Resolved only,
    a [resolution] that is undefined being left out of the update. *)
Definition applyComplaintUpdate (status : Complaint.Status) (by_ : ObjectId)
    (at_ : Z) (resolution : option string) (c : Complaint.doc)
  : Complaint.doc :=
  Complaint.mk (Complaint.studentId c) (Complaint.title c)
    (Complaint.description c) (Complaint.category c) status
    (Complaint.priority c) (Some by_)
    (if bool_decide (status = Complaint.Resolved) then Some at_
     else Complaint.resolvedAt c)
    (if bool_decide (status = Complaint.Resolved) then
       match resolution with
       | Some r => Some (trim r)
       | None => Complaint.resolution c
       end
     else Complaint.resolution c)
    (Complaint.createdAt c).

Definition updateComplaintStatus (env : Env) (sd : Store) (user : ReqUser)
    (id : ObjectId) (body : ComplaintStatusBody)
  : Store * Response ComplaintView :=
  match cs_status body ≫= decisionOfString with
  | None =>
      (sd, fail 400
             "Invalid status. Must be Resolved, Rejected, or In Progress")
  | Some (status, lower) =>
      match complaints sd !! id with
      | None => (sd, fail 404 "Complaint not found")
      | Some old =>
          let complaint :=
            applyComplaintUpdate status (_id user) (now env)
                                 (cs_resolution body) old in
          let sd' := set_complaints sd (<[id := complaint]> (complaints sd)) in
          (* complaint.studentId.userId.name and complaint.assignedTo.name
             on the document the query returns *)
          match complaintStudentOfQuery (base sd) complaint,
                users (base sd) !! _id user with
          | Some named, Some w =>
              (sd', ok 200 ("Complaint " ++ lower ++ " successfully")%string
                       (mkComplaintView id complaint (Some named)
                                        (Some (User.name w))))
          | _, _ =>
              (logged sd' "Update complaint status error:" NullDereference,
               fail 500 "Server error while updating complaint")
          end
      end
  end.

(** Every modelled handler, the complaint handlers included, as one step
    on the store. *)
Inductive DeskCall : Type :=
  | Hostel (call : Call)
  | CreateComplaint (user : ReqUser) (body : CreateComplaintBody)
  | GetAllComplaints
  | GetMyComplaints (user : ReqUser)
  | UpdateComplaintStatus (user : ReqUser) (id : ObjectId)
                          (body : ComplaintStatusBody).

Definition serveDesk (env : Env) (sd : Store) (call : DeskCall) : Store :=
  match call with
  | Hostel c => mkStore (serve env (base sd) c) (complaints sd)
  | CreateComplaint user body => (createComplaint env sd user body).1
  | GetAllComplaints => (getAllComplaints sd).1
  | GetMyComplaints user => (getMyComplaints sd user).1
  | UpdateComplaintStatus user id body =>
      (updateComplaintStatus env sd user id body).1
  end.

Inductive servedDesk (init : Store) : Store → Prop :=
  | servedDesk_init : servedDesk init init
  | servedDesk_step env sd call :
      servedDesk init sd → servedDesk init (serveDesk env sd call).

(** What the status of a complaint says about the rest of the document. *)
Definition complaintCoherent (c : Complaint.doc) : Prop :=
  Complaint.valid c = true
  ∧ trim (Complaint.title c) = Complaint.title c
  ∧ match Complaint.status c with
    | Complaint.Pending =>
        Complaint.assignedTo c = None ∧ Complaint.resolvedAt c = None
        ∧ Complaint.resolution c = None
    | Complaint.Resolved =>
        is_Some (Complaint.assignedTo c) ∧ is_Some (Complaint.resolvedAt c)
    | Complaint.InProgress | Complaint.Rejected =>
        is_Some (Complaint.assignedTo c)
    end.

(** * Properties *)

(** ** Facts about the JavaScript helpers and the queries *)

Lemma spaceLength_app (p q : string) (k : nat) :
  spaceLength p = S k → spaceLength (p +:+ q) = S k.
Proof.
  destruct p as [|c [|d [|e p]]]; simpl; try done;
    destruct (isSpace c); try done; destruct (isSpace2 c d); done.
Qed.

Lemma allSpaceFrom_app (p q : string) (k : nat) :
  allSpaceFrom k p = true → allSpaceFrom 0 q = true →
  allSpaceFrom k (p +:+ q) = true.
Proof.
  revert k. induction p as [|c p IH]; intros k Hp Hq.
  - simpl in Hp. apply bool_decide_eq_true in Hp as ->. done.
  - destruct k as [|k]; [|by apply IH].
    change ((String c p) +:+ q) with (String c (p +:+ q)).
    cbn [allSpaceFrom] in *.
    destruct (spaceLength (String c p)) as [|n] eqn:Hn; [done|].
    change (String c (p +:+ q)) with ((String c p) +:+ q).
    rewrite (spaceLength_app _ q n Hn). by apply IH.
Qed.

Lemma trimEnd_suffix (s : string) :
  ∃ q, s = trimEnd s +:+ q ∧ allSpaceFrom 0 q = true.
Proof.
  induction s as [|c r (q & Hq & Hall)]; [by exists ""|].
  cbn [trimEnd]. destruct (allSpaceFrom 0 (String c r)) eqn:Hs.
  - by exists (String c r).
  - exists q. split; [|done].
    change (String c r = String c (trimEnd r +:+ q)). by f_equal.
Qed.

Lemma trimEnd_idemp (s : string) : trimEnd (trimEnd s) = trimEnd s.
Proof.
  induction s as [|c r IH]; [done|].
  cbn [trimEnd]. destruct (allSpaceFrom 0 (String c r)) eqn:Hs; [done|].
  cbn [trimEnd]. rewrite IH.
  destruct (allSpaceFrom 0 (String c (trimEnd r))) eqn:Hs'; [|done].
  destruct (trimEnd_suffix r) as (q & Hq & Hall).
  pose proof (allSpaceFrom_app _ q 0 Hs' Hall) as Happ.
  change (allSpaceFrom 0 (String c (trimEnd r +:+ q)) = true) in Happ.
  rewrite <- Hq in Happ. congruence.
Qed.

Lemma spaceLength_trimStartFrom (s : string) (k : nat) :
  spaceLength (trimStartFrom k s) = 0%nat.
Proof.
  revert k. induction s as [|c r IH]; intros k; [done|].
  cbn [trimStartFrom]. destruct k as [|k]; [|apply IH].
  destruct (spaceLength (String c r)) as [|n] eqn:Hn; [done|apply IH].
Qed.

Lemma trimStart_fixed (s : string) :
  spaceLength s = 0%nat → trimStart s = s.
Proof.
  intros Hs. destruct s as [|c r]; [done|].
  unfold trimStart. cbn [trimStartFrom]. by rewrite Hs.
Qed.

Lemma trim_idemp (s : string) : trim (trim s) = trim s.
Proof.
  unfold trim. set (t := trimStart s).
  assert (spaceLength (trimEnd t) = 0%nat) as Hhead.
  { destruct (trimEnd_suffix t) as (q & Hq & _).
    destruct (spaceLength (trimEnd t)) as [|n] eqn:Hn; [done|].
    pose proof (spaceLength_app _ q n Hn) as Happ. rewrite <- Hq in Happ.
    unfold t, trimStart in Happ.
    by rewrite spaceLength_trimStartFrom in Happ. }
  rewrite (trimStart_fixed _ Hhead). apply trimEnd_idemp.
Qed.

(** A document found by a query is a document of the collection. *)
Lemma head_filter_map_to_list {A} (P : nat * A → Prop)
    `{!∀ x, Decision (P x)} (c : gmap nat A) (id : nat) (d : A) :
  head (filter P (map_to_list c)) = Some (id, d) → c !! id = Some d ∧ P (id, d).
Proof.
  intros Hhd. apply head_Some_elem_of in Hhd.
  apply list_elem_of_filter in Hhd as [HP Hin].
  by apply elem_of_map_to_list in Hin.
Qed.

Lemma Student_findOneByUserId_lookup c uid sid s :
  Student.findOneByUserId c uid = Some (sid, s) →
  c !! sid = Some s ∧ Student.userId s = uid.
Proof. apply head_filter_map_to_list. Qed.

(** ** Leave workflow *)

(** closes a goal "unchanged, or one entry appended" in its second case *)
Ltac appended_one :=
  right; do 2 eexists; split_and!; reflexivity.

Section LeaveWorkflow.
Context (env : Env) (st : State) (user : ReqUser) (id : ObjectId).

(** Submit stores one request whose history is the single submission
    entry. *)
Lemma createLeaveRequest_history body lid d st' :
  createLeaveRequest env st user body
    = (st', ok 201 "Leave request submitted successfully" (lid, d)) →
  leaves st !! lid = None ∧ leaves st' = <[lid := d]> (leaves st)
  ∧ Leave.statusHistory d
    = [Leave.mkEntry Leave.PendingParent None student None (now env)].
Proof.
  unfold createLeaveRequest, Leave.create, ok, fail.
  intros H. repeat case_match; simplify_eq/=.
  split_and!; [|done..].
  apply not_elem_of_dom, is_fresh.
Qed.

(** A parent's decision that changes the request appends exactly one
    entry to its history and keeps the earlier entries as they were. *)
Lemma parentApproveOrReject_history body st' r l :
  parentApproveOrReject env st user id body = (st', r) →
  leaves st !! id = Some l →
  leaves st' = leaves st
  ∨ ∃ l' e, leaves st' = <[id := l']> (leaves st)
            ∧ Leave.statusHistory l' = Leave.statusHistory l ++ [e]
            ∧ Leave.h_role e = parent.
Proof.
  unfold parentApproveOrReject, Leave.findOneAndUpdate.
  intros H Hl. rewrite Hl in H.
  repeat case_match; simplify_eq/=; eauto; appended_one.
Qed.

(** The same for the warden's decision. *)
Lemma updateLeaveStatus_history body st' r l :
  updateLeaveStatus env st user id body = (st', r) →
  leaves st !! id = Some l →
  leaves st' = leaves st
  ∨ ∃ l' e, leaves st' = <[id := l']> (leaves st)
            ∧ Leave.statusHistory l' = Leave.statusHistory l ++ [e]
            ∧ Leave.h_role e = warden.
Proof.
  unfold updateLeaveStatus, Leave.findOneAndUpdate.
  intros H Hl. rewrite Hl in H.
  repeat case_match; simplify_eq/=; eauto; appended_one.
Qed.

(** A cancellation changes the status of the request and nothing else:
    the history keeps its length. *)
Lemma cancelMyLeaveRequest_history st' r l :
  cancelMyLeaveRequest st user id = (st', r) →
  leaves st !! id = Some l →
  httpStatus r = 200%nat →
  leaves st' = <[id := Leave.setStatus Leave.Cancelled l]> (leaves st)
  ∧ Leave.statusHistory (Leave.setStatus Leave.Cancelled l)
    = Leave.statusHistory l.
Proof.
  unfold cancelMyLeaveRequest, Leave.save.
  intros H Hl Hr. rewrite Hl in H.
  repeat case_match; simplify_eq/=; done.
Qed.
End LeaveWorkflow.

(** C1 (the handler departs from the specification at Cancel).  The
    specification has every successful transition, Cancel included, append
    exactly one entry to [statusHistory].  Here the student Asha cancels
    her request 1, which is waiting for the parent and has the one
    submission entry: the handler answers 200, the stored status becomes
    Cancelled, and the history is the same one-entry list as before. *)
Theorem cancelMyLeaveRequest_appends_no_history :
  let r := cancelMyLeaveRequest Sample.hostel Sample.asha 1 in
  leaves Sample.hostel !! 1%nat = Some Sample.leave1
  ∧ httpStatus r.2 = 200%nat ∧ success r.2 = true
  ∧ ∃ l', leaves r.1 !! 1%nat = Some l'
          ∧ Leave.status l' = Leave.Cancelled
          ∧ Leave.statusHistory l' = Leave.statusHistory Sample.leave1
          ∧ length (Leave.statusHistory l') = 1%nat.
Proof.
  split_and!; [reflexivity..|].
  exists (Leave.setStatus Leave.Cancelled Sample.leave1).
  split_and!; reflexivity.
Qed.

(** C2.  WardenDecide on a request whose status is not ApprovedByParent
    returns the state it received, whatever the body; with a decision in
    {Approved, Rejected} the answer is 409 (Conflict) when the request
    exists and 404 (NotFound) when it does not. *)
Theorem updateLeaveStatus_not_parent_approved
    (env : Env) (st : State) (user : ReqUser) (id : ObjectId)
    (body : DecisionBody) :
  (∀ l, leaves st !! id = Some l →
        Leave.status l ≠ Leave.ApprovedByParent) →
  (updateLeaveStatus env st user id body).1 = st
  ∧ (d_status body ∈ ["Approved"; "Rejected"] →
     (updateLeaveStatus env st user id body).2
     = match leaves st !! id with
       | Some _ =>
           fail 409 "This outing request was already processed by warden"
       | None => fail 404 "Leave request not found"
       end).
Proof.
  intros Hst. unfold updateLeaveStatus, Leave.findOneAndUpdate.
  destruct (leaves st !! id) as [l|] eqn:Hl.
  - rewrite (bool_decide_eq_false_2 _ (Hst l eq_refl)).
    split; [by case_bool_decide|].
    intros Hdec. by rewrite (bool_decide_eq_true_2 _ Hdec).
  - split; [by case_bool_decide|].
    intros Hdec. by rewrite (bool_decide_eq_true_2 _ Hdec).
Qed.

Lemma updateLeaveStatus_not_parent_approved_witness :
  updateLeaveStatus Sample.env Sample.hostel Sample.head_warden 1
                    (mkDecisionBody "Approved" None)
  = (Sample.hostel,
     fail 409 "This outing request was already processed by warden")
  ∧ updateLeaveStatus Sample.env Sample.hostel Sample.head_warden 7
                      (mkDecisionBody "Rejected" (Some "late"))
    = (Sample.hostel, fail 404 "Leave request not found").
Proof.
  split.
  - destruct (updateLeaveStatus_not_parent_approved Sample.env Sample.hostel
                Sample.head_warden 1 (mkDecisionBody "Approved" None))
      as [Hstate Hanswer].
    + intros l Hl. vm_compute in Hl. injection Hl as <-. discriminate.
    + apply injective_projections; [exact Hstate|].
      apply Hanswer. apply (bool_decide_unpack _). vm_compute. exact I.
  - destruct (updateLeaveStatus_not_parent_approved Sample.env Sample.hostel
                Sample.head_warden 7
                (mkDecisionBody "Rejected" (Some "late")))
      as [Hstate Hanswer].
    + intros l Hl. vm_compute in Hl. discriminate.
    + apply injective_projections; [exact Hstate|].
      apply Hanswer. apply (bool_decide_unpack _). vm_compute. exact I.
Defined.

(** C3, counterexample.  Request 3 is a request of student 9, the student
    the parent Mala is linked to, and its status has moved past
    PendingParent; the profile of student 9 has been deleted.  The
    specification gives Conflict; the handler answers 403. *)
Lemma parentApproveOrReject_conflict_counterexample :
  ∃ par l,
    Parent.findOneByUserId (parents Sample.hostel) (_id Sample.mala)
      = Some (2%nat, par)
    ∧ leaves Sample.hostel !! 3%nat = Some l
    ∧ Leave.studentId l = Parent.studentId par
    ∧ Leave.status l = Leave.RejectedByParent
    ∧ httpStatus (parentApproveOrReject Sample.env Sample.hostel Sample.mala 3
                    (mkDecisionBody "Approved" None)).2 ≠ 409%nat.
Proof.
  exists (Parent.mk 21 9), Sample.leave3.
  split_and!; [reflexivity..|]. vm_compute. discriminate.
Qed.

(** C3, amended.  ParentDecide with a decision in {Approved, Rejected} by a
    caller with a parent profile changes the state only when the request
    matches {id, subject = the parent's linked student, status =
    PendingParent}, and then it sets the new status and appends one history
    entry.  When the match fails the state is returned as received and the
    answer is 404 if the request does not exist, 403 if it belongs to
    another student than the parent's or if the profile of its student no
    longer exists, and 409 if it belongs to the parent's student, that
    profile exists, and the status is no longer PendingParent. *)
Theorem parentApproveOrReject_conditional_update
    (env : Env) (st : State) (user : ReqUser) (id : ObjectId)
    (body : DecisionBody) (pid : ObjectId) (par : Parent.doc) :
  d_status body ∈ ["Approved"; "Rejected"] →
  Parent.findOneByUserId (parents st) (_id user) = Some (pid, par) →
  let r := parentApproveOrReject env st user id body in
  (leaves st !! id = None →
     r = (st, fail 404 "Leave request not found"))
  ∧ (∀ l, leaves st !! id = Some l →
          Leave.studentId l ≠ Parent.studentId par →
          r = (st, fail 403 "Not authorized to approve this leave request"))
  ∧ (∀ l, leaves st !! id = Some l →
          Leave.studentId l = Parent.studentId par →
          Leave.status l ≠ Leave.PendingParent →
          students st !! Leave.studentId l = None →
          r = (st, fail 403 "Not authorized to approve this leave request"))
  ∧ (∀ l, leaves st !! id = Some l →
          Leave.studentId l = Parent.studentId par →
          Leave.status l ≠ Leave.PendingParent →
          is_Some (students st !! Leave.studentId l) →
          r = (st, fail 409
                     "This outing request was already processed by parent"))
  ∧ (∀ l, leaves st !! id = Some l →
          Leave.studentId l = Parent.studentId par →
          Leave.status l = Leave.PendingParent →
          ∃ l' e, r.1 = set_leaves st (<[id := l']> (leaves st))
                  ∧ httpStatus r.2 = 200%nat
                  ∧ data r.2 = Some (id, l')
                  ∧ Leave.status l'
                    = (if bool_decide (d_status body = "Approved")
                       then Leave.ApprovedByParent
                       else Leave.RejectedByParent)
                  ∧ Leave.statusHistory l' = Leave.statusHistory l ++ [e]
                  ∧ Leave.h_status e = Leave.status l'
                  ∧ Leave.h_role e = parent).
Proof.
  intros Hdec Hpar r. subst r.
  unfold parentApproveOrReject, Leave.findOneAndUpdate.
  rewrite (bool_decide_eq_true_2 _ Hdec), Hpar. simpl.
  split_and!.
  - by intros ->.
  - intros l -> Hne. rewrite (bool_decide_eq_false_2 _ Hne). simpl.
    by destruct (students st !! Leave.studentId l).
  - intros l -> Hsid Hs Hnone.
    rewrite (bool_decide_eq_true_2 _ Hsid), (bool_decide_eq_false_2 _ Hs).
    simpl. by rewrite Hnone.
  - intros l -> Hsid Hs [s Hsome].
    rewrite (bool_decide_eq_true_2 _ Hsid), (bool_decide_eq_false_2 _ Hs).
    simpl. by rewrite Hsome.
  - intros l -> Hsid Hs.
    rewrite (bool_decide_eq_true_2 _ Hsid), (bool_decide_eq_true_2 _ Hs).
    simpl. do 2 eexists. split_and!; reflexivity.
Qed.

Lemma parentApproveOrReject_conditional_update_witness :
  let r := parentApproveOrReject Sample.env Sample.hostel Sample.ravi 2
             (mkDecisionBody "Rejected" (Some "exam week")) in
  r = (Sample.hostel,
       fail 409 "This outing request was already processed by parent").
Proof.
  apply (parentApproveOrReject_conditional_update Sample.env Sample.hostel
           Sample.ravi 2 (mkDecisionBody "Rejected" (Some "exam week"))
           1%nat (Parent.mk 20 1)) with (l := Sample.leave2).
  - apply (bool_decide_unpack _). vm_compute. exact I.
  - reflexivity.
  - reflexivity.
  - reflexivity.
  - discriminate.
  - eexists. reflexivity.
Defined.

(** C9, counterexample.  Asha submits a request whose scheduled-in
    timestamp equals its scheduled-out timestamp; the specification has it
    accepted, the handler rejects it. *)
Lemma createLeaveRequest_equal_dates_counterexample :
  createLeaveRequest Sample.env Sample.hostel Sample.asha
    (mkCreateLeaveBody (Some "Family function") (Some "Home Visit")
                       (Some (ValidDate 1000)) (Some (ValidDate 1000))
                       None None)
  = (Sample.hostel, fail 400 "Out date must be before in date").
Proof. reflexivity. Qed.

(** C9, amended.  For a submission that gives a reason, a type and two
    valid dates, Submit rejects with 400 exactly when the scheduled-in
    timestamp is less than or equal to the scheduled-out timestamp (equal
    timestamps are rejected); when scheduled-in is strictly greater, and the
    caller has a student profile and the reason and type pass the schema,
    the request is stored in status PendingParent with the one submission
    entry and the answer is 201. *)
Theorem createLeaveRequest_date_order
    (env : Env) (st : State) (user : ReqUser) (body : CreateLeaveBody)
    (reason type : string) (o i : Z) :
  cl_reason body = Some reason → reason ≠ "" →
  cl_type body = Some type → type ≠ "" →
  cl_outDate body = Some (ValidDate o) →
  cl_inDate body = Some (ValidDate i) →
  let r := createLeaveRequest env st user body in
  (i ≤ o → r = (st, fail 400 "Out date must be before in date"))
  ∧ (o < i →
     ∀ sid s u,
       Student.findOneByUserId (students st) (_id user) = Some (sid, s) →
       users st !! Student.userId s = Some u →
       trim reason ≠ "" → type ∈ Leave.typeEnum →
       ∃ lid d,
         leaves st !! lid = None
         ∧ r = (set_leaves st (<[lid := d]> (leaves st)),
                ok 201 "Leave request submitted successfully" (lid, d))
         ∧ Leave.studentId d = sid
         ∧ Leave.status d = Leave.PendingParent
         ∧ Leave.outDate d = o ∧ Leave.inDate d = i
         ∧ Leave.statusHistory d
           = [Leave.mkEntry Leave.PendingParent None student None (now env)]).
Proof.
  intros Hr Hr0 Ht Ht0 Ho Hi r. subst r. unfold createLeaveRequest.
  rewrite Hr, Ht, Ho, Hi. unfold truthy.
  rewrite (bool_decide_eq_false_2 _ Hr0), (bool_decide_eq_false_2 _ Ht0).
  simpl. split.
  - intros Hle. by rewrite (bool_decide_eq_true_2 _ Hle).
  - intros Hlt sid s u Hs Hu Htrim Henum.
    rewrite bool_decide_eq_false_2 by lia. rewrite Hs.
    unfold Leave.create, Leave.preSave. rewrite trim_idemp.
    rewrite (bool_decide_eq_false_2 _ Htrim), (bool_decide_eq_true_2 _ Henum).
    simpl. rewrite bool_decide_eq_false_2 by lia.
    apply Student_findOneByUserId_lookup in Hs as [Hs _].
    unfold populatedStudentName. simpl. rewrite Hs, Hu.
    do 2 eexists. split_and!; try reflexivity.
    apply not_elem_of_dom, is_fresh.
Qed.

Lemma createLeaveRequest_date_order_witness :
  createLeaveRequest Sample.env Sample.hostel Sample.asha
    (mkCreateLeaveBody (Some "Family function") (Some "Home Visit")
                       (Some (ValidDate 3000)) (Some (ValidDate 1000))
                       None None)
  = (Sample.hostel, fail 400 "Out date must be before in date")
  ∧ httpStatus
      (createLeaveRequest Sample.env Sample.hostel Sample.asha
         (mkCreateLeaveBody (Some "Family function") (Some "Home Visit")
                            (Some (ValidDate 1000)) (Some (ValidDate 3000))
                            None None)).2 = 201%nat.
Proof.
  split.
  - apply (createLeaveRequest_date_order Sample.env Sample.hostel Sample.asha
             (mkCreateLeaveBody (Some "Family function") (Some "Home Visit")
                                (Some (ValidDate 3000)) (Some (ValidDate 1000))
                                None None)
             "Family function" "Home Visit" 3000 1000);
      [reflexivity | discriminate | reflexivity | discriminate
      | reflexivity | reflexivity | lia].
  - destruct (createLeaveRequest_date_order Sample.env Sample.hostel
                Sample.asha
                (mkCreateLeaveBody (Some "Family function") (Some "Home Visit")
                                   (Some (ValidDate 1000))
                                   (Some (ValidDate 3000)) None None)
                "Family function" "Home Visit" 1000 3000
                eq_refl ltac:(discriminate) eq_refl ltac:(discriminate)
                eq_refl eq_refl) as [_ Hacc].
    destruct (Hacc ltac:(lia) 1%nat (Student.mk 10 "R-001" (Some "A1"))
                   (User.mk "Asha") eq_refl eq_refl ltac:(discriminate)
                   ltac:(apply (bool_decide_unpack _); vm_compute; exact I))
      as (lid & d & _ & -> & _).
    reflexivity.
Defined.

(** ** Entry/exit toggle *)

Lemma latestOf_None l : EntryExit.latestOf l = None ↔ l = [].
Proof.
  destruct l as [|x r]; [done|]. simpl.
  destruct (EntryExit.latestOf r); [case_bool_decide|]; done.
Qed.

Lemma latestOf_Some l x :
  EntryExit.latestOf l = Some x →
  x ∈ l ∧ ∀ y, y ∈ l → EntryExit.createdAt y.2 ≤ EntryExit.createdAt x.2.
Proof.
  revert x. induction l as [|a r IH]; [done|]. intros x. simpl.
  destruct (EntryExit.latestOf r) as [y|] eqn:Hr.
  - destruct (IH y eq_refl) as [Hy Hmax].
    case_bool_decide; intros [= <-].
    + split; [by right|]. intros z [->|Hz]%elem_of_cons; [lia|by apply Hmax].
    + split; [by left|]. intros z [->|Hz]%elem_of_cons; [lia|].
      specialize (Hmax z Hz). lia.
  - intros [= <-]. apply latestOf_None in Hr as ->.
    split; [by left|]. by intros z [->|?%elem_of_nil]%elem_of_cons.
Qed.

(** [findLatest] is the subject's most recent log by creation time. *)
Lemma findLatest_Some c sid id l :
  EntryExit.findLatest c sid = Some (id, l) →
  c !! id = Some l ∧ EntryExit.studentId l = sid
  ∧ ∀ id' l', c !! id' = Some l' → EntryExit.studentId l' = sid →
              EntryExit.createdAt l' ≤ EntryExit.createdAt l.
Proof.
  unfold EntryExit.findLatest. intros [Hin Hmax]%latestOf_Some.
  apply list_elem_of_filter in Hin as [Hsid Hin].
  apply elem_of_map_to_list in Hin. split_and!; [done..|].
  intros id' l' Hl' Hs'. apply (Hmax (id', l')).
  apply list_elem_of_filter. split; [done|]. by apply elem_of_map_to_list.
Qed.

Lemma findLatest_None c sid :
  EntryExit.findLatest c sid = None ↔
  ∀ id l, c !! id = Some l → EntryExit.studentId l ≠ sid.
Proof.
  unfold EntryExit.findLatest. rewrite latestOf_None. split.
  - intros Hnil id l Hl Hs.
    assert ((id, l) ∈ filter (λ p, EntryExit.studentId p.2 = sid)
                             (map_to_list c)) as Hin.
    { apply list_elem_of_filter. split; [done|]. by apply elem_of_map_to_list. }
    rewrite Hnil in Hin. by apply elem_of_nil in Hin.
  - intros Hno. apply elem_of_nil_inv. intros [id l] Hin.
    apply list_elem_of_filter in Hin as [Hs Hin].
    apply elem_of_map_to_list in Hin. by eapply Hno.
Qed.

(** C7, counterexample.  Asha has no log, so her most recent log is not
    IN, and she marks her entry with the method "RFID".  The specification
    has the entry create a log; the handler creates none and answers 500,
    because the method is outside the enum of the schema. *)
Lemma markEntry_method_counterexample :
  EntryExit.findLatest (entryExits Sample.hostel) 1 = None
  ∧ markEntry Sample.env Sample.hostel Sample.asha
              (mkEntryExitBody None (Some "RFID"))
    = (Sample.hostel, failWith 500 (ErrorMessage ValidationFailed)).
Proof. split; reflexivity. Qed.

(** C7.  Once the target student is resolved, with [last] the subject's
    most recent log by creation time: MarkEntry answers with the rejection
    "already marked as IN" exactly when [last] exists with status IN;
    otherwise it stores a new log with status IN, the entry time and the
    method when the method is in the enum of the schema, and answers 500
    without storing anything when it is not.  MarkExit answers with the
    rejection "not currently marked as IN" exactly when there is no log or
    [last] has status OUT; otherwise it replaces [last], under its own id,
    by the same log with outTime = now, status = OUT and the method of the
    exit call when that method is in the enum, and answers 500 without
    changing anything when it is not.  A rejection returns the state as
    received. *)
Theorem markEntry_markExit_toggle
    (env : Env) (st : State) (user : ReqUser) (body : EntryExitBody)
    (sid : ObjectId) :
  targetStudent st user body = inr sid →
  let last := EntryExit.findLatest (entryExits st) sid in
  let method := default "Manual" (ee_method body) in
  let isIN := ∃ id l, last = Some (id, l) ∧ EntryExit.status l = EntryExit.IN in
  let notIN :=
    last = None
    ∨ ∃ id l, last = Some (id, l) ∧ EntryExit.status l = EntryExit.OUT in
  (* [last] is the most recent log of the subject *)
  (∀ id l, last = Some (id, l) →
     entryExits st !! id = Some l ∧ EntryExit.studentId l = sid
     ∧ ∀ id' l', entryExits st !! id' = Some l' →
                 EntryExit.studentId l' = sid →
                 EntryExit.createdAt l' ≤ EntryExit.createdAt l)
  ∧ (last = None ↔
     ∀ id l, entryExits st !! id = Some l → EntryExit.studentId l ≠ sid)
  (* MarkEntry *)
  ∧ (isIN ↔ markEntry env st user body
            = (st, fail 400 "Student is already marked as IN"))
  ∧ (¬ isIN → method ∈ EntryExit.methodEnum →
     ∃ id, entryExits st !! id = None
           ∧ markEntry env st user body
             = (let entryLog :=
                  EntryExit.mk sid (Some (now env)) None EntryExit.IN method
                               (now env) in
                (set_entryExits st (<[id := entryLog]> (entryExits st)),
                 ok 201 "Entry marked successfully" (id, entryLog))))
  ∧ (¬ isIN → method ∉ EntryExit.methodEnum →
     markEntry env st user body
     = (st, failWith 500 (ErrorMessage ValidationFailed)))
  (* MarkExit *)
  ∧ (notIN ↔ markExit env st user body
             = (st, fail 400 "Student is not currently marked as IN"))
  ∧ (∀ id l, last = Some (id, l) → EntryExit.status l = EntryExit.IN →
       method ∈ EntryExit.methodEnum →
       markExit env st user body
       = (let l' :=
            EntryExit.mk (EntryExit.studentId l) (EntryExit.inTime l)
                         (Some (now env)) EntryExit.OUT method
                         (EntryExit.createdAt l) in
          (set_entryExits st (<[id := l']> (entryExits st)),
           ok 200 "Exit marked successfully" (id, l'))))
  ∧ (∀ id l, last = Some (id, l) → EntryExit.status l = EntryExit.IN →
       method ∉ EntryExit.methodEnum →
       markExit env st user body
       = (st, failWith 500 (ErrorMessage ValidationFailed))).
Proof.
  intros Ht last method isIN notIN.
  unfold markEntry, markExit. rewrite Ht. fold last. fold method.
  split_and!.
  - intros id l. apply findLatest_Some.
  - apply findLatest_None.
  - split.
    + intros (id & l & -> & Hs). by rewrite (bool_decide_eq_true_2 _ Hs).
    + destruct last as [[id l]|]; [|by case_bool_decide].
      case_bool_decide as Hs; [|by case_bool_decide]. intros _. by exists id, l.
  - intros Hn Hm. exists (fresh (dom (entryExits st))).
    split; [apply not_elem_of_dom, is_fresh|].
    rewrite (bool_decide_eq_true_2 _ Hm).
    destruct last as [[id l]|]; [|done].
    case_bool_decide as Hs; [|done]. destruct Hn. by exists id, l.
  - intros Hn Hm. rewrite (bool_decide_eq_false_2 _ Hm).
    destruct last as [[id l]|]; [|done].
    case_bool_decide as Hs; [|done]. destruct Hn. by exists id, l.
  - split.
    + intros [->|(id & l & -> & Hs)]; [done|].
      by rewrite (bool_decide_eq_true_2 _ Hs).
    + destruct last as [[id l]|]; [|by left].
      case_bool_decide as Hs; [intros _; right; by exists id, l|].
      by destruct (negb _).
  - intros id l -> Hs Hm.
    rewrite bool_decide_eq_false_2 by (rewrite Hs; discriminate).
    by rewrite (bool_decide_eq_true_2 _ Hm).
  - intros id l -> Hs Hm.
    rewrite bool_decide_eq_false_2 by (rewrite Hs; discriminate).
    by rewrite (bool_decide_eq_false_2 _ Hm).
Qed.

Lemma markEntry_markExit_toggle_witness :
  ∃ id,
    entryExits Sample.hostel !! id = None
    ∧ (markEntry Sample.env Sample.hostel Sample.asha
                 (mkEntryExitBody None (Some "QR"))).1
      = set_entryExits Sample.hostel
          (<[id := EntryExit.mk 1 (Some (now Sample.env)) None EntryExit.IN
                                "QR" (now Sample.env)]>
             (entryExits Sample.hostel)).
Proof.
  destruct (markEntry_markExit_toggle Sample.env Sample.hostel Sample.asha
              (mkEntryExitBody None (Some "QR")) 1%nat eq_refl)
    as (_ & _ & _ & Hentry & _).
  destruct Hentry as (id & Hfresh & ->).
  - intros (id & l & Hlast & _). vm_compute in Hlast. discriminate.
  - apply (bool_decide_unpack _). vm_compute. exact I.
  - exists id. split; [exact Hfresh | reflexivity].
Defined.

(** The leave and fee handlers do not touch the entry/exit logs. *)
Lemma handle_entryExits_other env st rq :
  (∀ user body, rq ≠ MarkEntry user body) →
  (∀ user body, rq ≠ MarkExit user body) →
  entryExits (handle env st rq) = entryExits st.
Proof.
  intros Hentry Hexit.
  destruct rq as [user body|user id body|user id body|user id|user body
                 |body|id body|user id rn|user body|user body]; simpl;
    [| | | | | | | |by destruct (Hentry user body)|by destruct (Hexit user body)].
  - unfold createLeaveRequest. repeat case_match; done.
  - unfold parentApproveOrReject. repeat case_match; done.
  - unfold updateLeaveStatus. repeat case_match; done.
  - unfold cancelMyLeaveRequest. repeat case_match; done.
  - unfold payMyFees. repeat case_match; done.
  - unfold createFee. repeat case_match; done.
  - unfold updateFee. repeat case_match; done.
  - unfold markFeePaid. repeat case_match; done.
Qed.

(** MarkEntry creates a consistent log and leaves the others alone. *)
Lemma markEntry_logs env st user body :
  map_Forall (λ _, logConsistent) (entryExits st) →
  map_Forall (λ _, logConsistent) (entryExits (markEntry env st user body).1).
Proof.
  intros Hinv. unfold markEntry.
  destruct (targetStudent st user body) as [r|sid]; [done|].
  case_match; [done|]. destruct (negb _); [done|]. simpl.
  apply map_Forall_insert_2; [|done].
  split_and!; simpl; [by eexists|done|done].
Qed.

(** MarkExit sets the exit time together with status OUT. *)
Lemma markExit_logs env st user body :
  map_Forall (λ _, logConsistent) (entryExits st) →
  map_Forall (λ _, logConsistent) (entryExits (markExit env st user body).1).
Proof.
  intros Hinv. unfold markExit.
  destruct (targetStudent st user body) as [r|sid]; [done|].
  destruct (EntryExit.findLatest (entryExits st) sid) as [[id l]|] eqn:Hl;
    [|done].
  case_bool_decide; [done|]. destruct (negb _); [done|]. simpl.
  apply findLatest_Some in Hl as (Hl & _).
  apply map_Forall_insert_2; [|done].
  destruct (Hinv id l Hl) as (Hin & _).
  split_and!; simpl; [done|done|by eexists].
Qed.

Lemma handle_logs env st rq :
  map_Forall (λ _, logConsistent) (entryExits st) →
  map_Forall (λ _, logConsistent) (entryExits (handle env st rq)).
Proof.
  intros Hinv.
  destruct rq as [user body|user id body|user id body|user id|user body
                 |body|id body|user id rn|user body|user body];
    try (rewrite handle_entryExits_other; [done|done|done]).
  - by apply markEntry_logs.
  - by apply markExit_logs.
Qed.

(** A request leaves every stored log as it was, except that MarkEntry
    adds one log (status IN, the entry time, no exit time) and MarkExit
    closes one log that was IN (status OUT together with the exit time). *)
Lemma handle_entryExits_step env st rq id l' :
  entryExits (handle env st rq) !! id = Some l' →
  entryExits st !! id = Some l'
  ∨ ((∃ user body, rq = MarkEntry user body)
     ∧ entryExits st !! id = None
     ∧ EntryExit.status l' = EntryExit.IN
     ∧ EntryExit.inTime l' = Some (now env)
     ∧ EntryExit.outTime l' = None)
  ∨ ((∃ user body, rq = MarkExit user body)
     ∧ ∃ l, entryExits st !! id = Some l
            ∧ EntryExit.status l = EntryExit.IN
            ∧ EntryExit.status l' = EntryExit.OUT
            ∧ EntryExit.outTime l' = Some (now env)
            ∧ EntryExit.inTime l' = EntryExit.inTime l
            ∧ EntryExit.studentId l' = EntryExit.studentId l).
Proof.
  destruct rq as [user body|user i body|user i body|user i|user body
                 |body|i body|user i rn|user body|user body];
    try (rewrite handle_entryExits_other; [by left|done|done]).
  - simpl. unfold markEntry.
    destruct (targetStudent st user body) as [r|sid]; [by left|].
    case_match; [by left|]. destruct (negb _); [by left|]. simpl.
    intros [[<- <-]|[Hne Hl]]%lookup_insert_Some; [|by left].
    right. left. split_and!; try done; [by eexists _, _|].
    apply not_elem_of_dom, is_fresh.
  - simpl. unfold markExit.
    destruct (targetStudent st user body) as [r|sid]; [by left|].
    destruct (EntryExit.findLatest (entryExits st) sid) as [[j l]|] eqn:Hl;
      [|by left].
    case_bool_decide as Hs; [by left|].
    destruct (negb _); [by left|]. simpl.
    intros [[<- <-]|[Hne Hl']]%lookup_insert_Some; [|by left].
    right. right. split; [by eexists _, _|].
    apply findLatest_Some in Hl as (Hl & _).
    exists l. split_and!; try done. by destruct (EntryExit.status l).
Qed.

(** C10.  Starting from a state without logs, in every state the API can
    reach every entry/exit log has its entry time, has no exit time while
    its status is IN, and has an exit time once its status is OUT; and a
    further request leaves every log as it was, except that MarkEntry
    creates a log with status IN, the entry time and no exit time, and
    MarkExit, the only handler that sets an exit time, sets it on a log
    that was IN together with status OUT. *)
Theorem entryExit_logs_consistent (init st : State) :
  entryExits init = ∅ →
  reachable init st →
  (∀ id l, entryExits st !! id = Some l →
     is_Some (EntryExit.inTime l)
     ∧ (EntryExit.status l = EntryExit.IN → EntryExit.outTime l = None)
     ∧ (EntryExit.status l = EntryExit.OUT → is_Some (EntryExit.outTime l)))
  ∧ (∀ env rq id l',
       entryExits (handle env st rq) !! id = Some l' →
       entryExits st !! id = Some l'
       ∨ ((∃ user body, rq = MarkEntry user body)
          ∧ entryExits st !! id = None
          ∧ EntryExit.status l' = EntryExit.IN
          ∧ EntryExit.inTime l' = Some (now env)
          ∧ EntryExit.outTime l' = None)
       ∨ ((∃ user body, rq = MarkExit user body)
          ∧ ∃ l, entryExits st !! id = Some l
                 ∧ EntryExit.status l = EntryExit.IN
                 ∧ EntryExit.status l' = EntryExit.OUT
                 ∧ EntryExit.outTime l' = Some (now env)
                 ∧ EntryExit.inTime l' = EntryExit.inTime l
                 ∧ EntryExit.studentId l' = EntryExit.studentId l)).
Proof.
  intros Hinit Hreach. split; [|intros env rq; apply handle_entryExits_step].
  change (map_Forall (λ _, logConsistent) (entryExits st)).
  induction Hreach as [|env st rq _ IH].
  - rewrite Hinit. apply map_Forall_empty.
  - by apply handle_logs.
Qed.

Lemma entryExit_logs_consistent_witness :
  let st :=
    handle Sample.env
      (handle Sample.env Sample.hostel
              (MarkEntry Sample.asha (mkEntryExitBody None None)))
      (MarkExit Sample.head_warden
                (mkEntryExitBody (Some (ByRollNumber "R-001")) (Some "QR"))) in
  ∃ l, entryExits st !! 0%nat = Some l
       ∧ EntryExit.status l = EntryExit.OUT
       ∧ is_Some (EntryExit.outTime l).
Proof.
  intros st.
  exists (EntryExit.mk 1 (Some (now Sample.env)) (Some (now Sample.env))
                       EntryExit.OUT "QR" (now Sample.env)).
  assert (entryExits st !! 0%nat
          = Some (EntryExit.mk 1 (Some (now Sample.env))
                               (Some (now Sample.env)) EntryExit.OUT "QR"
                               (now Sample.env))) as Hl by reflexivity.
  split_and!; [exact Hl | reflexivity |].
  apply (proj1 (entryExit_logs_consistent Sample.hostel st eq_refl
                  ltac:(do 2 apply reachable_step; apply reachable_init))
               0%nat _ Hl).
  reflexivity.
Defined.

(** ** Fee settlement and fee administration *)

(** The pending fees of a subject are the stored fees of that subject with
    status Pending, each once. *)
Lemma findPending_elem c sid id fee :
  (id, fee) ∈ Fee.findPending c sid ↔
  c !! id = Some fee ∧ Fee.studentId fee = sid ∧ Fee.status fee = Fee.Pending.
Proof.
  unfold Fee.findPending. rewrite merge_sort_Permutation.
  rewrite list_elem_of_filter, elem_of_map_to_list. simpl. tauto.
Qed.

Lemma findPending_NoDup c sid : NoDup (Fee.findPending c sid).*1.
Proof.
  unfold Fee.findPending. rewrite merge_sort_Permutation.
  eapply sublist_NoDup; [apply (NoDup_fst_map_to_list c)|].
  apply fmap_sublist, sublist_filter.
Qed.

Lemma Fee_write_inr c id fee c' :
  Fee.write c id fee = inr c' → c' = <[id := fee]> c.
Proof. unfold Fee.write. repeat case_match; naive_solver. Qed.

Lemma Fee_write_free c id fee :
  (∀ r, Fee.receiptNumber fee = Some r → ¬ Fee.receiptTaken c id r) →
  Fee.write c id fee = inr (<[id := fee]> c).
Proof.
  intros Hfree. unfold Fee.write.
  destruct (Fee.receiptNumber fee) as [r|]; [|done].
  by rewrite bool_decide_eq_false_2 by by apply Hfree.
Qed.

(** Saves touch only the documents saved. *)
Lemma saveAll_lookup_other l : ∀ c id,
  id ∉ l.*1 → (saveAll c l).1 !! id = c !! id.
Proof.
  induction l as [|[i fee] r IH]; [done|]. intros c id Hid.
  apply not_elem_of_cons in Hid as [Hne Hid]. simpl.
  destruct (Fee.write c i fee) as [e|c'] eqn:Hw; simpl.
  - by apply IH.
  - apply Fee_write_inr in Hw as ->. rewrite IH by done.
    by apply lookup_insert_ne.
Qed.

(** When [Promise.all] resolves, every document is stored as saved. *)
Lemma saveAll_accepted l : ∀ c,
  (saveAll c l).2 = None → NoDup l.*1 →
  ∀ id fee, (id, fee) ∈ l → (saveAll c l).1 !! id = Some fee.
Proof.
  induction l as [|[i d] r IH]; intros c Hok Hnd id fee Hin.
  { by apply elem_of_nil in Hin. }
  simpl in *. apply NoDup_cons in Hnd as [Hi Hnd].
  destruct (Fee.write c i d) as [e|c'] eqn:Hw; [done|].
  apply Fee_write_inr in Hw as ->.
  apply elem_of_cons in Hin as [[= -> ->]|Hin].
  - rewrite saveAll_lookup_other by done. apply lookup_insert_eq.
  - by apply IH.
Qed.

(** The unique index accepts every save when the receipt numbers written
    are pairwise distinct and none is held by another stored fee. *)
Lemma saveAll_accepts l : ∀ c,
  NoDup ((λ p, Fee.receiptNumber p.2) <$> l) →
  Forall (λ p, ∀ r, Fee.receiptNumber p.2 = Some r →
                    ¬ Fee.receiptTaken c p.1 r) l →
  (saveAll c l).2 = None.
Proof.
  induction l as [|[i d] r IH]; [done|]. intros c Hnd Hfree.
  rewrite fmap_cons in Hnd. apply NoDup_cons in Hnd as [Hd Hnd].
  apply Forall_cons in Hfree as [Hhd Hfree]. simpl in *.
  rewrite Fee_write_free by done. apply IH; [done|].
  apply Forall_forall. intros [j d'] Hin rc Hrc Htaken. simpl in *.
  apply map_Exists_insert_1 in Htaken as [[_ Heq]|Htaken].
  - apply Hd. apply list_elem_of_fmap. exists (j, d'). simpl.
    split; [congruence|done].
  - rewrite Forall_forall in Hfree. by apply (Hfree (j, d') Hin rc).
Qed.

(** A property of fee documents that holds of the stored fees and of the
    fees saved holds after the saves. *)
Lemma saveAll_Forall (P : Fee.doc → Prop) l : ∀ c,
  map_Forall (λ _, P) c → Forall (λ p, P p.2) l →
  map_Forall (λ _, P) (saveAll c l).1.
Proof.
  induction l as [|[i d] r IH]; [done|]. intros c Hc Hl.
  apply Forall_cons in Hl as [Hd Hl]. simpl.
  destruct (Fee.write c i d) as [e|c'] eqn:Hw; simpl.
  - by apply IH.
  - apply Fee_write_inr in Hw as ->. apply IH; [|done].
    by apply map_Forall_insert_2.
Qed.

Lemma settlementWrites_elem paidAt rc paidBy uid pending id fee' :
  (id, fee') ∈ settlementWrites paidAt rc paidBy uid pending ↔
  ∃ fee, fee' = markPaid paidAt rc paidBy uid fee ∧ (id, fee) ∈ pending.
Proof.
  unfold settlementWrites. rewrite list_elem_of_fmap. split.
  - intros ([i f] & [= -> ->] & Hin). by exists f.
  - intros (f & -> & Hin). by exists (id, f).
Qed.

Lemma settlementWrites_fst paidAt rc paidBy uid pending :
  (settlementWrites paidAt rc paidBy uid pending).*1 = pending.*1.
Proof.
  unfold settlementWrites. rewrite <- list_fmap_compose.
  by apply list_fmap_ext.
Qed.

(** [payMyFees] past its guards: the amount is positive, the student is
    resolved, there are pending fees and the amount is their sum. *)
Lemma payMyFees_settling env st user body amount sid :
  pay_amount body = Some amount → 0 < amount →
  payerStudent st user = inr sid →
  Fee.findPending (fees st) sid ≠ [] →
  amount = totalDue (Fee.findPending (fees st) sid) →
  payMyFees env st user body
  = let paidBy := if bool_decide (role user = parent) then parent else student in
    match saveAll (fees st)
            (settlementWrites (now env) (generateReceiptNumber env) paidBy
                              (_id user) (Fee.findPending (fees st) sid))
    with
    | (c, Some e) =>
        (console_error (set_fees st c) "Error recording payment:" e,
         failWith 500 (ErrorMessage e))
    | (c, None) =>
        let st1 := set_fees st c in
        let st2 :=
          match Payment.create (paymentStoreUp env) (payments st1)
                  (Payment.mk sid paidBy (_id user) amount
                     (default "UPI" (pay_method body)) "Completed"
                     (trim (js_or (pay_transactionId body)
                                  (generateReceiptNumber env)))
                     (now env))
          with
          | inl payErr =>
              console_error st1 "Failed to create Payment record:" payErr
          | inr pc => set_payments st1 pc
          end in
        (st2, ok 200 "Payment recorded successfully"
                (mkPayData (Fee.findByStudent (fees st2) sid)
                           (Some (generateReceiptNumber env))))
    end.
Proof.
  intros Ha Hpos Hs Hne Hsum. unfold payMyFees. rewrite Ha, Hs.
  rewrite bool_decide_eq_false_2 by lia.
  destruct (Fee.findPending (fees st) sid) as [|p ps] eqn:Hp; [done|].
  cbv iota. rewrite <- Hp. rewrite <- Hp in Hsum.
  by rewrite (bool_decide_eq_true_2 _ Hsum).
Qed.

(** The fee collection after [payMyFees] is the one received, or the one
    the saves of a settlement leave. *)
Lemma payMyFees_fees env st user body :
  fees (payMyFees env st user body).1 = fees st
  ∨ ∃ sid paidBy,
      fees (payMyFees env st user body).1
      = (saveAll (fees st)
           (settlementWrites (now env) (generateReceiptNumber env) paidBy
                             (_id user) (Fee.findPending (fees st) sid))).1.
Proof.
  unfold payMyFees.
  destruct (pay_amount body) as [amount|]; [|by left].
  case_bool_decide; [by left|].
  destruct (payerStudent st user) as [r|sid]; [by left|].
  destruct (Fee.findPending (fees st) sid) as [|p ps] eqn:Hp; [by left|].
  cbv iota. rewrite <- Hp.
  case_bool_decide; [|by left]. right.
  exists sid, (if bool_decide (role user = parent) then parent else student).
  cbv zeta. destruct (saveAll _ _) as [c [e|]]; simpl; [reflexivity|].
  by destruct (Payment.create _ _ _).
Qed.

(** C5, counterexample.  Chitra has no pending fee, so the sum of her
    pending amounts is 0; she settles with the positive amount 100.  The
    specification gives AmountMismatch; the handler answers 200 with an
    empty list. *)
Lemma payMyFees_mismatch_counterexample :
  payerStudent Sample.hostel Sample.chitra = inr 3%nat
  ∧ totalDue (Fee.findPending (fees Sample.hostel) 3) = 0
  ∧ payMyFees Sample.env Sample.hostel Sample.chitra
              (mkPayBody (Some 100) None None)
    = (Sample.hostel, ok 200 "No pending fees to pay" (mkPayData [] None)).
Proof. split_and!; reflexivity. Qed.

(** C5, amended.  For a subject with at least one Pending fee and a
    positive amount X other than the sum of the Pending amounts, Settle(X)
    answers 400 with the amount-mismatch message and returns the state as
    received, so no fee field changes.  For a subject with no Pending fee,
    Settle with any positive amount answers 200 with an empty list, again
    without a change. *)
Theorem payMyFees_amount_mismatch
    (env : Env) (st : State) (user : ReqUser) (body : PayBody)
    (amount : Z) (sid : ObjectId) :
  pay_amount body = Some amount → 0 < amount →
  payerStudent st user = inr sid →
  let pendingFees := Fee.findPending (fees st) sid in
  (pendingFees ≠ [] → amount ≠ totalDue pendingFees →
   payMyFees env st user body
   = (st, failWith 400 (AmountMismatchMsg (totalDue pendingFees) amount)))
  ∧ (pendingFees = [] →
     payMyFees env st user body
     = (st, ok 200 "No pending fees to pay" (mkPayData [] None))).
Proof.
  intros Ha Hpos Hs pendingFees. subst pendingFees. unfold payMyFees.
  rewrite Ha, Hs. rewrite bool_decide_eq_false_2 by lia.
  split.
  - intros Hne Hsum.
    destruct (Fee.findPending (fees st) sid) as [|p ps] eqn:Hp; [done|].
    by rewrite (bool_decide_eq_false_2 _ Hsum).
  - by intros ->.
Qed.

Lemma payMyFees_amount_mismatch_witness :
  payMyFees Sample.env Sample.hostel Sample.asha
            (mkPayBody (Some 500) (Some "Card") None)
  = (Sample.hostel, failWith 400 (AmountMismatchMsg 800 500)).
Proof.
  apply (payMyFees_amount_mismatch Sample.env Sample.hostel Sample.asha
           (mkPayBody (Some 500) (Some "Card") None) 500 1%nat);
    [reflexivity | lia | reflexivity | vm_compute; discriminate
    | vm_compute; discriminate].
Defined.

(** C4.  Asha has the two Pending fees 1 and 2, of 500 and 300, neither
    with a receipt number, and settles with 800, the sum of her Pending
    fees.  The handler generates one receipt number for the settlement
    and saves both fees with it: the unique index on [receiptNumber] takes
    it for fee 1, which is stored as Paid, and refuses it for fee 2, which
    stays Pending; the handler answers 500 and records no payment. *)
Theorem payMyFees_two_fees_one_receipt :
  let r := payMyFees Sample.env Sample.hostel Sample.asha
             (mkPayBody (Some 800) (Some "UPI") None) in
  Fee.findPending (fees Sample.hostel) 1
    = [(1%nat, Sample.fee1); (2%nat, Sample.fee2)]
  ∧ totalDue (Fee.findPending (fees Sample.hostel) 1) = 800
  ∧ r.2 = failWith 500 (ErrorMessage DuplicateKey)
  ∧ fees r.1 !! 1%nat
    = Some (Fee.mk 1 500 (Fee.term Sample.fee1) Fee.Paid
                   (Some (generateReceiptNumber Sample.env))
                   (Some (now Sample.env)) (Some student) (Some 10%nat)
                   (Fee.createdAt Sample.fee1))
  ∧ fees r.1 !! 2%nat = Some Sample.fee2
  ∧ Fee.status Sample.fee2 = Fee.Pending
  ∧ Fee.receiptNumber Sample.fee2 = None
  ∧ payments r.1 = ∅.
Proof. split_and!; reflexivity. Qed.

(** The last clause of the claim.  Chitra has no Pending fee and settles
    with amount 0: the first guard of the handler answers 400, before the
    Pending fees are looked at. *)
Lemma payMyFees_zero_amount_refused :
  Fee.findPending (fees Sample.hostel) 3 = []
  ∧ payMyFees Sample.env Sample.hostel Sample.chitra
              (mkPayBody (Some 0) (Some "UPI") None)
    = (Sample.hostel, fail 400 "Please provide a valid amount").
Proof. split; reflexivity. Qed.

(** What a settlement does when the unique index accepts its writes.
    For a subject with at least one Pending fee, Settle
    called with a positive amount equal to the sum of the Pending amounts
    saves every Pending fee as Paid with the settlement's timestamp and
    payer and with the receipt number it already has or else the one
    receipt identifier generated for the settlement; when the receipt
    numbers so written are pairwise distinct and none is held by another
    fee (what the unique index on receiptNumber accepts), Settle answers
    200 with the generated receipt identifier, every previously Pending fee
    of the subject is stored that way and no other fee changes.  For a
    subject with no Pending fee, Settle with a positive amount answers 200
    with an empty list and changes nothing; Settle with amount 0 answers
    400 and changes nothing. *)
Theorem payMyFees_settles
    (env : Env) (st : State) (user : ReqUser) (body : PayBody)
    (amount : Z) (sid : ObjectId) :
  pay_amount body = Some amount →
  payerStudent st user = inr sid →
  let pendingFees := Fee.findPending (fees st) sid in
  let paidBy := if bool_decide (role user = parent) then parent else student in
  let r := payMyFees env st user body in
  (pendingFees ≠ [] → amount = totalDue pendingFees → 0 < amount →
   NoDup ((λ p, stampedReceipt env p.2) <$> pendingFees) →
   Forall (λ p, ¬ Fee.receiptTaken (fees st) p.1 (stampedReceipt env p.2))
          pendingFees →
   httpStatus r.2 = 200%nat ∧ success r.2 = true
   ∧ (∃ fs, data r.2 = Some (mkPayData fs (Some (generateReceiptNumber env))))
   ∧ (∀ id fee, fees st !! id = Some fee →
        Fee.studentId fee = sid → Fee.status fee = Fee.Pending →
        fees r.1 !! id
        = Some (Fee.mk sid (Fee.amount fee) (Fee.term fee) Fee.Paid
                       (Some (stampedReceipt env fee)) (Some (now env))
                       (Some paidBy) (Some (_id user)) (Fee.createdAt fee)))
   ∧ (∀ id, (∀ fee, fees st !! id = Some fee →
                    ¬ (Fee.studentId fee = sid
                       ∧ Fee.status fee = Fee.Pending)) →
            fees r.1 !! id = fees st !! id))
  ∧ (pendingFees = [] → 0 < amount →
     r = (st, ok 200 "No pending fees to pay" (mkPayData [] None)))
  ∧ (amount = 0 → r = (st, fail 400 "Please provide a valid amount")).
Proof.
  intros Ha Hs pendingFees paidBy r. split_and!.
  - intros Hne Hsum Hpos Hnd Hfree. subst r.
    rewrite (payMyFees_settling env st user body amount sid) by done.
    fold paidBy. fold pendingFees. cbv zeta.
    pose proof (saveAll_accepts
                  (settlementWrites (now env) (generateReceiptNumber env)
                                    paidBy (_id user) pendingFees)
                  (fees st)) as Hacc.
    pose proof (saveAll_accepted
                  (settlementWrites (now env) (generateReceiptNumber env)
                                    paidBy (_id user) pendingFees)
                  (fees st)) as Hstored.
    pose proof (saveAll_lookup_other
                  (settlementWrites (now env) (generateReceiptNumber env)
                                    paidBy (_id user) pendingFees)
                  (fees st)) as Hother.
    destruct (saveAll _ _) as [c o]. simpl in Hacc, Hstored, Hother.
    assert (o = None) as ->.
    { apply Hacc.
      - unfold settlementWrites. rewrite <- list_fmap_compose.
        rewrite (list_fmap_ext _ (Some ∘ (λ p, stampedReceipt env p.2)))
          by done.
        rewrite list_fmap_compose. by apply (NoDup_fmap_2 Some).
      - apply Forall_forall.
        intros [i f] [f0 [-> Hin]]%settlementWrites_elem.
        intros rc [= <-]. rewrite Forall_forall in Hfree.
        apply (Hfree (i, f0) Hin). }
    assert (∀ id fee, fees st !! id = Some fee →
              Fee.studentId fee = sid → Fee.status fee = Fee.Pending →
              c !! id
              = Some (Fee.mk sid (Fee.amount fee) (Fee.term fee) Fee.Paid
                             (Some (stampedReceipt env fee)) (Some (now env))
                             (Some paidBy) (Some (_id user))
                             (Fee.createdAt fee))) as Hpaid.
    { intros id fee Hl Hsid Hst.
      rewrite (Hstored eq_refl) with
        (fee := markPaid (now env) (generateReceiptNumber env)
                         paidBy (_id user) fee).
      - unfold markPaid, stampedReceipt. by rewrite Hsid.
      - rewrite settlementWrites_fst. apply findPending_NoDup.
      - apply settlementWrites_elem. exists fee. split; [done|].
        by apply findPending_elem. }
    assert (∀ id, (∀ fee, fees st !! id = Some fee →
                          ¬ (Fee.studentId fee = sid
                             ∧ Fee.status fee = Fee.Pending)) →
                  c !! id = fees st !! id) as Hrest.
    { intros id Hnot. apply Hother. rewrite settlementWrites_fst.
      intros [[i f] [Hi Hin]]%list_elem_of_fmap. simpl in Hi. subst i.
      apply findPending_elem in Hin as (Hl & Hsid & Hst).
      by apply (Hnot f Hl). }
    destruct (Payment.create _ _ _) as [payErr|pc]; simpl;
      (split_and!; [done|done|by eexists|done|done]).
  - intros Hnil Hpos. subst r. unfold payMyFees. rewrite Ha, Hs.
    rewrite bool_decide_eq_false_2 by lia. fold pendingFees. by rewrite Hnil.
  - intros ->. subst r. unfold payMyFees. by rewrite Ha.
Qed.

Lemma payMyFees_settles_witness :
  let r := payMyFees Sample.env Sample.hostel Sample.bina
             (mkPayBody (Some 700) (Some "UPI") None) in
  httpStatus r.2 = 200%nat
  ∧ fees r.1 !! 3%nat
    = Some (Fee.mk 2 700 "Term 1" Fee.Paid (Some "RCPT-LOYW3V28-4FZZZX")
                   (Some (now Sample.env)) (Some student) (Some 11%nat) 150).
Proof.
  destruct (payMyFees_settles Sample.env Sample.hostel Sample.bina
              (mkPayBody (Some 700) (Some "UPI") None) 700 2%nat
              eq_refl eq_refl) as [Hsettle _].
  destruct Hsettle as (Hcode & _ & _ & Hpaid & _).
  - vm_compute. discriminate.
  - reflexivity.
  - lia.
  - apply (bool_decide_unpack _). vm_compute. exact I.
  - apply (bool_decide_unpack _). vm_compute. exact I.
  - split; [exact Hcode|].
    apply (Hpaid 3%nat Sample.fee3); reflexivity.
Defined.

(** C6.  Settle has passed its guards and every fee save was accepted, so
    the fees have been marked Paid; the Payment write then fails (the
    method is not in the schema's enum, or the store refuses the write).
    The handler logs the failure on the console and still answers 200
    "Payment recorded successfully"; no Payment is stored, and the fee
    collection is the one the saves left: every previously Pending fee of
    the subject is stored as marked (status Paid). *)
Theorem payMyFees_payment_record_failure
    (env : Env) (st : State) (user : ReqUser) (body : PayBody)
    (amount : Z) (sid : ObjectId) :
  pay_amount body = Some amount → 0 < amount →
  payerStudent st user = inr sid →
  let pendingFees := Fee.findPending (fees st) sid in
  let paidBy := if bool_decide (role user = parent) then parent else student in
  let writes := settlementWrites (now env) (generateReceiptNumber env) paidBy
                                 (_id user) pendingFees in
  pendingFees ≠ [] → amount = totalDue pendingFees →
  (saveAll (fees st) writes).2 = None →
  (default "UPI" (pay_method body) ∉ Payment.methodEnum
   ∨ paymentStoreUp env = false) →
  let r := payMyFees env st user body in
  httpStatus r.2 = 200%nat ∧ success r.2 = true
  ∧ message r.2 = Static "Payment recorded successfully"
  ∧ payments r.1 = payments st
  ∧ (∃ payErr, console r.1
               = console st ++ [("Failed to create Payment record:", payErr)])
  ∧ fees r.1 = (saveAll (fees st) writes).1
  ∧ (∀ id fee, (id, fee) ∈ pendingFees →
       fees r.1 !! id
       = Some (markPaid (now env) (generateReceiptNumber env) paidBy
                        (_id user) fee)
       ∧ Fee.status (markPaid (now env) (generateReceiptNumber env) paidBy
                              (_id user) fee) = Fee.Paid).
Proof.
  intros Ha Hpos Hs pendingFees paidBy writes Hne Hsum Hsaved Hfail r.
  subst r. rewrite (payMyFees_settling env st user body amount sid) by done.
  fold paidBy. fold pendingFees. cbv zeta.
  pose proof (saveAll_accepted writes (fees st) Hsaved) as Hstored.
  unfold writes in *.
  destruct (saveAll (fees st) _) as [c o]. simpl in Hsaved, Hstored.
  subst o.
  assert (∃ payErr,
            Payment.create (paymentStoreUp env) (payments (set_fees st c))
              (Payment.mk sid paidBy (_id user) amount
                 (default "UPI" (pay_method body)) "Completed"
                 (trim (js_or (pay_transactionId body)
                              (generateReceiptNumber env)))
                 (now env)) = inl payErr) as [payErr ->].
  { unfold Payment.create. simpl. destruct Hfail as [Hm| ->].
    - rewrite (bool_decide_eq_false_2 _ Hm). by eexists.
    - case_bool_decide; by eexists. }
  simpl. split_and!; [done|done|done|done|by eexists|done|].
  intros id fee Hin. split; [|done]. apply Hstored.
  - rewrite settlementWrites_fst. apply findPending_NoDup.
  - apply settlementWrites_elem. by exists fee.
Qed.

Lemma payMyFees_payment_record_failure_witness :
  let r := payMyFees Sample.env Sample.hostel Sample.bina
             (mkPayBody (Some 700) (Some "Cheque") None) in
  httpStatus r.2 = 200%nat ∧ success r.2 = true
  ∧ payments r.1 = payments Sample.hostel
  ∧ ∃ fee, fees r.1 !! 3%nat = Some fee ∧ Fee.status fee = Fee.Paid.
Proof.
  destruct (payMyFees_payment_record_failure Sample.env Sample.hostel
              Sample.bina (mkPayBody (Some 700) (Some "Cheque") None)
              700 2%nat eq_refl ltac:(lia) eq_refl)
    as (Hcode & Hok & _ & Hpay & _ & _ & Hfees).
  - vm_compute. discriminate.
  - reflexivity.
  - reflexivity.
  - left. apply (bool_decide_unpack _). vm_compute. exact I.
  - split_and!; [exact Hcode | exact Hok | exact Hpay |].
    destruct (Hfees 3%nat Sample.fee3) as [Hl Hst].
    + apply findPending_elem. split_and!; reflexivity.
    + eexists. split; [exact Hl | exact Hst].
Defined.


Section FeeInvariants.
Context (env : Env) (st : State).





End FeeInvariants.



(** ** End-to-end scenarios *)

(** Asha submits a leave (out on day 1, in on day 3); her parent rejects it
    with a reason; the warden's decision then meets a Conflict. *)
Example scenario_parent_rejects :
  let day := 86400000 in
  let s1 := createLeaveRequest Sample.env Sample.hostel Sample.asha
              (mkCreateLeaveBody (Some "Cousin's wedding") (Some "Home Visit")
                 (Some (ValidDate (1 * day))) (Some (ValidDate (3 * day)))
                 None None) in
  let id := fresh (dom (leaves Sample.hostel)) in
  let s2 := parentApproveOrReject Sample.env s1.1 Sample.ravi id
              (mkDecisionBody "Rejected" (Some "not convenient")) in
  let s3 := updateLeaveStatus Sample.env s2.1 Sample.head_warden id
              (mkDecisionBody "Approved" None) in
  httpStatus s1.2 = 201%nat
  ∧ Leave.status <$> leaves s1.1 !! id = Some Leave.PendingParent
  ∧ httpStatus s2.2 = 200%nat
  ∧ Leave.status <$> leaves s2.1 !! id = Some Leave.RejectedByParent
  ∧ length ∘ Leave.statusHistory <$> leaves s2.1 !! id = Some 2%nat
  ∧ httpStatus s3.2 = 409%nat
  ∧ s3.1 = s2.1.
Proof. vm_compute. split_and!; reflexivity. Qed.

(** Asha submits, her parent approves, the warden approves. *)
Example scenario_warden_approves :
  let day := 86400000 in
  let s1 := createLeaveRequest Sample.env Sample.hostel Sample.asha
              (mkCreateLeaveBody (Some "Cousin's wedding") (Some "Home Visit")
                 (Some (ValidDate (1 * day))) (Some (ValidDate (3 * day)))
                 None None) in
  let id := fresh (dom (leaves Sample.hostel)) in
  let s2 := parentApproveOrReject Sample.env s1.1 Sample.ravi id
              (mkDecisionBody "Approved" None) in
  let s3 := updateLeaveStatus Sample.env s2.1 Sample.head_warden id
              (mkDecisionBody "Approved" None) in
  httpStatus s3.2 = 200%nat
  ∧ Leave.status <$> leaves s3.1 !! id = Some Leave.Approved
  ∧ length ∘ Leave.statusHistory <$> leaves s3.1 !! id = Some 3%nat
  ∧ Leave.approvedBy <$> leaves s3.1 !! id = Some (Some (_id Sample.head_warden))
  ∧ Leave.approvedAt <$> leaves s3.1 !! id = Some (Some (now Sample.env)).
Proof. vm_compute. split_and!; reflexivity. Qed.

(** * Further properties of the handlers *)

(** ** Requests *)

(** The fee and entry/exit handlers do not write the requests. *)
Lemma handle_leaves_other env st rq :
  match rq with
  | PayMyFees _ _ | CreateFee _ | UpdateFee _ _ | MarkFeePaid _ _ _
  | MarkEntry _ _ | MarkExit _ _ => leaves (handle env st rq) = leaves st
  | _ => True
  end.
Proof.
  destruct rq as [user body|user i body|user i body|user i|user body
                 |body|i body|user i rn|user body|user body]; simpl; try done.
  - unfold payMyFees. repeat case_match; done.
  - unfold createFee. repeat case_match; done.
  - unfold updateFee. repeat case_match; done.
  - unfold markFeePaid. repeat case_match; done.
  - unfold markEntry. repeat case_match; done.
  - unfold markExit. repeat case_match; done.
Qed.

Lemma handle_leaveWrite env st rq id l' :
  leaves (handle env st rq) !! id = Some l' →
  leaveWrite (leaves st !! id) l'.
Proof.
  pose proof (handle_leaves_other env st rq) as Hother.
  destruct rq as [user body|user i body|user i body|user i|user body
                 |body|i body|user i rn|user body|user body]; simpl in *;
    try (rewrite Hother; intros ->; constructor).
  - unfold createLeaveRequest, Leave.create, Leave.preSave.
    repeat case_match; simplify_eq/=;
      try (intros ->; constructor).
    all: intros [[<- <-]|[Hne ->]]%lookup_insert_Some; [|constructor].
    all: rewrite (proj1 (not_elem_of_dom _ _) (is_fresh _)).
    all: constructor.
    all: match goal with H : bool_decide (_ ≤ _) = false |- _ =>
           apply bool_decide_eq_false in H; lia end.
  - unfold parentApproveOrReject, Leave.findOneAndUpdate.
    repeat case_match; simplify_eq/=; try (intros ->; constructor).
    all: intros [[<- <-]|[Hne ->]]%lookup_insert_Some; [|constructor].
    all: match goal with
         | H : leaves _ !! _ = Some _ |- _ => rewrite H
         end.
    all: match goal with
         | H : _ && bool_decide (Leave.status _ = _) = true |- _ =>
             apply andb_true_iff in H as [_ H%bool_decide_eq_true]
         end.
    all: first [by apply (leaveWrite_parent _ true)
               |by apply (leaveWrite_parent _ false)].
  - unfold updateLeaveStatus, Leave.findOneAndUpdate.
    repeat case_match; simplify_eq/=; try (intros ->; constructor).
    all: intros [[<- <-]|[Hne ->]]%lookup_insert_Some; [|constructor].
    all: match goal with
         | H : leaves _ !! _ = Some _ |- _ => rewrite H
         end.
    all: match goal with
         | H : bool_decide (Leave.status _ = _) = true |- _ =>
             apply bool_decide_eq_true in H
         end.
    all: first [by apply (leaveWrite_warden _ true)
               |by apply (leaveWrite_warden _ false)].
  - unfold cancelMyLeaveRequest, Leave.save.
    repeat case_match; simplify_eq/=; try (intros ->; constructor).
    intros [[<- <-]|[Hne ->]]%lookup_insert_Some; [|constructor].
    match goal with
    | H : leaves _ !! _ = Some _ |- _ => rewrite H
    end.
    apply leaveWrite_cancel.
Qed.

(** The read-only handlers and [deleteFee] do not write the requests. *)
Lemma serve_leaveWrite env st call id l' :
  leaves (serve env st call) !! id = Some l' →
  leaveWrite (leaves st !! id) l'.
Proof.
  destruct call as [rq|i|user i| |status|user|user]; simpl.
  - apply handle_leaveWrite.
  - unfold deleteFee. case_match; simpl; intros ->; constructor.
  - unfold getFeeById. repeat case_match; simpl; intros ->; constructor.
  - unfold getPaymentSummary. case_match; simpl; intros ->; constructor.
  - unfold getAllLeaveRequests. case_match; simpl; intros ->; constructor.
  - unfold getMyLeaveRequests. repeat case_match; simpl; intros ->; constructor.
  - unfold getMyLogs. repeat case_match; simpl; intros ->; constructor.
Qed.

(** A call never removes a request. *)
Lemma serve_leaves_kept env st call id l :
  leaves st !! id = Some l → is_Some (leaves (serve env st call) !! id).
Proof.
  intros Hl.
  assert (leaves (serve env st call) = leaves st
          ∨ ∃ j x, leaves (serve env st call) = <[j := x]> (leaves st))
    as [->|(j & x & ->)].
  { destruct call as [rq|i|user i| |status|user|user]; simpl.
    - pose proof (handle_leaves_other env st rq) as Hother.
      destruct rq as [user body|user i body|user i body|user i|user body
                     |body|i body|user i rn|user body|user body]; simpl in *;
        try (by left).
      + unfold createLeaveRequest, Leave.create.
        repeat case_match; simplify_eq/=; eauto.
      + unfold parentApproveOrReject, Leave.findOneAndUpdate.
        repeat case_match; simplify_eq/=; eauto.
      + unfold updateLeaveStatus, Leave.findOneAndUpdate.
        repeat case_match; simplify_eq/=; eauto.
      + unfold cancelMyLeaveRequest, Leave.save.
        repeat case_match; simplify_eq/=; eauto.
    - unfold deleteFee. case_match; by left.
    - unfold getFeeById. repeat case_match; by left.
    - unfold getPaymentSummary. case_match; by left.
    - unfold getAllLeaveRequests. case_match; by left.
    - unfold getMyLeaveRequests. repeat case_match; by left.
    - unfold getMyLogs. repeat case_match; by left. }
  - by eexists.
  - destruct (decide (j = id)) as [->|Hne].
    + rewrite lookup_insert_eq. by eexists.
    + rewrite lookup_insert_ne by done. by eexists.
Qed.

(** The two halves of the three handlers, run one after the other on the
    same state, are the handler. *)
Lemma cancelMyLeaveRequest_halves st user id :
  cancelMyLeaveRequest st user id
  = match cancelMyLeaveRequest_read st user id with
    | inl r => r
    | inr leave => cancelMyLeaveRequest_save st id leave
    end.
Proof.
  unfold cancelMyLeaveRequest, cancelMyLeaveRequest_read,
    cancelMyLeaveRequest_save, Leave.save.
  destruct (Student.findOneByUserId _ _) as [[sid s]|]; [|done].
  destruct (leaves st !! id) as [leave|] eqn:Hl; [|done].
  destruct (students st !! _); [|done].
  destruct (negb _); [done|]. destruct (negb _); [done|].
  by destruct (Leave.preSave _).
Qed.

Lemma markEntry_halves env st user body :
  markEntry env st user body
  = match markEntry_check st user body with
    | inl r => (st, r)
    | inr sid =>
        markEntry_create env st sid (default "Manual" (ee_method body))
    end.
Proof.
  unfold markEntry, markEntry_check, markEntry_create.
  destruct (targetStudent st user body) as [r|sid]; [done|].
  by destruct (match EntryExit.findLatest _ _ with
               | Some (_, l) => bool_decide (EntryExit.status l = EntryExit.IN)
               | None => false
               end).
Qed.

Lemma markExit_halves env st user body :
  markExit env st user body
  = match markExit_check st user body with
    | inl r => (st, r)
    | inr (id, lastLog) =>
        markExit_save env st id lastLog (default "Manual" (ee_method body))
    end.
Proof.
  unfold markExit, markExit_check, markExit_save.
  destruct (targetStudent st user body) as [r|sid]; [done|].
  destruct (EntryExit.findLatest _ _) as [[id lastLog]|] eqn:Hlast; [|done].
  case_bool_decide; [done|].
  apply findLatest_Some in Hlast as (-> & _).
  destruct (negb _); [done|].
  by case_bool_decide as Hm; [rewrite <- Hm|].
Qed.

(** What one step does to the request stored under an id. *)
Lemma runStep_leaveWrite env r r' id l' :
  runStep env r r' →
  leaves (store r') !! id = Some l' →
  leaveWrite (leaves (store r) !! id) l'.
Proof.
  destruct 1 as [st fl call|st fl user i leave Hread|st fl1 fl2 i leave
                |st fl user body sid Hcheck|st fl1 fl2 sid method
                |st fl user body i lastLog Hcheck|st fl1 fl2 i lastLog method];
    simpl.
  - apply serve_leaveWrite.
  - intros ->. constructor.
  - unfold cancelMyLeaveRequest_save.
    destruct (Leave.preSave leave); [simpl; intros ->; constructor|].
    destruct (leaves st !! i) as [stored|] eqn:Hstored;
      [|simpl; intros ->; constructor].
    simpl. intros [[<- <-]|[Hne ->]]%lookup_insert_Some; [|constructor].
    rewrite Hstored. constructor.
  - intros ->. constructor.
  - unfold markEntry_create. destruct (negb _); simpl; intros ->; constructor.
  - intros ->. constructor.
  - unfold markExit_save. destruct (negb _);
      [simpl; intros ->; constructor|].
    destruct (entryExits st !! i); simpl; intros ->; constructor.
Qed.

(** A step never removes a request. *)
Lemma runStep_leaves_kept env r r' id l :
  runStep env r r' →
  leaves (store r) !! id = Some l → is_Some (leaves (store r') !! id).
Proof.
  destruct 1 as [st fl call|st fl user i leave Hread|st fl1 fl2 i leave
                |st fl user body sid Hcheck|st fl1 fl2 sid method
                |st fl user body i lastLog Hcheck|st fl1 fl2 i lastLog method];
    simpl; intros Hl.
  - by eapply serve_leaves_kept.
  - by eexists.
  - unfold cancelMyLeaveRequest_save.
    destruct (Leave.preSave leave); [by eexists|].
    destruct (leaves st !! i) as [stored|]; [|by eexists]. simpl.
    destruct (decide (i = id)) as [->|Hne].
    + rewrite lookup_insert_eq. by eexists.
    + rewrite lookup_insert_ne by done. by eexists.
  - by eexists.
  - unfold markEntry_create. destruct (negb _); by eexists.
  - by eexists.
  - unfold markExit_save. destruct (negb _); [by eexists|].
    destruct (entryExits st !! i); by eexists.
Qed.

(** X1.  Whatever step the server makes, handlers overlapping or not, a
    stored request stays stored under its id with the same student,
    reason, type, dates and creation time, and its history is only
    extended.  Its status stays, with the whole document unchanged; or it
    moves from PendingParent to ApprovedByParent or RejectedByParent, or
    from ApprovedByParent to Approved or Rejected, by a decision whose
    write tests the status it replaces; or it is set to Cancelled, with
    the rest of the document unchanged, by the save of a cancellation,
    which tests the status only when it loads the request: a cancellation
    that loaded the request while it was pending and saves after a parent
    or a warden has decided leaves a Cancelled request with that decision
    in its history. *)
Theorem leave_request_evolution
    (env : Env) (r r' : Running) (id : ObjectId) (l : Leave.doc) :
  runStep env r r' →
  leaves (store r) !! id = Some l →
  ∃ l', leaves (store r') !! id = Some l'
        ∧ Leave.studentId l' = Leave.studentId l
        ∧ Leave.reason l' = Leave.reason l
        ∧ Leave.type l' = Leave.type l
        ∧ Leave.outDate l' = Leave.outDate l
        ∧ Leave.inDate l' = Leave.inDate l
        ∧ Leave.createdAt l' = Leave.createdAt l
        ∧ Leave.statusHistory l `prefix_of` Leave.statusHistory l'
        ∧ (l' = l
           ∨ leaveTransition (Leave.status l) (Leave.status l')
           ∨ l' = Leave.setStatus Leave.Cancelled l).
Proof.
  intros Hstep Hl.
  destruct (runStep_leaves_kept env r r' id l Hstep Hl) as [l' Hl'].
  exists l'. split; [done|].
  apply (runStep_leaveWrite env r r' id l' Hstep) in Hl'. rewrite Hl in Hl'.
  inversion Hl' as [l0| |l0 approve uid t rej Hs|l0 approve uid t rej Hs
                   |l0]; subst; simpl.
  - split_and!; try done. by left.
  - split_and!; try done; [by apply prefix_app_r|].
    right. left. rewrite Hs. by destruct approve.
  - split_and!; try done; [by apply prefix_app_r|].
    right. left. rewrite Hs. by destruct approve.
  - split_and!; try done. by right; right.
Qed.

Lemma leave_request_evolution_witness :
  let st1 := serve Sample.env Sample.hostel
               (Mutation (ParentApproveOrReject Sample.ravi 1
                            (mkDecisionBody "Approved" None))) in
  let loaded := Leave.setStatus Leave.Cancelled Sample.leave1 in
  cancelMyLeaveRequest_read Sample.hostel Sample.asha 1 = inr loaded
  ∧ ∃ l', leaves (cancelMyLeaveRequest_save st1 1 loaded).1 !! 1%nat = Some l'
          ∧ Leave.status l' = Leave.Cancelled
          ∧ Leave.parentApprovalStatus l' = Some Leave.PApproved
          ∧ length (Leave.statusHistory l') = 2%nat.
Proof.
  intros st1 loaded. split; [reflexivity|].
  destruct (leave_request_evolution Sample.env
              (mkRunning st1 ([] ++ CancelSave 1 loaded :: []))
              (mkRunning (cancelMyLeaveRequest_save st1 1 loaded).1 ([] ++ []))
              1%nat
              (Leave.applyParentDecision Leave.ApprovedByParent
                 Leave.PApproved 20 (now Sample.env) None
                 (Leave.mkEntry Leave.ApprovedByParent (Some 20%nat) parent
                                None (now Sample.env))
                 Sample.leave1))
    as (l' & Hl' & _); [apply run_cancel_save|reflexivity|].
  exists l'. split; [exact Hl'|].
  vm_compute in Hl'. injection Hl' as <-. by split_and!.
Defined.

Lemma leaveWrite_coherent o l' :
  leaveWrite o l' →
  (∀ l, o = Some l → leaveCoherent l) →
  leaveCoherent l'.
Proof.
  intros Hw Hold.
  inversion Hw as [l0| |l0 approve uid t rej Hs|l0 approve uid t rej Hs
                  |l0]; subst.
  - by apply Hold.
  - split; [done|]. exists Leave.PendingParent. split; [by left|].
    simpl. by repeat split.
  - destruct (Hold l0 eq_refl) as [Hd (s & [Hst|Hst] & Hc)];
      [|congruence].
    rewrite Hs in Hst. subst s. split; [done|].
    unfold leaveShape in Hc.
    destruct (Leave.statusHistory l0) as [|s0 [|? ?]] eqn:Hh; try done.
    destruct Hc as (Hsub & _ & _ & Hby & Hat).
    exists (if approve then Leave.ApprovedByParent else Leave.RejectedByParent).
    split; [by left|]. unfold leaveShape. simpl. rewrite Hh. simpl.
    destruct approve; simpl; repeat split; simpl; eauto;
      first [apply Hsub | by eexists].
  - destruct (Hold l0 eq_refl) as [Hd (s & [Hst|Hst] & Hc)];
      [|congruence].
    rewrite Hs in Hst. subst s. split; [done|].
    unfold leaveShape in Hc.
    destruct (Leave.statusHistory l0) as [|s0 [|p [|? ?]]] eqn:Hh; try done.
    destruct Hc as (Hsub & Hpar & Hpst & _ & _ & Hat).
    exists (if approve then Leave.Approved else Leave.Rejected).
    split; [by left|]. unfold leaveShape. simpl. rewrite Hh. simpl.
    destruct approve; simpl; repeat split; simpl; eauto;
      first [apply Hsub | apply Hpar | by eexists].
  - destruct (Hold l0 eq_refl) as [Hd (s & _ & Hc)]. split; [done|].
    exists s. split; [by right|]. exact Hc.
Qed.

(** X2.  If the stored requests are coherent to begin with (none stored, for
    one), they are coherent in every state the server reaches, handlers
    overlapping or not: the scheduled-out date is before the scheduled-in
    date, and the history and the decision fields agree with the status,
    or, for a Cancelled request, with the status it had when the
    cancellation was saved.  A PendingParent request has the one
    submission entry and no decision recorded; an ApprovedByParent or
    RejectedByParent request has the submission and the parent's entry,
    with the matching parentApprovalStatus and decision time; an Approved
    or Rejected request has the three entries of student, parent and
    warden, its approvedBy is the deciding warden, and its approvedAt is
    the warden's decision time when Approved and unset when Rejected; no
    request has status Pending. *)
Theorem leave_requests_coherent (init : State) (r : Running) :
  map_Forall (λ _, leaveCoherent) (leaves init) →
  runs init r →
  map_Forall (λ _, leaveCoherent) (leaves (store r)).
Proof.
  intros Hinit Hruns. induction Hruns as [|env r r' _ IH Hstep]; [done|].
  intros id l' Hl'. apply (runStep_leaveWrite env r r' id l' Hstep) in Hl'.
  apply (leaveWrite_coherent _ _ Hl'). intros l Hl. by apply (IH id).
Qed.

Lemma leave_requests_coherent_witness :
  let loaded := Leave.setStatus Leave.Cancelled Sample.leave1 in
  let st1 := serve Sample.env Sample.hostel
               (Mutation (ParentApproveOrReject Sample.ravi 1
                            (mkDecisionBody "Approved" None))) in
  let st2 := (cancelMyLeaveRequest_save st1 1 loaded).1 in
  (Leave.status <$> leaves st2 !! 1%nat) = Some Leave.Cancelled
  ∧ (length ∘ Leave.statusHistory <$> leaves st2 !! 1%nat) = Some 2%nat
  ∧ map_Forall (λ _, leaveCoherent) (leaves st2).
Proof.
  intros loaded st1 st2. split; [reflexivity|]. split; [reflexivity|].
  apply (leave_requests_coherent Sample.hostel (mkRunning st2 ([] ++ []))).
  - unfold Sample.hostel. simpl.
    repeat apply map_Forall_insert_2; try apply map_Forall_empty.
    + split; [reflexivity|]. exists Leave.PendingParent.
      split; [by left|]. simpl. repeat split.
    + split; [reflexivity|]. exists Leave.Approved.
      split; [by left|]. simpl. repeat split; by eexists.
    + split; [reflexivity|]. exists Leave.RejectedByParent.
      split; [by left|]. simpl. repeat split; by eexists.
  - eapply runs_step;
      [eapply runs_step;
       [eapply (runs_step _ Sample.env);
        [apply runs_init
        |apply (run_cancel_read Sample.env Sample.hostel [] Sample.asha 1
                                loaded); reflexivity]
       |apply (run_whole Sample.env Sample.hostel [CancelSave 1 loaded]
                 (Mutation (ParentApproveOrReject Sample.ravi 1
                              (mkDecisionBody "Approved" None))))]
      |apply (run_cancel_save Sample.env st1 [] [] 1 loaded)].
Defined.

(** X3.  Cancel, for a caller with a student profile and a stored request
    whose student is stored: 403 when the request is another student's;
    400 when it is the caller's and its status is neither Pending nor
    PendingParent; in both cases the state is returned as received.  When
    it is the caller's and still pending, the save hook decides: with
    inDate before outDate the save fails, the answer is 500 and no request
    changes; otherwise the status becomes Cancelled and the answer is
    200. *)
Theorem cancelMyLeaveRequest_outcomes
    (st : State) (user : ReqUser) (id sid : ObjectId)
    (s s' : Student.doc) (l : Leave.doc) :
  Student.findOneByUserId (students st) (_id user) = Some (sid, s) →
  leaves st !! id = Some l →
  students st !! Leave.studentId l = Some s' →
  let r := cancelMyLeaveRequest st user id in
  let pending := Leave.status l ∈ [Leave.Pending; Leave.PendingParent] in
  (Leave.studentId l ≠ sid →
   r = (st, fail 403 "Not authorized to cancel this leave request"))
  ∧ (Leave.studentId l = sid → ¬ pending →
     r = (st, fail 400
            "Only pending requests (before parent/warden approval) can be cancelled"))
  ∧ (Leave.studentId l = sid → pending →
     Leave.inDate l < Leave.outDate l →
     httpStatus r.2 = 500%nat ∧ leaves r.1 = leaves st)
  ∧ (Leave.studentId l = sid → pending →
     Leave.outDate l ≤ Leave.inDate l →
     r = (set_leaves st (<[id := Leave.setStatus Leave.Cancelled l]> (leaves st)),
          ok 200 "Leave request cancelled successfully"
             (id, Leave.setStatus Leave.Cancelled l))).
Proof.
  intros Hs Hl Hstu r pending. subst r pending.
  unfold cancelMyLeaveRequest, Leave.save, Leave.preSave.
  rewrite Hs, Hl, Hstu. simpl. split_and!.
  - intros Hne. by rewrite (bool_decide_eq_false_2 _ Hne).
  - intros Heq Hnp.
    by rewrite (bool_decide_eq_true_2 _ Heq), (bool_decide_eq_false_2 _ Hnp).
  - intros Heq Hp Hlt.
    rewrite (bool_decide_eq_true_2 _ Heq), (bool_decide_eq_true_2 _ Hp).
    simpl. by rewrite bool_decide_eq_true_2 by done.
  - intros Heq Hp Hle.
    rewrite (bool_decide_eq_true_2 _ Heq), (bool_decide_eq_true_2 _ Hp).
    simpl. by rewrite bool_decide_eq_false_2 by lia.
Qed.

Lemma cancelMyLeaveRequest_outcomes_witness :
  cancelMyLeaveRequest Sample.hostel Sample.asha 2
  = (Sample.hostel,
     fail 400
       "Only pending requests (before parent/warden approval) can be cancelled")
  ∧ cancelMyLeaveRequest Sample.hostel Sample.bina 1
    = (Sample.hostel, fail 403 "Not authorized to cancel this leave request").
Proof.
  split.
  - apply (cancelMyLeaveRequest_outcomes Sample.hostel Sample.asha 2 1
             (Student.mk 10 "R-001" (Some "A1"))
             (Student.mk 10 "R-001" (Some "A1")) Sample.leave2
             eq_refl eq_refl eq_refl).
    + reflexivity.
    + intros Hin. apply (bool_decide_pack _) in Hin. vm_compute in Hin.
      exact Hin.
  - apply (cancelMyLeaveRequest_outcomes Sample.hostel Sample.bina 1 2
             (Student.mk 11 "R-002" None)
             (Student.mk 10 "R-001" (Some "A1")) Sample.leave1
             eq_refl eq_refl eq_refl).
    discriminate.
Defined.

(** X4.  When a parent's decision has been answered with 200, a second
    decision on the same request by the same parent (a double submit),
    whatever it decides, changes nothing: the state is returned as
    received and the answer is 409, or 403 when the student profile of the
    request is no longer stored. *)
Theorem parentApproveOrReject_second_call
    (env env' : Env) (st st1 : State) (user : ReqUser) (id : ObjectId)
    (body body' : DecisionBody) (r : LeaveResponse) :
  parentApproveOrReject env st user id body = (st1, r) →
  httpStatus r = 200%nat →
  d_status body' ∈ ["Approved"; "Rejected"] →
  ∃ l, leaves st !! id = Some l
       ∧ parentApproveOrReject env' st1 user id body'
         = (st1,
            match students st !! Leave.studentId l with
            | Some _ =>
                fail 409 "This outing request was already processed by parent"
            | None => fail 403 "Not authorized to approve this leave request"
            end).
Proof.
  unfold parentApproveOrReject at 1. unfold Leave.findOneAndUpdate.
  intros Hfirst Hcode Hdec'.
  destruct (negb (bool_decide (d_status body ∈ ["Approved"; "Rejected"])));
    [by simplify_eq/=|].
  destruct (Parent.findOneByUserId (parents st) (_id user)) as [[pid par]|]
    eqn:Hpar; [|by simplify_eq/=].
  destruct (leaves st !! id) as [l|] eqn:Hl; [|by simplify_eq/=].
  destruct (bool_decide (Leave.studentId l = Parent.studentId par)
            && bool_decide (Leave.status l = Leave.PendingParent)) eqn:Hm.
  2:{ destruct (students st !! Leave.studentId l);
        [case_bool_decide|]; by simplify_eq/=. }
  apply andb_true_iff in Hm as [Hsid%bool_decide_eq_true _].
  exists l. split; [done|]. simplify_eq/=.
  unfold parentApproveOrReject, Leave.findOneAndUpdate. simpl.
  rewrite (bool_decide_eq_true_2 _ Hdec'), Hpar. simpl.
  rewrite lookup_insert_eq. simpl. rewrite Hsid.
  rewrite (bool_decide_eq_true_2 (Parent.studentId par = _)) by done.
  rewrite (bool_decide_eq_false_2 (_ = Leave.PendingParent))
    by by case_bool_decide.
  simpl. by destruct (students st !! Parent.studentId par).
Qed.

Lemma parentApproveOrReject_second_call_witness :
  let first := parentApproveOrReject Sample.env Sample.hostel Sample.ravi 1
                 (mkDecisionBody "Approved" None) in
  parentApproveOrReject Sample.env first.1 Sample.ravi 1
    (mkDecisionBody "Rejected" (Some "changed my mind"))
  = (first.1, fail 409 "This outing request was already processed by parent").
Proof.
  intros first.
  destruct (parentApproveOrReject_second_call Sample.env Sample.env
              Sample.hostel first.1 Sample.ravi 1
              (mkDecisionBody "Approved" None)
              (mkDecisionBody "Rejected" (Some "changed my mind")) first.2)
    as (l & Hl & Hsecond).
  - reflexivity.
  - reflexivity.
  - apply (bool_decide_unpack _). vm_compute. exact I.
  - rewrite Hsecond. vm_compute in Hl. injection Hl as <-. reflexivity.
Defined.

(** X5.  A warden's decision on an ApprovedByParent request whose student
    profile is no longer stored is written and then answered with 500:
    the stored request has the new status and one more history entry, and
    a repeated decision is answered with 409. *)
Theorem updateLeaveStatus_commits_before_answer
    (env : Env) (st : State) (user : ReqUser) (id : ObjectId)
    (body : DecisionBody) (l : Leave.doc) :
  d_status body ∈ ["Approved"; "Rejected"] →
  leaves st !! id = Some l →
  Leave.status l = Leave.ApprovedByParent →
  students st !! Leave.studentId l = None →
  let r := updateLeaveStatus env st user id body in
  r.2 = fail 500 "Server error while updating leave request"
  ∧ (∃ l' e, leaves r.1 !! id = Some l'
             ∧ Leave.status l'
               = (if bool_decide (d_status body = "Approved")
                  then Leave.Approved else Leave.Rejected)
             ∧ Leave.statusHistory l' = Leave.statusHistory l ++ [e]
             ∧ Leave.h_role e = warden)
  ∧ (∀ env' user' body',
       d_status body' ∈ ["Approved"; "Rejected"] →
       updateLeaveStatus env' r.1 user' id body'
       = (r.1, fail 409 "This outing request was already processed by warden")).
Proof.
  intros Hdec Hl Hs Hpop r.
  assert (∃ l' e,
            r = (console_error (set_leaves st (<[id := l']> (leaves st)))
                               "Update leave status error:" NullDereference,
                 fail 500 "Server error while updating leave request")
            ∧ Leave.status l'
              = (if bool_decide (d_status body = "Approved")
                 then Leave.Approved else Leave.Rejected)
            ∧ Leave.statusHistory l' = Leave.statusHistory l ++ [e]
            ∧ Leave.h_role e = warden) as (l' & e & -> & Hst & Hh & He).
  { subst r. unfold updateLeaveStatus, Leave.findOneAndUpdate.
    rewrite (bool_decide_eq_true_2 _ Hdec), Hl. simpl.
    rewrite (bool_decide_eq_true_2 _ Hs).
    simpl. rewrite Hpop.
    do 2 eexists. split_and!; reflexivity. }
  simpl. split_and!; [done| |].
  - exists l', e. by rewrite lookup_insert_eq.
  - intros env' user' body' Hdec'.
    unfold updateLeaveStatus, Leave.findOneAndUpdate. simpl.
    rewrite (bool_decide_eq_true_2 _ Hdec'). simpl.
    rewrite lookup_insert_eq. simpl.
    by rewrite bool_decide_eq_false_2 by (rewrite Hst; by case_bool_decide).
Qed.

Lemma updateLeaveStatus_commits_before_answer_witness :
  let orphaned :=
    set_leaves Sample.hostel
      (<[4%nat := Leave.applyParentDecision Leave.ApprovedByParent
                    Leave.PApproved 21 700 None
                    (Leave.mkEntry Leave.ApprovedByParent (Some 21%nat) parent
                                   None 700)
                    (Leave.setStatus Leave.PendingParent Sample.leave3)]>
         (leaves Sample.hostel)) in
  let r := updateLeaveStatus Sample.env orphaned Sample.head_warden 4
             (mkDecisionBody "Approved" None) in
  httpStatus r.2 = 500%nat
  ∧ Leave.status <$> leaves r.1 !! 4%nat = Some Leave.Approved.
Proof.
  intros orphaned r.
  destruct (updateLeaveStatus_commits_before_answer Sample.env orphaned
              Sample.head_warden 4 (mkDecisionBody "Approved" None)
              (Leave.applyParentDecision Leave.ApprovedByParent
                 Leave.PApproved 21 700 None
                 (Leave.mkEntry Leave.ApprovedByParent (Some 21%nat) parent
                                None 700)
                 (Leave.setStatus Leave.PendingParent Sample.leave3)))
    as (Hans & (l' & e & Hl' & Hst & _) & _).
  - apply (bool_decide_unpack _). vm_compute. exact I.
  - reflexivity.
  - reflexivity.
  - reflexivity.
  - fold r in Hans, Hl'. split; [by rewrite Hans|].
    rewrite Hl'. simpl. by rewrite Hst.
Defined.

(** ** Reports and listings of requests *)

Lemma find_skip {A} (P : A → bool) (l1 l2 : list A) (x : A) :
  Forall (λ y, P y = false) l1 → P x = true →
  List.find P (l1 ++ x :: l2) = Some x.
Proof.
  intros Hl1 Hx. induction Hl1 as [|y l1 Hy _ IH]; simpl.
  - by rewrite Hx.
  - by rewrite Hy.
Qed.

Lemma find_none {A} (P : A → bool) (l : list A) :
  Forall (λ y, P y = false) l → List.find P l = None.
Proof. induction 1 as [|y l Hy _ IH]; simpl; [done|by rewrite Hy]. Qed.

Lemma getWardenDecisionTimestamp_last_entry_aux (l : Leave.doc) :
  let decided (e : Leave.HistoryEntry) : bool :=
    bool_decide (Leave.h_role e = warden)
    && bool_decide (Leave.h_status e ∈ [Leave.Approved; Leave.Rejected]) in
  (∀ h1 e h2,
     Leave.statusHistory l = h1 ++ e :: h2 →
     decided e = true → Forall (λ x, decided x = false) h2 →
     getWardenDecisionTimestamp l = Some (Leave.h_timestamp e))
  ∧ (Forall (λ x, decided x = false) (Leave.statusHistory l) →
     getWardenDecisionTimestamp l = Leave.approvedAt l).
Proof.
  intros decided. unfold getWardenDecisionTimestamp. split.
  - intros h1 e h2 Hh He Hh2. rewrite Hh.
    destruct (h1 ++ e :: h2) as [|x xs] eqn:Heq.
    { by destruct h1. }
    rewrite <- Heq. rewrite reverse_app, reverse_cons, <- (assoc_L (++)).
    simpl. rewrite (find_skip decided); [done| |done].
    by apply Forall_reverse.
  - intros Hnone. destruct (Leave.statusHistory l) as [|x xs] eqn:Heq; [done|].
    rewrite (find_none decided); [done|]. by apply Forall_reverse.
Qed.

(** X6.  [getWardenDecisionTimestamp] gives the timestamp of the last
    history entry written by a warden with status Approved or Rejected,
    whatever comes before it; when the history has no such entry it gives
    [approvedAt]. *)
Theorem getWardenDecisionTimestamp_last_entry (l : Leave.doc) :
  let decided (e : Leave.HistoryEntry) : bool :=
    bool_decide (Leave.h_role e = warden)
    && bool_decide (Leave.h_status e ∈ [Leave.Approved; Leave.Rejected]) in
  (∀ h1 e h2,
     Leave.statusHistory l = h1 ++ e :: h2 →
     decided e = true → Forall (λ x, decided x = false) h2 →
     getWardenDecisionTimestamp l = Some (Leave.h_timestamp e))
  ∧ (Forall (λ x, decided x = false) (Leave.statusHistory l) →
     getWardenDecisionTimestamp l = Leave.approvedAt l).
Proof. apply getWardenDecisionTimestamp_last_entry_aux. Qed.

Lemma getWardenDecisionTimestamp_last_entry_witness :
  getWardenDecisionTimestamp Sample.leave2 = Some 900
  ∧ getWardenDecisionTimestamp Sample.leave3 = None.
Proof.
  destruct (getWardenDecisionTimestamp_last_entry Sample.leave2) as [Hlast _].
  destruct (getWardenDecisionTimestamp_last_entry Sample.leave3) as [_ Hnone].
  split.
  - apply (Hlast [Sample.submitted 700;
                  Leave.mkEntry Leave.ApprovedByParent (Some 20%nat) parent
                                None 800]
                 (Leave.mkEntry Leave.Approved (Some 30%nat) warden None 900)
                 []); [reflexivity | reflexivity | constructor].
  - rewrite Hnone; [reflexivity|]. repeat constructor.
Defined.

(** X7.  After a warden's decision has been written, the export columns of
    the request show that decision and the time it was taken, for a
    rejection as well as for an approval. *)
Theorem exportWardenDecision_after_decision
    (env : Env) (st : State) (user : ReqUser) (id : ObjectId)
    (body : DecisionBody) (l : Leave.doc) :
  d_status body ∈ ["Approved"; "Rejected"] →
  leaves st !! id = Some l →
  Leave.status l = Leave.ApprovedByParent →
  ∃ l', leaves (updateLeaveStatus env st user id body).1 !! id = Some l'
        ∧ getWardenDecisionTimestamp l' = Some (now env)
        ∧ exportWardenDecision l' = (d_status body, Some (now env)).
Proof.
  intros Hdec Hl Hs.
  assert (∃ l' e,
            leaves (updateLeaveStatus env st user id body).1 !! id = Some l'
            ∧ Leave.statusHistory l' = Leave.statusHistory l ++ [e]
            ∧ Leave.h_role e = warden ∧ Leave.h_timestamp e = now env
            ∧ Leave.h_status e = Leave.status l'
            ∧ Leave.status l'
              = (if bool_decide (d_status body = "Approved")
                 then Leave.Approved else Leave.Rejected))
    as (l' & e & Hl' & Hh & Hrole & Ht & Hes & Hst).
  { unfold updateLeaveStatus, Leave.findOneAndUpdate.
    rewrite (bool_decide_eq_true_2 _ Hdec), Hl. simpl.
    rewrite (bool_decide_eq_true_2 _ Hs).
    destruct (students st !! _); simpl; rewrite lookup_insert_eq;
      do 2 eexists; split_and!; reflexivity. }
  exists l'. split; [done|].
  assert (bool_decide (Leave.h_role e = warden)
          && bool_decide (Leave.h_status e ∈ [Leave.Approved; Leave.Rejected])
          = true) as Hdecided.
  { rewrite (bool_decide_eq_true_2 _ Hrole). simpl.
    apply bool_decide_eq_true_2. rewrite Hes, Hst.
    case_bool_decide; [constructor|do 2 constructor]. }
  assert (getWardenDecisionTimestamp l' = Some (now env)) as Hts.
  { rewrite <- Ht.
    apply (proj1 (getWardenDecisionTimestamp_last_entry_aux l')
             (Leave.statusHistory l) e []); [done|done|constructor]. }
  split; [done|]. unfold exportWardenDecision. rewrite Hts, Hst.
  apply elem_of_cons in Hdec as [Ha|Hr%list_elem_of_singleton].
  - by rewrite Ha.
  - by rewrite Hr.
Qed.

Lemma exportWardenDecision_after_decision_witness :
  let st1 := (parentApproveOrReject Sample.env Sample.hostel Sample.ravi 1
                (mkDecisionBody "Approved" None)).1 in
  let later := mkEnv 1700000600000 "LOYWGQ0W" "K2M9QA" true in
  ∃ l', leaves (updateLeaveStatus later st1 Sample.head_warden 1
                  (mkDecisionBody "Rejected" (Some "exam week"))).1
          !! 1%nat = Some l'
        ∧ exportWardenDecision l' = ("Rejected", Some 1700000600000).
Proof.
  intros st1 later.
  destruct (exportWardenDecision_after_decision later st1 Sample.head_warden 1
              (mkDecisionBody "Rejected" (Some "exam week"))
              (Leave.applyParentDecision Leave.ApprovedByParent
                 Leave.PApproved 20 (now Sample.env) None
                 (Leave.mkEntry Leave.ApprovedByParent (Some 20%nat) parent
                                None (now Sample.env))
                 Sample.leave1))
    as (l' & Hl' & _ & Hexport).
  - apply (bool_decide_unpack _). vm_compute. exact I.
  - reflexivity.
  - reflexivity.
  - exists l'. split; [exact Hl' | exact Hexport].
Defined.

(** A sorted selection of a collection holds exactly the selected
    documents, each once. *)
Lemma selection_elem {A} (R : relation (nat * A)) `{!RelDecision R}
    (P : nat * A → Prop) `{!∀ x, Decision (P x)} (c : gmap nat A) id x :
  (id, x) ∈ merge_sort R (filter P (map_to_list c)) ↔ c !! id = Some x ∧ P (id, x).
Proof.
  rewrite merge_sort_Permutation, list_elem_of_filter, elem_of_map_to_list.
  tauto.
Qed.

Lemma selection_NoDup {A} (R : relation (nat * A)) `{!RelDecision R}
    (P : nat * A → Prop) `{!∀ x, Decision (P x)} (c : gmap nat A) :
  NoDup (merge_sort R (filter P (map_to_list c))).*1.
Proof.
  rewrite merge_sort_Permutation.
  eapply sublist_NoDup; [apply (NoDup_fst_map_to_list c)|].
  apply fmap_sublist, sublist_filter.
Qed.

Global Instance leaveNewerFirst_total : Total leaveNewerFirst.
Proof. intros a b. unfold leaveNewerFirst. lia. Qed.

Global Instance leaveNewerFirst_trans : Transitive leaveNewerFirst.
Proof. intros a b c. unfold leaveNewerFirst. lia. Qed.

Lemma formatLeaveForWarden_Some st p f :
  formatLeaveForWarden st p = Some f →
  fl_id f = p.1 ∧ fl_leave f = p.2
  ∧ ∃ s, students st !! Leave.studentId p.2 = Some s
         ∧ fl_student f = Some (None, Student.room s).
Proof.
  unfold formatLeaveForWarden. intros Hf.
  repeat case_match; simplify_eq/=. eauto 10.
Qed.

Lemma formatLeaveForWarden_None st p :
  formatLeaveForWarden st p = None ↔
  students st !! Leave.studentId p.2 = None.
Proof. unfold formatLeaveForWarden. by case_match. Qed.

Lemma Forall2_projection {A B} (f : A → option B) (g : B → A) l k :
  (∀ x y, f x = Some y → g y = x) →
  Forall2 (λ x y, f x = Some y) l k → g <$> k = l.
Proof.
  intros Hg. induction 1 as [|x y l k Hxy _ IH]; [done|].
  rewrite fmap_cons, IH. f_equal. by apply Hg.
Qed.

(** X8.  The warden's listing.  When the student profile of every
    selected request is stored, the answer is 200 and lists exactly the
    stored requests that pass the status filter, each once, a newer
    request before an older one, each with the student's room and without
    a name, whether or not the student's user is stored.  When one
    selected request refers to a student profile that is no longer
    stored, the whole listing is answered with 500. *)
Theorem getAllLeaveRequests_listing (st : State) (status : option string) :
  let selected id l :=
    leaves st !! id = Some l ∧ statusFilter status l = true in
  ((∀ id l, selected id l →
            is_Some (students st !! Leave.studentId l)) →
   ∃ data,
     getAllLeaveRequests st status = (st, okData data)
     ∧ (∀ id l, selected id l ↔
                ∃ f, f ∈ data ∧ fl_id f = id ∧ fl_leave f = l)
     ∧ NoDup (fl_id <$> data)
     ∧ StronglySorted
         (λ a b, Leave.createdAt (fl_leave b) ≤ Leave.createdAt (fl_leave a))
         data
     ∧ (∀ f, f ∈ data →
          ∃ s, students st !! Leave.studentId (fl_leave f) = Some s
               ∧ fl_student f = Some (None, Student.room s)))
  ∧ ((∃ id l, selected id l
              ∧ students st !! Leave.studentId l = None) →
     getAllLeaveRequests st status
     = (console_error st "Get leaves error:" NullDereference,
        fail 500 "Server error while fetching leave requests")).
Proof.
  intros selected. unfold getAllLeaveRequests.
  set (sel := merge_sort leaveNewerFirst
                (filter (λ p, statusFilter status p.2 = true)
                        (map_to_list (leaves st)))).
  assert (∀ id l, (id, l) ∈ sel ↔ selected id l) as Hsel.
  { intros id l. unfold sel. by rewrite selection_elem. }
  split.
  - intros Hpop.
    destruct (mapM (formatLeaveForWarden st) sel) as [data|] eqn:Hm.
    2:{ apply mapM_None in Hm. apply Exists_exists in Hm as ([id l] & Hin & Hn).
        apply formatLeaveForWarden_None in Hn.
        destruct (Hpop id l (proj1 (Hsel id l) Hin)) as [? Hs]. simpl in Hn.
        congruence. }
    exists data. split; [done|].
    apply mapM_Some in Hm.
    assert ((λ f, (fl_id f, fl_leave f)) <$> data = sel) as Hproj.
    { apply (Forall2_projection (formatLeaveForWarden st)); [|done].
      intros [i l] f (Hi & Hl & _)%formatLeaveForWarden_Some. simpl in *.
      by rewrite Hi, Hl. }
    split_and!.
    + intros id l. rewrite <- Hsel, <- Hproj, list_elem_of_fmap. split.
      * intros (f & [= -> ->] & Hin). by exists f.
      * intros (f & Hin & <- & <-). by exists f.
    + assert (fl_id <$> data = sel.*1) as ->.
      { rewrite <- Hproj, <- list_fmap_compose. by apply list_fmap_ext. }
      apply selection_NoDup.
    + assert (StronglySorted leaveNewerFirst
                ((λ f, (fl_id f, fl_leave f)) <$> data)) as Hsorted.
      { rewrite Hproj. apply StronglySorted_merge_sort; apply _. }
      clear -Hsorted. induction data as [|f data IH]; [constructor|].
      rewrite fmap_cons in Hsorted.
      apply StronglySorted_inv in Hsorted as [Htl Hhd].
      constructor; [by apply IH|].
      rewrite Forall_fmap in Hhd. exact Hhd.
    + intros f Hin.
      destruct (proj1 (list_elem_of_lookup _ _) Hin) as [n Hn].
      destruct (Forall2_lookup_r _ _ _ _ _ Hm Hn) as (p & _ & Hf).
      apply formatLeaveForWarden_Some in Hf as (_ & <- & Hs). exact Hs.
  - intros (id & l & Hs & Hn).
    rewrite (mapM_None_2 (formatLeaveForWarden st) sel); [done|].
    apply Exists_exists. exists (id, l). split; [by apply Hsel|].
    by apply formatLeaveForWarden_None.
Qed.

Lemma getAllLeaveRequests_listing_witness :
  httpStatus (getAllLeaveRequests Sample.hostel (Some "RejectedByParent")).2
  = 500%nat
  ∧ ∃ data, getAllLeaveRequests Sample.hostel (Some "Approved")
            = (Sample.hostel, okData data)
            ∧ fl_id <$> data = [2%nat].
Proof.
  destruct (getAllLeaveRequests_listing Sample.hostel
              (Some "RejectedByParent")) as [_ Hfail].
  destruct (getAllLeaveRequests_listing Sample.hostel (Some "Approved"))
    as [Hok _].
  split.
  - rewrite Hfail; [reflexivity|].
    exists 3%nat, Sample.leave3. repeat split; reflexivity.
  - destruct Hok as (data & Heq & _).
    + intros id l [Hl Hf].
      destruct (decide (id = 2%nat)) as [->|Hne].
      * vm_compute in Hl. injection Hl as <-. by eexists.
      * exfalso. unfold Sample.hostel in Hl. simpl in Hl.
        repeat (apply lookup_insert_Some in Hl as [[<- <-]|[_ Hl]];
                [by (done || vm_compute in Hf)|]).
        by rewrite lookup_empty in Hl.
    + exists data. split; [exact Heq|].
      vm_compute in Heq. injection Heq as <-. reflexivity.
Defined.

(** X9.  A student's own listing never fails once the caller has a
    profile: the answer is 200 and lists exactly the stored requests of the
    caller's student, each once, a newer request before an older one, with
    no request of another student; a caller without a profile gets 404.
    The state is returned as received. *)
Theorem getMyLeaveRequests_listing (st : State) (user : ReqUser) :
  (Student.findOneByUserId (students st) (_id user) = None →
   getMyLeaveRequests st user = (st, fail 404 "Student profile not found"))
  ∧ (∀ sid s,
       Student.findOneByUserId (students st) (_id user) = Some (sid, s) →
       ∃ data,
         getMyLeaveRequests st user = (st, okData data)
         ∧ (∀ id l, leaves st !! id = Some l ∧ Leave.studentId l = sid ↔
                    ∃ f, f ∈ data ∧ fl_id f = id ∧ fl_leave f = l)
         ∧ NoDup (fl_id <$> data)
         ∧ StronglySorted
             (λ a b, Leave.createdAt (fl_leave b) ≤ Leave.createdAt (fl_leave a))
             data).
Proof.
  unfold getMyLeaveRequests. split; [by intros ->|].
  intros sid s ->. eexists. split; [reflexivity|].
  set (sel := merge_sort leaveNewerFirst
                (filter (λ p, Leave.studentId p.2 = sid)
                        (map_to_list (leaves st)))).
  split_and!.
  - intros id l.
    rewrite <- (selection_elem leaveNewerFirst
                  (λ p, Leave.studentId p.2 = sid) (leaves st) id l).
    fold sel. split.
    + intros Hin.
      exists (mkFormattedLeave id l None (approvedByName st l)).
      split; [|done]. apply list_elem_of_fmap. by exists (id, l).
    + intros (f & Hin & <- & <-).
      apply list_elem_of_fmap in Hin as ([i l0] & -> & Hin). done.
  - rewrite <- list_fmap_compose.
    rewrite (list_fmap_ext _ fst sel) by done.
    apply selection_NoDup.
  - assert (StronglySorted leaveNewerFirst sel) as Hsorted
      by (apply StronglySorted_merge_sort; apply _).
    eapply StronglySorted_fmap; [|exact Hsorted]. by intros [??] [??].
Qed.

Lemma getMyLeaveRequests_listing_witness :
  ∃ data, getMyLeaveRequests Sample.hostel Sample.asha
          = (Sample.hostel, okData data)
          ∧ NoDup (fl_id <$> data).
Proof.
  destruct (proj2 (getMyLeaveRequests_listing Sample.hostel Sample.asha)
              1%nat (Student.mk 10 "R-001" (Some "A1")) eq_refl)
    as (data & Heq & _ & Hnd & _).
  exists data. split; [exact Heq | exact Hnd].
Defined.

(** ** Fees *)

Lemma Fee_write_inr_free c id fee c' r :
  Fee.write c id fee = inr c' → Fee.receiptNumber fee = Some r →
  ¬ Fee.receiptTaken c id r.
Proof.
  unfold Fee.write. intros Hw Hr. rewrite Hr in Hw.
  by case_bool_decide.
Qed.

Lemma Fee_write_unique c id fee c' :
  receiptsUnique c → Fee.write c id fee = inr c' → receiptsUnique c'.
Proof.
  intros Hu Hw.
  pose proof (λ r, Fee_write_inr_free c id fee c' r Hw) as Hfree.
  apply Fee_write_inr in Hw as ->.
  intros i j d d' r Hi Hj Hd Hd'.
  apply lookup_insert_Some in Hi as [[<- <-]|[Hni Hi]];
    apply lookup_insert_Some in Hj as [[<- <-]|[Hnj Hj]]; try done.
  - destruct (Hfree r Hd). exists j, d'. split; [done|]. by split.
  - destruct (Hfree r Hd'). exists i, d. split; [done|]. by split.
  - by apply (Hu i j d d' r).
Qed.

Lemma saveAll_unique l : ∀ c,
  receiptsUnique c → receiptsUnique (saveAll c l).1.
Proof.
  induction l as [|[i d] r IH]; [done|]. intros c Hu. simpl.
  destruct (Fee.write c i d) as [e|c'] eqn:Hw; simpl.
  - by apply IH.
  - apply IH. by eapply Fee_write_unique.
Qed.

(** What a call does to the fee collection: nothing, one accepted write,
    the saves of a settlement, or one deletion. *)
Lemma serve_fees env st call :
  fees (serve env st call) = fees st
  ∨ (∃ id fee, Fee.write (fees st) id fee = inr (fees (serve env st call)))
  ∨ (∃ l, fees (serve env st call) = (saveAll (fees st) l).1)
  ∨ (∃ id, fees (serve env st call) = delete id (fees st)).
Proof.
  destruct call as [rq|i|user i| |status|user|user]; simpl.
  - destruct rq as [user body|user i body|user i body|user i|user body
                   |body|i body|user i rn|user body|user body]; simpl.
    + left. unfold createLeaveRequest. repeat case_match; done.
    + left. unfold parentApproveOrReject. repeat case_match; done.
    + left. unfold updateLeaveStatus. repeat case_match; done.
    + left. unfold cancelMyLeaveRequest. repeat case_match; done.
    + destruct (payMyFees_fees env st user body) as [->|(sid & pb & ->)];
        [by left|]. right. right. left. by eexists.
    + unfold createFee. repeat case_match; simpl; try (by left).
      all: right; left; eauto.
    + unfold updateFee. repeat case_match; simpl; try (by left).
      all: right; left; eauto.
    + unfold markFeePaid. repeat case_match; simpl; try (by left).
      all: right; left; eauto.
    + left. unfold markEntry. repeat case_match; done.
    + left. unfold markExit. repeat case_match; done.
  - unfold deleteFee. case_match; simpl; [|by left].
    right. right. right. by eexists.
  - left. unfold getFeeById. repeat case_match; done.
  - left. unfold getPaymentSummary. case_match; done.
  - left. unfold getAllLeaveRequests. case_match; done.
  - left. unfold getMyLeaveRequests. repeat case_match; done.
  - left. unfold getMyLogs. repeat case_match; done.
Qed.

(** X10.  Receipt numbers stay unique: when no two stored fees hold the
    same receipt number, no call (creation, update, manual payment,
    settlement, deletion, or any other) leads to a state where two fees
    do. *)
Theorem receipt_numbers_stay_unique (init st : State) :
  receiptsUnique (fees init) →
  served init st →
  receiptsUnique (fees st).
Proof.
  intros Hinit Hserved. induction Hserved as [|env st call _ IH]; [done|].
  destruct (serve_fees env st call)
    as [->|[(id & fee & Hw)|[(l & ->)|(id & ->)]]].
  - done.
  - by eapply Fee_write_unique.
  - by apply saveAll_unique.
  - intros i j d d' r [_ Hi]%lookup_delete_Some [_ Hj]%lookup_delete_Some.
    by apply IH.
Qed.

Lemma receipt_numbers_stay_unique_witness :
  let st :=
    serve Sample.env
      (serve Sample.env Sample.hostel
         (Mutation (MarkFeePaid Sample.head_warden 3 (Some "R-77"))))
      (Mutation (UpdateFee 1 (mkUpdateFeeBody None None None (Some "R-77")))) in
  receiptsUnique (fees st)
  ∧ Fee.receiptNumber <$> fees st !! 1%nat = Some None.
Proof.
  intros st. split.
  - apply (receipt_numbers_stay_unique Sample.hostel st).
    + intros i j d d' r Hi Hj Hd Hd'. exfalso.
      unfold Sample.hostel in Hi. simpl in Hi.
      repeat (apply lookup_insert_Some in Hi as [[<- <-]|[_ Hi]];
              [discriminate|]).
      by rewrite lookup_empty in Hi.
    + do 2 apply served_step. apply served_init.
  - reflexivity.
Defined.




Lemma payerStudent_set_fees st c user :
  payerStudent (set_fees st c) user = payerStudent st user.
Proof. done. Qed.



Lemma saveAll_error l : ∀ c e, (saveAll c l).2 = Some e → e = DuplicateKey.
Proof.
  induction l as [|[i d] r IH]; [done|]. intros c e. simpl.
  destruct (Fee.write c i d) as [e'|c'] eqn:Hw; simpl.
  - intros [= <-]. unfold Fee.write in Hw. by repeat case_match; simplify_eq.
  - apply IH.
Qed.

(** A save is refused when a fee that is not saved again holds its receipt
    number. *)
Lemma saveAll_blocked l : ∀ c i d j d' r,
  c !! i = Some d → Fee.receiptNumber d = Some r → i ∉ l.*1 →
  (j, d') ∈ l → j ≠ i → Fee.receiptNumber d' = Some r →
  (saveAll c l).2 ≠ None.
Proof.
  induction l as [|[k dk] l IH]; intros c i d j d' r Hi Hr Hni Hin Hne Hr'.
  { by apply elem_of_nil in Hin. }
  apply not_elem_of_cons in Hni as [Hik Hni]. simpl in *.
  destruct (Fee.write c k dk) as [e|c'] eqn:Hw; [done|].
  apply elem_of_cons in Hin as [[= <- <-]|Hin].
  - destruct (Fee_write_inr_free _ _ _ _ r Hw Hr').
    exists i, d. by split_and!.
  - apply Fee_write_inr in Hw as ->.
    apply (IH _ i d j d' r); try done. by rewrite lookup_insert_ne.
Qed.

Lemma saveAll_shared_receipt l : ∀ c i d j d' r,
  NoDup l.*1 → (i, d) ∈ l → (j, d') ∈ l → i ≠ j →
  Fee.receiptNumber d = Some r → Fee.receiptNumber d' = Some r →
  (saveAll c l).2 ≠ None.
Proof.
  induction l as [|[k dk] l IH]; intros c i d j d' r Hnd Hi Hj Hne Hr Hr'.
  { by apply elem_of_nil in Hi. }
  rewrite fmap_cons in Hnd. apply NoDup_cons in Hnd as [Hk Hnd]. simpl in *.
  destruct (Fee.write c k dk) as [e|c'] eqn:Hw; [done|].
  apply Fee_write_inr in Hw as ->.
  apply elem_of_cons in Hi as [[= <- <-]|Hi];
    apply elem_of_cons in Hj as [[= <- <-]|Hj]; try done.
  - apply (saveAll_blocked l _ i d j d' r); try done.
    by rewrite lookup_insert_eq.
  - apply (saveAll_blocked l _ j d' i d r); try done.
    by rewrite lookup_insert_eq.
  - by apply (IH _ i d j d' r).
Qed.

(** X13.  A settlement that has passed its guards is answered with 500
    (duplicate key) whenever two of the Pending fees have no receipt
    number of their own: both would get the one generated receipt number,
    which the unique index accepts only once. *)
Theorem payMyFees_shared_receipt_rejected
    (env : Env) (st : State) (user : ReqUser) (body : PayBody)
    (amount : Z) (sid i j : ObjectId) (fee fee' : Fee.doc) :
  pay_amount body = Some amount → 0 < amount →
  payerStudent st user = inr sid →
  amount = totalDue (Fee.findPending (fees st) sid) →
  (i, fee) ∈ Fee.findPending (fees st) sid →
  (j, fee') ∈ Fee.findPending (fees st) sid →
  i ≠ j →
  truthy (Fee.receiptNumber fee) = false →
  truthy (Fee.receiptNumber fee') = false →
  (payMyFees env st user body).2 = failWith 500 (ErrorMessage DuplicateKey).
Proof.
  intros Ha Hpos Hs Hsum Hi Hj Hne Hf Hf'.
  rewrite (payMyFees_settling env st user body amount sid); try done.
  2:{ by apply elem_of_not_nil in Hi. }
  cbv zeta.
  pose proof (saveAll_shared_receipt
                (settlementWrites (now env) (generateReceiptNumber env)
                   (if bool_decide (role user = parent) then parent else student)
                   (_id user) (Fee.findPending (fees st) sid))
                (fees st) i
                (markPaid (now env) (generateReceiptNumber env)
                   (if bool_decide (role user = parent) then parent else student)
                   (_id user) fee)
                j
                (markPaid (now env) (generateReceiptNumber env)
                   (if bool_decide (role user = parent) then parent else student)
                   (_id user) fee')
                (trim (generateReceiptNumber env))) as Hshared.
  pose proof (saveAll_error
                (settlementWrites (now env) (generateReceiptNumber env)
                   (if bool_decide (role user = parent) then parent else student)
                   (_id user) (Fee.findPending (fees st) sid))
                (fees st)) as Herr.
  destruct (saveAll _ _) as [c [e|]]; simpl in *.
  - by rewrite (Herr e eq_refl).
  - destruct Hshared; try done.
    + rewrite settlementWrites_fst. apply findPending_NoDup.
    + apply settlementWrites_elem. by exists fee.
    + apply settlementWrites_elem. by exists fee'.
    + unfold js_or, truthy in *. f_equal. f_equal.
      destruct (Fee.receiptNumber fee) as [s|]; [|done].
      case_bool_decide; [done|]. by simpl in Hf.
    + unfold js_or, truthy in *. f_equal. f_equal.
      destruct (Fee.receiptNumber fee') as [s|]; [|done].
      case_bool_decide; [done|]. by simpl in Hf'.
Qed.

Lemma payMyFees_shared_receipt_rejected_witness :
  (payMyFees Sample.env Sample.hostel Sample.ravi
             (mkPayBody (Some 800) (Some "Card") (Some "TXN-1"))).2
  = failWith 500 (ErrorMessage DuplicateKey).
Proof.
  apply (payMyFees_shared_receipt_rejected Sample.env Sample.hostel
           Sample.ravi (mkPayBody (Some 800) (Some "Card") (Some "TXN-1"))
           800 1%nat 1%nat 2%nat Sample.fee1 Sample.fee2);
    try reflexivity; try lia.
  - apply findPending_elem. split_and!; reflexivity.
  - apply findPending_elem. split_and!; reflexivity.
Defined.

(** X14.  A student whose Pending fees add up to 0 cannot settle them:
    every settlement request, whatever its amount, is answered with 400 and
    changes nothing. *)
Theorem payMyFees_zero_due_stuck
    (env : Env) (st : State) (user : ReqUser) (body : PayBody)
    (sid : ObjectId) :
  payerStudent st user = inr sid →
  Fee.findPending (fees st) sid ≠ [] →
  totalDue (Fee.findPending (fees st) sid) = 0 →
  (payMyFees env st user body).1 = st
  ∧ httpStatus (payMyFees env st user body).2 = 400%nat.
Proof.
  intros Hs Hne Hzero. unfold payMyFees. rewrite Hs.
  destruct (pay_amount body) as [amount|]; [|done].
  case_bool_decide; [done|].
  destruct (Fee.findPending (fees st) sid) as [|p ps] eqn:Hp; [done|].
  cbv iota. rewrite Hzero.
  by rewrite bool_decide_eq_false_2 by lia.
Qed.

Lemma payMyFees_zero_due_stuck_witness :
  let waived :=
    (updateFee Sample.env Sample.hostel 3
       (mkUpdateFeeBody (Some 0) None None None)).1 in
  httpStatus (payMyFees Sample.env waived Sample.bina
                (mkPayBody (Some 700) None None)).2 = 400%nat
  ∧ httpStatus (payMyFees Sample.env waived Sample.bina
                  (mkPayBody (Some 0) None None)).2 = 400%nat.
Proof.
  intros waived. split.
  - apply (payMyFees_zero_due_stuck Sample.env waived Sample.bina
             (mkPayBody (Some 700) None None) 2%nat eq_refl);
      [vm_compute; discriminate | reflexivity].
  - apply (payMyFees_zero_due_stuck Sample.env waived Sample.bina
             (mkPayBody (Some 0) None None) 2%nat eq_refl);
      [vm_compute; discriminate | reflexivity].
Defined.





(** X16.  One fee whose student is no longer stored makes the whole
    payment summary fail with 500 as soon as there is a student to report
    on; with no student stored the answer is 200 with no row. *)
Theorem getPaymentSummary_orphan_fee (st : State) :
  ((∃ id fee, fees st !! id = Some fee
              ∧ students st !! Fee.studentId fee = None) →
   students st ≠ ∅ →
   getPaymentSummary st
   = (console_error st "Error fetching payment summary:" NullDereference,
      failWith 500 (ErrorMessage NullDereference)))
  ∧ (students st = ∅ → getPaymentSummary st = (st, okData [])).
Proof.
  unfold getPaymentSummary. split.
  - intros (id & fee & Hfee & Horphan) Hne.
    rewrite mapM_None_2; [done|].
    destruct (merge_sort byRollNumber (map_to_list (students st)))
      as [|p ps] eqn:Hsorted.
    { destruct Hne. apply map_to_list_empty_iff.
      apply Permutation_nil_r. by rewrite <- Hsorted, merge_sort_Permutation. }
    apply Exists_cons_hd. unfold summaryRow, studentFeesOf.
    rewrite mapM_None_2; [done|].
    apply Exists_exists. exists (id, fee).
    split; [by apply elem_of_map_to_list|]. simpl. by rewrite Horphan.
  - intros ->. by rewrite map_to_list_empty.
Qed.

Lemma getPaymentSummary_orphan_fee_witness :
  let orphaned := (createFee Sample.env
                     (set_fees Sample.hostel
                        (<[9%nat := Fee.mk 9 250 "Term 1" Fee.Pending None
                                           None None None 50]>
                           (fees Sample.hostel)))
                     (mkCreateFeeBody (Some 1%nat) (Some 100) (Some "Term 3")
                                      None)).1 in
  httpStatus (getPaymentSummary orphaned).2 = 500%nat.
Proof.
  intros orphaned.
  rewrite (proj1 (getPaymentSummary_orphan_fee orphaned)); [reflexivity| |].
  - exists 9%nat, (Fee.mk 9 250 "Term 1" Fee.Pending None None None None 50).
    split; reflexivity.
  - intros Hempty.
    assert (students orphaned !! 1%nat = None) as Hl
      by (rewrite Hempty; apply lookup_empty).
    vm_compute in Hl. discriminate.
Defined.

(** ** Reading and deleting one fee *)

(** X17.  Who may read a fee: the answer of getFeeById carries data exactly
    when the fee is stored and, for a caller with the student role, the fee
    belongs to the caller's own profile; the data is then the stored fee.
    Every other role, a parent included, reads any stored fee.  A student
    asking for a stored fee of someone else gets 403 when the fee's student
    is still stored and 500 when that student is gone.  The state is
    returned as received. *)
Theorem getFeeById_access (st : State) (user : ReqUser) (id : ObjectId) :
  (getFeeById st user id).1 = st
  ∧ (∀ d, data (getFeeById st user id).2 = Some d ↔
          ∃ fee, d = (id, fee) ∧ fees st !! id = Some fee
                 ∧ (role user = student →
                    ∃ s, Student.findOneByUserId (students st) (_id user)
                         = Some (Fee.studentId fee, s)))
  ∧ (fees st !! id = None → httpStatus (getFeeById st user id).2 = 404%nat)
  ∧ (∀ fee sid s,
       fees st !! id = Some fee → role user = student →
       Student.findOneByUserId (students st) (_id user) = Some (sid, s) →
       Fee.studentId fee ≠ sid →
       httpStatus (getFeeById st user id).2
       = match students st !! Fee.studentId fee with
         | Some _ => 403%nat
         | None => 500%nat
         end).
Proof.
  unfold getFeeById. split_and!.
  - repeat case_match; done.
  - intros d. destruct (fees st !! id) as [fee|] eqn:Hfee.
    2:{ simpl. split; [done|]. by intros (fee & _ & ? & _). }
    case_bool_decide as Hrole.
    2:{ simpl. split.
        - intros [= <-]. by exists fee.
        - intros (fee' & -> & [= <-] & _). done. }
    destruct (Student.findOneByUserId (students st) (_id user))
      as [[sid s]|] eqn:Hst.
    2:{ simpl. split; [done|].
        intros (fee' & _ & _ & Hown). by destruct (Hown Hrole). }
    apply Student_findOneByUserId_lookup in Hst as Hs. destruct Hs as [Hs _].
    destruct (students st !! Fee.studentId fee) as [s'|] eqn:Hpop.
    + case_bool_decide as Hown; simpl.
      * subst sid. split.
        -- intros [= <-]. exists fee. split_and!; [done..|].
           intros _. by exists s.
        -- intros (fee' & -> & [= <-] & _). done.
      * split; [done|]. intros (fee' & _ & [= <-] & Hs').
        destruct (Hs' Hrole) as [s0 [= ? ?]]. done.
    + simpl. split; [done|]. intros (fee' & _ & [= <-] & Hs').
      destruct (Hs' Hrole) as [s0 [= ? ?]]. congruence.
  - by intros ->.
  - intros fee sid s -> Hrole -> Hne.
    rewrite bool_decide_eq_true_2 by done.
    destruct (students st !! Fee.studentId fee); [|done].
    by rewrite bool_decide_eq_false_2.
Qed.

Lemma getFeeById_access_witness :
  httpStatus (getFeeById Sample.hostel Sample.asha 3).2 = 403%nat.
Proof.
  destruct (getFeeById_access Sample.hostel Sample.asha 3) as (_ & _ & _ & H).
  rewrite (H Sample.fee3 1%nat (Student.mk 10 "R-001" (Some "A1")));
    [reflexivity..|]. vm_compute. discriminate.
Defined.

(** X18.  deleteFee removes the fee under the given id whatever its status,
    a Paid fee with its receipt included, and nothing else: the other fees,
    the payment records and the other collections stay as they were.  The
    fee is gone for every reader afterwards (404), the answers about the
    other fees are the ones given before, and deleting it again is answered
    with 404 and changes nothing. *)
Theorem deleteFee_removes_one (st : State) (id : ObjectId) (fee : Fee.doc) :
  fees st !! id = Some fee →
  let st' := (deleteFee st id).1 in
  httpStatus (deleteFee st id).2 = 200%nat
  ∧ fees st' = delete id (fees st)
  ∧ (payments st' = payments st ∧ students st' = students st
     ∧ leaves st' = leaves st ∧ entryExits st' = entryExits st)
  ∧ (∀ user, (getFeeById st' user id).2 = fail 404 "Fee record not found")
  ∧ (∀ user id', id' ≠ id →
               (getFeeById st' user id').2 = (getFeeById st user id').2)
  ∧ deleteFee st' id = (st', fail 404 "Fee record not found").
Proof.
  intros Hfee. unfold deleteFee. rewrite Hfee. simpl. split_and!; try done.
  - intros user. unfold getFeeById. simpl. by rewrite lookup_delete_eq.
  - intros user id' Hne. unfold getFeeById. simpl.
    rewrite lookup_delete_ne by done. repeat case_match; done.
  - by rewrite lookup_delete_eq.
Qed.

Lemma deleteFee_removes_one_witness :
  let paid := (markFeePaid Sample.env Sample.hostel Sample.head_warden 3
                           (Some "RCPT-7")).1 in
  (Fee.status <$> fees paid !! 3%nat) = Some Fee.Paid
  ∧ fees (deleteFee paid 3).1 !! 3%nat = None.
Proof.
  intros paid. split; [reflexivity|].
  destruct (deleteFee_removes_one paid 3
              (Fee.mk 2 700 "Term 1" Fee.Paid (Some "RCPT-7")
                      (Some 1700000000000) (Some warden) (Some 30%nat) 150))
    as (_ & -> & _); [|apply lookup_delete_eq].
  vm_compute. reflexivity.
Defined.

(** ** Entry/exit logs over time *)

(** A log that is strictly newer than the other logs of its student is the
    one [findLatest] returns. *)
Lemma findLatest_newest c i l :
  c !! i = Some l →
  (∀ j l', c !! j = Some l' → j ≠ i →
           EntryExit.studentId l' = EntryExit.studentId l →
           EntryExit.createdAt l' < EntryExit.createdAt l) →
  EntryExit.findLatest c (EntryExit.studentId l) = Some (i, l).
Proof.
  intros Hl Hnew.
  destruct (EntryExit.findLatest c (EntryExit.studentId l))
    as [[j l']|] eqn:Hlatest.
  - apply findLatest_Some in Hlatest as (Hj & Hs & Hmax).
    destruct (decide (j = i)) as [->|Hne]; [congruence|].
    specialize (Hnew j l' Hj Hne Hs). specialize (Hmax i l Hl eq_refl). lia.
  - pose proof (proj1 (findLatest_None _ _) Hlatest i l Hl). done.
Qed.

Lemma findLatest_open c sid i l :
  openLogIsNewest c →
  c !! i = Some l → EntryExit.studentId l = sid →
  EntryExit.status l = EntryExit.IN →
  EntryExit.findLatest c sid = Some (i, l).
Proof.
  intros Hinv Hl <- Hin. apply findLatest_newest; [done|].
  intros j l' Hj Hne Hs. by eapply (Hinv i j).
Qed.

Lemma fresh_lookup_None {A} (c : gmap nat A) : c !! fresh (dom c) = None.
Proof. apply not_elem_of_dom, is_fresh. Qed.

(** An insert of [markEntry] that lands on a store where the student's
    latest log is not IN keeps every IN log the newest of its student. *)
Lemma markEntry_create_openLogIsNewest env st sid method :
  clockAhead env st →
  openLogIsNewest (entryExits st) →
  markEntry_check_passes st sid →
  openLogIsNewest (entryExits (markEntry_create env st sid method).1).
Proof.
  intros Hclock Hinv Hpass. unfold markEntry_create.
  destruct (negb _); [done|]. simpl.
  intros i j l l' Hi Hj Hne Hs Hin.
  apply lookup_insert_Some in Hi as [[<- <-]|[Hi' Hi]];
    apply lookup_insert_Some in Hj as [[<- <-]|[Hj' Hj]]; simpl in *.
  - done.
  - by apply (Hclock j l').
  - exfalso. apply (Hpass i l); [by apply findLatest_open|done].
  - by eapply (Hinv i j).
Qed.

Lemma markEntry_check_inr st user body sid :
  markEntry_check st user body = inr sid →
  targetStudent st user body = inr sid ∧ markEntry_check_passes st sid.
Proof.
  unfold markEntry_check, markEntry_check_passes.
  destruct (targetStudent st user body) as [r|sid']; [done|].
  destruct (EntryExit.findLatest (entryExits st) sid') as [[k last]|] eqn:Hl.
  - case_bool_decide as Hst; [done|]. intros [= <-]. split; [done|].
    intros i l. rewrite Hl. by intros [= <- <-].
  - intros [= <-]. split; [done|]. intros i l. by rewrite Hl.
Qed.

Lemma markEntry_openLogIsNewest env st user body :
  clockAhead env st →
  openLogIsNewest (entryExits st) →
  openLogIsNewest (entryExits (markEntry env st user body).1).
Proof.
  intros Hclock Hinv. rewrite markEntry_halves.
  destruct (markEntry_check st user body) as [r|sid] eqn:Hcheck; [done|].
  apply markEntry_check_inr in Hcheck as [_ Hpass].
  by apply markEntry_create_openLogIsNewest.
Qed.

(** X19.  The check of markEntry and its insert are two steps.  An insert
    that lands on the store its check has read, with the clock ahead of
    the stored logs, keeps every log with status IN the newest log of its
    student.  But when two calls for the same student have both passed
    the check before either inserts, both are answered with 201 and the
    student has two logs with status IN: nothing but the check stands
    between a student and a second open log. *)
Theorem markEntry_overlap_two_open_logs
    (env1 env2 : Env) (st : State) (user1 user2 : ReqUser)
    (body1 body2 : EntryExitBody) (sid : ObjectId) :
  markEntry_check st user1 body1 = inr sid →
  markEntry_check st user2 body2 = inr sid →
  let method1 := default "Manual" (ee_method body1) in
  let method2 := default "Manual" (ee_method body2) in
  method1 ∈ EntryExit.methodEnum → method2 ∈ EntryExit.methodEnum →
  let r1 := markEntry_create env1 st sid method1 in
  let r2 := markEntry_create env2 r1.1 sid method2 in
  (clockAhead env1 st → openLogIsNewest (entryExits st) →
   markEntry env1 st user1 body1 = r1 ∧ openLogIsNewest (entryExits r1.1))
  ∧ runs st (mkRunning r2.1 [])
  ∧ httpStatus r1.2 = 201%nat ∧ httpStatus r2.2 = 201%nat
  ∧ (∃ i j l l',
       i ≠ j
       ∧ entryExits r2.1 !! i = Some l ∧ entryExits r2.1 !! j = Some l'
       ∧ EntryExit.studentId l = sid ∧ EntryExit.studentId l' = sid
       ∧ EntryExit.status l = EntryExit.IN
       ∧ EntryExit.status l' = EntryExit.IN)
  ∧ ¬ openLogIsNewest (entryExits r2.1).
Proof.
  intros Hc1 Hc2 method1 method2 Hm1 Hm2 r1 r2.
  assert (∃ l, r1 = (set_entryExits st
                       (<[fresh (dom (entryExits st)) := l]> (entryExits st)),
                     ok 201 "Entry marked successfully"
                        (fresh (dom (entryExits st)), l))
               ∧ EntryExit.studentId l = sid
               ∧ EntryExit.status l = EntryExit.IN) as (l & Hr1 & Hs & Hin).
  { unfold r1, markEntry_create. rewrite (bool_decide_eq_true_2 _ Hm1).
    eexists. split_and!; reflexivity. }
  set (i := fresh (dom (entryExits st))) in *.
  assert (∃ l', r2 = (set_entryExits r1.1
                        (<[fresh (dom (entryExits r1.1)) := l']>
                           (entryExits r1.1)),
                      ok 201 "Entry marked successfully"
                         (fresh (dom (entryExits r1.1)), l'))
                ∧ EntryExit.studentId l' = sid
                ∧ EntryExit.status l' = EntryExit.IN)
    as (l' & Hr2 & Hs' & Hin').
  { unfold r2, markEntry_create. rewrite (bool_decide_eq_true_2 _ Hm2).
    eexists. split_and!; reflexivity. }
  set (j := fresh (dom (entryExits r1.1))) in *.
  assert (entryExits r1.1 !! i = Some l) as Hi
    by (rewrite Hr1; apply lookup_insert_eq).
  assert (i ≠ j) as Hne.
  { intros Heq. pose proof (fresh_lookup_None (entryExits r1.1)) as Hf.
    fold j in Hf. rewrite <- Heq in Hf. congruence. }
  assert (entryExits r2.1 !! i = Some l ∧ entryExits r2.1 !! j = Some l')
    as [Hi2 Hj2].
  { rewrite Hr2. simpl. rewrite lookup_insert_ne by done.
    by rewrite lookup_insert_eq. }
  split_and!.
  - intros Hclock Hinv. split.
    + rewrite markEntry_halves, Hc1. done.
    + apply markEntry_create_openLogIsNewest; [done..|].
      by apply (markEntry_check_inr st user1 body1).
  - eapply (runs_step _ env2);
      [eapply (runs_step _ env1);
       [eapply (runs_step _ env1);
        [eapply (runs_step _ env1); [apply runs_init|]|]|]|].
    + by apply (run_entry_check env1 st [] user1 body1 sid).
    + by apply (run_entry_check env1 st [EntryCreate sid method1]
                  user2 body2 sid).
    + apply (run_entry_create env1 st [EntryCreate sid method2] []
               sid method1).
    + apply (run_entry_create env2 r1.1 [] [] sid method2).
  - by rewrite Hr1.
  - by rewrite Hr2.
  - by exists i, j, l, l'.
  - intros Hinv.
    pose proof (Hinv i j l l' Hi2 Hj2 Hne ltac:(congruence) Hin).
    pose proof (Hinv j i l' l Hj2 Hi2 ltac:(done) ltac:(congruence) Hin').
    lia.
Qed.

Lemma markEntry_overlap_two_open_logs_witness :
  let later := mkEnv 1700000600000 "LOYWGQ0W" "K2M9QA" true in
  let own := mkEntryExitBody None None in
  let byWarden := mkEntryExitBody (Some (ByRollNumber "R-001")) (Some "QR") in
  let r1 := markEntry_create Sample.env Sample.hostel 1 "Manual" in
  let r2 := markEntry_create later r1.1 1 "QR" in
  EntryExit.status ∘ snd <$> map_to_list (entryExits r2.1)
  = [EntryExit.IN; EntryExit.IN]
  ∧ runs Sample.hostel (mkRunning r2.1 []).
Proof.
  intros later own byWarden r1 r2. split; [reflexivity|].
  destruct (markEntry_overlap_two_open_logs Sample.env later Sample.hostel
              Sample.asha Sample.head_warden own byWarden 1)
    as (_ & Hruns & _); [reflexivity|reflexivity| | |exact Hruns];
    apply (bool_decide_unpack _); vm_compute; exact I.
Defined.

Lemma markExit_openLogIsNewest env st user body :
  openLogIsNewest (entryExits st) →
  openLogIsNewest (entryExits (markExit env st user body).1).
Proof.
  intros Hinv. unfold markExit.
  destruct (targetStudent st user body) as [r|sid]; [done|].
  destruct (EntryExit.findLatest (entryExits st) sid) as [[k last]|] eqn:Hlast;
    [|done].
  case_bool_decide as Hst; [done|].
  destruct (negb _); [done|]. simpl.
  apply findLatest_Some in Hlast as (Hk & _ & _).
  intros i j l l' Hi Hj Hne Hs Hin.
  apply lookup_insert_Some in Hi as [[<- <-]|[Hi' Hi]];
    apply lookup_insert_Some in Hj as [[<- <-]|[Hj' Hj]]; simpl in *.
  - done.
  - done.
  - by apply (Hinv i k l last).
  - by eapply (Hinv i j).
Qed.

(** X20.  Entry followed by exit, no other call in between.  When a
    markEntry call whose clock is ahead of the stored logs succeeds, it
    stores one new log; on the state it leaves, for every caller whose
    target resolves to that student, a further markEntry is refused with
    400 and changes nothing, and markExit with a method of the enum
    succeeds and closes exactly the log just created: same id, the entry
    time kept, the exit time of the exit call, status OUT. *)
Theorem markEntry_then_markExit
    (env env' : Env) (st : State) (user user' : ReqUser)
    (body body' : EntryExitBody) :
  clockAhead env st →
  httpStatus (markEntry env st user body).2 = 201%nat →
  let st' := (markEntry env st user body).1 in
  ∃ id log,
    data (markEntry env st user body).2 = Some (id, log)
    ∧ entryExits st !! id = None
    ∧ entryExits st' = <[id := log]> (entryExits st)
    ∧ targetStudent st' user body = inr (EntryExit.studentId log)
    ∧ EntryExit.method log ∈ EntryExit.methodEnum
    ∧ (targetStudent st' user' body' = inr (EntryExit.studentId log) →
       markEntry env' st' user' body'
       = (st', fail 400 "Student is already marked as IN")
       ∧ (default "Manual" (ee_method body') ∈ EntryExit.methodEnum →
          ∃ closed,
            markExit env' st' user' body'
            = (set_entryExits st' (<[id := closed]> (entryExits st')),
               ok 200 "Exit marked successfully" (id, closed))
            ∧ EntryExit.status closed = EntryExit.OUT
            ∧ EntryExit.inTime closed = Some (now env)
            ∧ EntryExit.outTime closed = Some (now env')
            ∧ EntryExit.method closed = default "Manual" (ee_method body')
            ∧ EntryExit.studentId closed = EntryExit.studentId log)).
Proof.
  intros Hclock. unfold markEntry at 1 2 3 4.
  destruct (targetStudent st user body) as [r|sid] eqn:Htarget.
  { unfold targetStudent in Htarget. repeat case_match; simplify_eq/=; done. }
  set (lastIn := match EntryExit.findLatest (entryExits st) sid with
                 | Some (_, l) => bool_decide (EntryExit.status l = EntryExit.IN)
                 | None => false
                 end).
  destruct lastIn; [done|].
  case_bool_decide as Hmethod; [|done]. simpl. intros _.
  set (id := fresh (dom (entryExits st))).
  set (log := EntryExit.mk sid (Some (now env)) None EntryExit.IN
                           (default "Manual" (ee_method body)) (now env)).
  set (st' := set_entryExits st (<[id := log]> (entryExits st))).
  assert (entryExits st !! id = None) as Hfresh by apply fresh_lookup_None.
  exists id, log. split_and!; [done|done|done| |exact Hmethod|].
  { unfold targetStudent in *. exact Htarget. }
  intros Htarget'. change (EntryExit.studentId log) with sid in Htarget'.
  assert (EntryExit.findLatest (<[id := log]> (entryExits st)) sid
          = Some (id, log)) as Hlast.
  { apply (findLatest_newest (<[id := log]> (entryExits st)) id log).
    - apply lookup_insert_eq.
    - intros j l' Hj Hne _. simpl in Hj.
      rewrite lookup_insert_ne in Hj by done. by apply (Hclock j l'). }
  split.
  - unfold markEntry. rewrite Htarget'. cbv beta iota zeta.
    change (entryExits st') with (<[id := log]> (entryExits st)).
    rewrite Hlast. done.
  - intros Hmethod'. unfold markExit. rewrite Htarget'. cbv beta iota zeta.
    change (entryExits st') with (<[id := log]> (entryExits st)).
    rewrite Hlast. rewrite (bool_decide_eq_true_2 _ Hmethod'). simpl.
    eexists. split; [reflexivity|]. done.
Qed.

Lemma markEntry_then_markExit_witness :
  let later := mkEnv 1700000600000 "LOYWGQ0W" "K2M9QA" true in
  let body := mkEntryExitBody None None in
  let byWarden := mkEntryExitBody (Some (ByRollNumber " R-001 ")) (Some "QR") in
  let st' := (markEntry Sample.env Sample.hostel Sample.asha body).1 in
  httpStatus (markEntry later st' Sample.head_warden byWarden).2 = 400%nat
  ∧ httpStatus (markExit later st' Sample.head_warden byWarden).2 = 200%nat.
Proof.
  intros later body byWarden st'.
  destruct (markEntry_then_markExit Sample.env later Sample.hostel
              Sample.asha Sample.head_warden body byWarden)
    as (id & log & Hdata & _ & _ & _ & _ & Hnext).
  - apply (bool_decide_unpack _). vm_compute. exact I.
  - reflexivity.
  - injection Hdata as <- <-.
    destruct Hnext as [Hentry Hexit]; [reflexivity|].
    destruct Hexit as (closed & Hexit & _);
      [apply (bool_decide_unpack _); vm_compute; exact I|].
    fold st' in Hentry, Hexit. by rewrite Hentry, Hexit.
Defined.

(** X21.  Exit followed by entry, no other call in between.  In a state
    where every log with status IN is strictly the newest log of its
    student, a successful markExit closes the student's latest log; on the
    state it leaves, for every caller whose target resolves to that
    student, a further markExit is refused with 400 and changes nothing,
    and markEntry with a method of the enum succeeds and stores a new log
    with status IN beside the closed one. *)
Theorem markExit_then_markEntry
    (env env' : Env) (st : State) (user user' : ReqUser)
    (body body' : EntryExitBody) :
  openLogIsNewest (entryExits st) →
  httpStatus (markExit env st user body).2 = 200%nat →
  let st' := (markExit env st user body).1 in
  ∃ id opened closed,
    data (markExit env st user body).2 = Some (id, closed)
    ∧ entryExits st !! id = Some opened
    ∧ EntryExit.status opened = EntryExit.IN
    ∧ entryExits st' = <[id := closed]> (entryExits st)
    ∧ EntryExit.status closed = EntryExit.OUT
    ∧ EntryExit.outTime closed = Some (now env)
    ∧ targetStudent st' user body = inr (EntryExit.studentId closed)
    ∧ (targetStudent st' user' body' = inr (EntryExit.studentId closed) →
       markExit env' st' user' body'
       = (st', fail 400 "Student is not currently marked as IN")
       ∧ (default "Manual" (ee_method body') ∈ EntryExit.methodEnum →
          ∃ id' log,
            markEntry env' st' user' body'
            = (set_entryExits st' (<[id' := log]> (entryExits st')),
               ok 201 "Entry marked successfully" (id', log))
            ∧ id' ≠ id
            ∧ EntryExit.status log = EntryExit.IN
            ∧ EntryExit.method log = default "Manual" (ee_method body')
            ∧ EntryExit.studentId log = EntryExit.studentId closed)).
Proof.
  intros Hinv. unfold markExit at 1 2 3 4.
  destruct (targetStudent st user body) as [r|sid] eqn:Htarget.
  { unfold targetStudent in Htarget. repeat case_match; simplify_eq/=; done. }
  destruct (EntryExit.findLatest (entryExits st) sid) as [[id opened]|]
    eqn:Hlast; [|done].
  case_bool_decide as Hstatus; [done|].
  destruct (negb _); [done|]. simpl. intros _.
  apply findLatest_Some in Hlast as (Hid & Hsid & Hmax).
  assert (EntryExit.status opened = EntryExit.IN) as Hopen
    by (by destruct (EntryExit.status opened)).
  set (closed := EntryExit.mk (EntryExit.studentId opened)
                   (EntryExit.inTime opened) (Some (now env)) EntryExit.OUT
                   (default "Manual" (ee_method body))
                   (EntryExit.createdAt opened)).
  set (st' := set_entryExits st (<[id := closed]> (entryExits st))).
  exists id, opened, closed. split_and!; [done..| |].
  { unfold targetStudent in *. simpl. by rewrite Hsid. }
  simpl. rewrite Hsid. intros Htarget'.
  assert (EntryExit.findLatest (<[id := closed]> (entryExits st)) sid
          = Some (id, closed)) as Hlast.
  { rewrite <- Hsid.
    apply (findLatest_newest (<[id := closed]> (entryExits st)) id closed).
    - apply lookup_insert_eq.
    - intros j l' Hj Hne Hs. simpl in Hj, Hs |- *.
      rewrite lookup_insert_ne in Hj by done.
      by apply (Hinv id j opened l'). }
  split.
  - unfold markExit. rewrite Htarget'. cbv beta iota zeta.
    change (entryExits st') with (<[id := closed]> (entryExits st)).
    rewrite Hlast. done.
  - intros Hmethod'. unfold markEntry. rewrite Htarget'. cbv beta iota zeta.
    change (entryExits st') with (<[id := closed]> (entryExits st)).
    rewrite Hlast. rewrite (bool_decide_eq_true_2 _ Hmethod'). simpl.
    do 2 eexists. split; [reflexivity|]. split_and!; [|done..].
    intros Heq.
    pose proof (fresh_lookup_None (<[id := closed]> (entryExits st))) as Hf.
    rewrite Heq, lookup_insert_eq in Hf. done.
Qed.

Lemma markExit_then_markEntry_witness :
  let later := mkEnv 1700000600000 "LOYWGQ0W" "K2M9QA" true in
  let body := mkEntryExitBody None None in
  let st1 := (markEntry Sample.env Sample.hostel Sample.asha body).1 in
  let st2 := (markExit later st1 Sample.asha body).1 in
  httpStatus (markExit later st2 Sample.asha body).2 = 400%nat
  ∧ httpStatus (markEntry later st2 Sample.asha body).2 = 201%nat.
Proof.
  intros later body st1 st2.
  destruct (markExit_then_markEntry later later st1 Sample.asha Sample.asha
              body body)
    as (id & opened & closed & Hdata & _ & _ & _ & _ & _ & _ & Hnext).
  - apply markEntry_openLogIsNewest.
    + apply (bool_decide_unpack _). vm_compute. exact I.
    + intros i j l l' Hi. unfold Sample.hostel in Hi. simpl in Hi.
      by rewrite lookup_empty in Hi.
  - reflexivity.
  - injection Hdata as <- <-.
    destruct Hnext as [Hexit Hentry]; [reflexivity|].
    destruct Hentry as (id' & log & Hentry & _);
      [apply (bool_decide_unpack _); vm_compute; exact I|].
    fold st2 in Hentry, Hexit. by rewrite Hentry, Hexit.
Defined.

Global Instance logNewerFirst_total : Total logNewerFirst.
Proof. intros a b. unfold logNewerFirst. lia. Qed.

Global Instance logNewerFirst_trans : Transitive logNewerFirst.
Proof. intros a b c. unfold logNewerFirst. lia. Qed.

(** X22.  A caller's own logs: without a student profile the answer is
    404; otherwise it is 200 with at most 100 logs, all of them stored logs
    of the caller's student and none twice, a newer one before an older
    one.  A log of the student is left out only when 100 logs are
    listed, and it is then no newer than any listed log.  The state is
    returned as received. *)
Theorem getMyLogs_listing (st : State) (user : ReqUser) :
  (Student.findOneByUserId (students st) (_id user) = None →
   getMyLogs st user = (st, fail 404 "Student profile not found"))
  ∧ (∀ sid s,
       Student.findOneByUserId (students st) (_id user) = Some (sid, s) →
       ∃ logs,
         getMyLogs st user = (st, okData logs)
         ∧ (length logs ≤ 100)%nat
         ∧ NoDup logs.*1
         ∧ StronglySorted logNewerFirst logs
         ∧ (∀ id l, (id, l) ∈ logs →
                    entryExits st !! id = Some l
                    ∧ EntryExit.studentId l = sid)
         ∧ (∀ id l, entryExits st !! id = Some l →
                    EntryExit.studentId l = sid → (id, l) ∉ logs →
                    length logs = 100%nat
                    ∧ ∀ x, x ∈ logs →
                           EntryExit.createdAt l
                           ≤ EntryExit.createdAt x.2)).
Proof.
  unfold getMyLogs. split; [by intros ->|].
  intros sid s ->. eexists. split; [reflexivity|].
  set (sel := merge_sort logNewerFirst
                (filter (λ p, EntryExit.studentId p.2 = sid)
                        (map_to_list (entryExits st)))).
  assert (StronglySorted logNewerFirst sel) as Hsorted
    by apply (StronglySorted_merge_sort _).
  assert (NoDup sel.*1) as Hnodup by apply selection_NoDup.
  rewrite <- (take_drop 100 sel) in Hsorted, Hnodup.
  split_and!.
  - rewrite length_take. lia.
  - rewrite fmap_app in Hnodup. by apply NoDup_app in Hnodup as (? & _).
  - by apply StronglySorted_app_1_l in Hsorted.
  - intros id l Hin.
    apply (selection_elem logNewerFirst
             (λ p, EntryExit.studentId p.2 = sid) (entryExits st) id l).
    eapply elem_of_sublist; [exact Hin|apply sublist_take].
  - intros id l Hl Hs Hout.
    assert ((id, l) ∈ take 100 sel ++ drop 100 sel) as Hin
      by (rewrite take_drop; by apply selection_elem).
    apply elem_of_app in Hin as [Hin|Hin]; [done|].
    split.
    + rewrite length_take.
      assert (drop 100 sel ≠ []) as Hne
        by (intros Hnil; rewrite Hnil in Hin; by apply elem_of_nil in Hin).
      destruct (decide (length sel ≤ 100)%nat) as [Hle|Hgt]; [|lia].
      by rewrite drop_ge in Hne.
    + intros x Hx.
      apply (StronglySorted_app_1_elem_of _ _ _ x (id, l) Hsorted Hx Hin).
Qed.

Lemma getMyLogs_listing_witness :
  let later := mkEnv 1700000600000 "LOYWGQ0W" "K2M9QA" true in
  let body := mkEntryExitBody None None in
  let st1 := (markEntry Sample.env Sample.hostel Sample.asha body).1 in
  let st2 := (markExit later st1 Sample.asha body).1 in
  let st3 := (markEntry later st2 Sample.asha body).1 in
  ∃ logs, getMyLogs st3 Sample.asha = (st3, okData logs)
          ∧ (EntryExit.status ∘ snd) <$> logs = [EntryExit.IN; EntryExit.OUT].
Proof.
  intros later body st1 st2 st3.
  destruct (getMyLogs_listing st3 Sample.asha) as [_ Hlist].
  destruct (Hlist 1%nat (Student.mk 10 "R-001" (Some "A1")))
    as (logs & Heq & _); [reflexivity|].
  exists logs. split; [exact Heq|].
  vm_compute in Heq. injection Heq as <-. reflexivity.
Defined.

(** X23.  A caller with the student role writes only the logs of the
    caller's own profile: the student named in the body of the request is
    ignored, and every log that markEntry or markExit stores or changes
    belongs to the student whose profile is linked to the caller. *)
Theorem student_marks_own_logs
    (env : Env) (st : State) (user : ReqUser) (body : EntryExitBody) :
  role user = student →
  (∀ ref,
     markEntry env st user (mkEntryExitBody ref (ee_method body))
     = markEntry env st user body
     ∧ markExit env st user (mkEntryExitBody ref (ee_method body))
       = markExit env st user body)
  ∧ ∀ rq id l,
      rq = MarkEntry user body ∨ rq = MarkExit user body →
      entryExits (handle env st rq) !! id = Some l →
      entryExits st !! id = Some l
      ∨ ∃ s, Student.findOneByUserId (students st) (_id user)
             = Some (EntryExit.studentId l, s).
Proof.
  intros Hrole. split.
  - intros ref. unfold markEntry, markExit, targetStudent.
    rewrite !bool_decide_eq_true_2 by done. done.
  - intros rq id l [->| ->]; simpl.
    + unfold markEntry, targetStudent. rewrite bool_decide_eq_true_2 by done.
      destruct (Student.findOneByUserId (students st) (_id user))
        as [[sid s]|]; [|by left].
      case_match; [by left|]. destruct (negb _); [by left|]. simpl.
      intros [[<- <-]|[_ Hl]]%lookup_insert_Some; [right|by left].
      by exists s.
    + unfold markExit, targetStudent. rewrite bool_decide_eq_true_2 by done.
      destruct (Student.findOneByUserId (students st) (_id user))
        as [[sid s]|]; [|by left].
      destruct (EntryExit.findLatest (entryExits st) sid) as [[k last]|]
        eqn:Hlast; [|by left].
      case_bool_decide; [by left|].
      destruct (negb _); [by left|]. simpl.
      apply findLatest_Some in Hlast as (_ & <- & _).
      intros [[<- <-]|[_ Hl]]%lookup_insert_Some; [right|by left].
      by exists s.
Qed.

Lemma student_marks_own_logs_witness :
  let forBina := mkEntryExitBody (Some (ById 2)) None in
  (EntryExit.studentId ∘ snd)
    <$> map_to_list (entryExits (markEntry Sample.env Sample.hostel
                                            Sample.asha forBina).1)
  = [1%nat].
Proof.
  intros forBina.
  destruct (student_marks_own_logs Sample.env Sample.hostel Sample.asha
              (mkEntryExitBody None None)) as [Hbody _]; [reflexivity|].
  destruct (Hbody (Some (ById 2))) as [Hentry _]. simpl in Hentry.
  unfold forBina. rewrite Hentry. reflexivity.
Defined.

(** ** The schema validators as an invariant of the stored fees *)

Lemma foldl_amounts_acc (l : list (ObjectId * Fee.doc)) (a : Z) :
  foldl (λ sum fee, sum + Fee.amount fee.2) a l
  = a + foldl (λ sum fee, sum + Fee.amount fee.2) 0 l.
Proof.
  revert a. induction l as [|x l IH]; intros a; simpl; [lia|].
  rewrite (IH (a + _)), (IH (0 + _)). lia.
Qed.

Lemma totalDue_cons x l :
  totalDue (x :: l) = Fee.amount x.2 + totalDue l.
Proof. unfold totalDue. simpl. rewrite foldl_amounts_acc. lia. Qed.

Lemma totalDue_nonneg l :
  Forall (λ p : ObjectId * Fee.doc, 0 ≤ Fee.amount p.2) l → 0 ≤ totalDue l.
Proof.
  induction 1 as [|x l Hx _ IH]; [done|]. rewrite totalDue_cons. lia.
Qed.

Lemma Fee_write_valid c id fee c' :
  map_Forall (λ _, feeValid) c → feeValid fee →
  Fee.write c id fee = inr c' → map_Forall (λ _, feeValid) c'.
Proof.
  intros Hc Hfee ->%Fee_write_inr. by apply map_Forall_insert_2.
Qed.

Lemma validTerm_trim t :
  Fee.validTerm t = true → trim t ≠ "" ∧ trim (trim t) = trim t.
Proof.
  unfold Fee.validTerm. intros Hv. split; [|apply trim_idemp].
  apply negb_true_iff, bool_decide_eq_false in Hv. done.
Qed.

Lemma serve_feeValid env st call :
  map_Forall (λ _, feeValid) (fees st) →
  map_Forall (λ _, feeValid) (fees (serve env st call)).
Proof.
  intros Hinv.
  destruct (serve_fees env st call) as [->|_]; [done|].
  destruct call as [rq|i|user i| |status|user|user]; simpl.
  - destruct rq as [user body|user i body|user i body|user i|user body
                   |body|i body|user i rn|user body|user body]; simpl.
    + unfold createLeaveRequest. repeat case_match; done.
    + unfold parentApproveOrReject. repeat case_match; done.
    + unfold updateLeaveStatus. repeat case_match; done.
    + unfold cancelMyLeaveRequest. repeat case_match; done.
    + destruct (payMyFees_fees env st user body) as [->|(sid & pb & ->)];
        [done|].
      apply saveAll_Forall; [done|]. apply Forall_forall.
      intros [i fee'] (fee & -> & Hin)%settlementWrites_elem.
      apply findPending_elem in Hin as (Hfee & _).
      destruct (Hinv i fee Hfee) as (Ha & Ht & Htt & Hr).
      split_and!; simpl; [done..|]. intros r [= <-]. apply trim_idemp.
    + unfold createFee.
      destruct (cf_studentId body) as [sid|]; [|done].
      destruct (cf_amount body) as [amount|]; [|done].
      destruct (cf_term body) as [term|]; [|done].
      destruct (_ || _); [done|].
      destruct (students st !! sid); [|done].
      destruct (Fee.parseStatus _) as [status|]; [|done].
      destruct (negb _) eqn:Hvalid; [done|].
      apply negb_false_iff, andb_true_iff in Hvalid as [Ha Ht].
      destruct (Fee.write _ _ _) as [e|c] eqn:Hw; [done|]. simpl.
      eapply Fee_write_valid; [exact Hinv| |exact Hw].
      apply validTerm_trim in Ht as [Ht Htt].
      apply bool_decide_eq_true in Ha. split_and!; simpl; done.
    + unfold updateFee.
      destruct (fees st !! i) as [fee|] eqn:Hfee; [|done].
      destruct (Hinv i fee Hfee) as (Ha & Ht & Htt & Hr).
      destruct (match uf_status body with
                | Some status => Fee.parseStatus status
                | None => Some (Fee.status fee)
                end) as [status|]; [|done].
      destruct (negb _) eqn:Hvalid; [done|].
      apply negb_false_iff, andb_true_iff in Hvalid as [Hva Hvt].
      destruct (Fee.write _ _ _) as [e|c] eqn:Hw; [done|]. simpl.
      eapply Fee_write_valid; [exact Hinv| |exact Hw].
      split_and!; simpl.
      * destruct (uf_amount body); simpl in *; [|done].
        by apply bool_decide_eq_true in Hva.
      * destruct (uf_term body); simpl in *; [|done].
        by apply validTerm_trim in Hvt as [? _].
      * destruct (uf_term body); simpl in *; [|done].
        by apply validTerm_trim in Hvt as [_ ?].
      * destruct (uf_receiptNumber body); [|done].
        intros r [= <-]. apply trim_idemp.
    + unfold markFeePaid.
      destruct (fees st !! i) as [fee|] eqn:Hfee; [|done].
      destruct (Hinv i fee Hfee) as (Ha & Ht & Htt & Hr).
      destruct (Fee.write _ _ _) as [e|c] eqn:Hw; [done|]. simpl.
      eapply Fee_write_valid; [exact Hinv| |exact Hw].
      split_and!; simpl; [done..|].
      destruct (truthy rn); [|done].
      destruct rn as [r0|]; simpl; [|done]. intros r [= <-]. apply trim_idemp.
    + unfold markEntry. repeat case_match; done.
    + unfold markExit. repeat case_match; done.
  - unfold deleteFee. case_match; simpl; [|done].
    by apply map_Forall_delete.
  - unfold getFeeById. repeat case_match; done.
  - unfold getPaymentSummary. case_match; done.
  - unfold getAllLeaveRequests. case_match; done.
  - unfold getMyLeaveRequests. repeat case_match; done.
  - unfold getMyLogs. repeat case_match; done.
Qed.

(** X24.  The validators of the fee schema hold of every stored fee for
    good: starting from fees with a non-negative amount, a trimmed and
    non-empty term and a trimmed receipt number, no sequence of calls
    stores a fee without these properties (a negative amount, a blank
    term); so the amount a settlement has to match is never negative. *)
Theorem stored_fees_valid (init st : State) :
  map_Forall (λ _, feeValid) (fees init) →
  served init st →
  map_Forall (λ _, feeValid) (fees st)
  ∧ ∀ sid, 0 ≤ totalDue (Fee.findPending (fees st) sid).
Proof.
  intros Hinit Hserved.
  assert (map_Forall (λ _, feeValid) (fees st)) as Hinv.
  { induction Hserved as [|env st call _ IH]; [done|].
    by apply serve_feeValid. }
  split; [done|]. intros sid.
  apply totalDue_nonneg, Forall_forall.
  intros [id fee] (Hfee & _)%findPending_elem.
  by destruct (Hinv id fee Hfee).
Qed.

Lemma stored_fees_valid_witness :
  let st :=
    serve Sample.env
      (serve Sample.env Sample.hostel
         (Mutation (UpdateFee 1 (mkUpdateFeeBody (Some (-5)) None None None))))
      (Mutation (CreateFee (mkCreateFeeBody (Some 3%nat) (Some 40)
                                            (Some "  Term 2 ") None))) in
  (Fee.amount <$> fees st !! 1%nat) = Some 500
  ∧ (Fee.term <$> fees st !! 4%nat) = Some "Term 2"
  ∧ 0 ≤ totalDue (Fee.findPending (fees st) 3).
Proof.
  intros st. split; [reflexivity|]. split; [reflexivity|].
  apply (stored_fees_valid Sample.hostel st).
  - intros id fee Hl. unfold Sample.hostel in Hl. simpl in Hl.
    repeat (apply lookup_insert_Some in Hl as [[<- <-]|[_ Hl]];
            [by split_and!; [vm_compute| |vm_compute|]|]).
    by rewrite lookup_empty in Hl.
  - do 2 apply served_step. apply served_init.
Defined.

(** ** Complaints *)

(** What a call does to the complaint stored under an id: it leaves it as
    it is, or applies one status update. *)
Lemma serveDesk_complaint env sd call id c :
  complaints sd !! id = Some c →
  complaints (serveDesk env sd call) !! id = Some c
  ∨ ∃ status by_ res,
      status ≠ Complaint.Pending
      ∧ complaints (serveDesk env sd call) !! id
        = Some (applyComplaintUpdate status by_ (now env) res c).
Proof.
  intros Hc. destruct call as [call|user body| |user|user i body]; simpl.
  - by left.
  - left. unfold createComplaint.
    destruct (cc_title body), (cc_description body), (cc_category body);
      try done.
    destruct (_ || _); [done|].
    destruct (Student.findOneByUserId _ _) as [[sid stu]|]; [|done].
    destruct (negb _); [done|].
    assert (complaints sd !! fresh (dom (complaints sd)) = None) as Hfresh
      by apply fresh_lookup_None.
    destruct (complaintStudent _ _); simpl;
      rewrite lookup_insert_ne; done || congruence.
  - left. unfold getAllComplaints. by destruct (mapM _ _).
  - left. unfold getMyComplaints. by destruct (Student.findOneByUserId _ _) as [[??]|].
  - unfold updateComplaintStatus.
    destruct (cs_status body ≫= decisionOfString) as [[status lower]|] eqn:Hd;
      [|by left].
    assert (status ≠ Complaint.Pending) as Hstatus.
    { destruct (cs_status body) as [s|]; [|done]. simpl in Hd.
      unfold decisionOfString in Hd. repeat case_bool_decide; by simplify_eq. }
    destruct (complaints sd !! i) as [old|] eqn:Hold; [|by left].
    destruct (decide (i = id)) as [->|Hne].
    + right. exists status, (_id user), (cs_resolution body).
      split; [done|]. simplify_eq.
      destruct (complaintStudentOfQuery (base sd) _),
        (users (base sd) !! _id user); simpl;
        by rewrite lookup_insert_eq.
    + left. destruct (complaintStudentOfQuery (base sd) _),
        (users (base sd) !! _id user); simpl;
        by rewrite lookup_insert_ne.
Qed.

(** A complaint that appears under an id that was free is the Pending
    complaint [createComplaint] has validated. *)
Lemma serveDesk_complaint_new env sd call id c :
  complaints sd !! id = None →
  complaints (serveDesk env sd call) !! id = Some c →
  complaintCoherent c ∧ Complaint.status c = Complaint.Pending
  ∧ Complaint.createdAt c = now env.
Proof.
  intros Hfree. destruct call as [call|user body| |user|user i body]; simpl.
  - congruence.
  - unfold createComplaint.
    destruct (cc_title body) as [title|],
             (cc_description body) as [description|],
             (cc_category body) as [category|]; try (simpl; congruence).
    destruct (_ || _); [simpl; congruence|].
    destruct (Student.findOneByUserId _ _) as [[sid s]|]; [|simpl; congruence].
    destruct (negb _) eqn:Hvalid; [simpl; congruence|].
    apply negb_false_iff in Hvalid.
    assert (∀ (m : gmap nat Complaint.doc) k d,
              m !! id = None → <[k := d]> m !! id = Some c → c = d) as Hnew.
    { intros m k d Hm [[_ <-]|[_ ?]]%lookup_insert_Some; congruence. }
    destruct (complaintStudent _ _); simpl; intros Hl;
      apply (Hnew _ _ _ Hfree) in Hl; clear Hnew; subst c;
      unfold complaintCoherent; simpl;
      (split_and!; first [exact Hvalid|apply trim_idemp|done]).
  - unfold getAllComplaints. destruct (mapM _ _); simpl; congruence.
  - unfold getMyComplaints.
    destruct (Student.findOneByUserId _ _) as [[??]|]; simpl; congruence.
  - unfold updateComplaintStatus.
    destruct (cs_status body ≫= decisionOfString) as [[status lower]|];
      [|simpl; congruence].
    destruct (complaints sd !! i) as [old|] eqn:Hold; [|simpl; congruence].
    assert (i ≠ id) by congruence.
    destruct (complaintStudentOfQuery (base sd) _),
        (users (base sd) !! _id user); simpl;
      rewrite lookup_insert_ne by done; congruence.
Qed.



Lemma applyComplaintUpdate_coherent status by_ at_ res c :
  status ≠ Complaint.Pending →
  complaintCoherent c →
  complaintCoherent (applyComplaintUpdate status by_ at_ res c).
Proof.
  intros Hstatus (Hvalid & Htitle & _). split_and!; [done..|].
  destruct status; simpl; [done|by eexists|split; by eexists|by eexists].
Qed.

(** X26.  If the stored complaints are coherent to begin with (none
    stored, for one), they are coherent in every state reached by serving
    calls: title and description are not empty, the title is trimmed,
    category and priority are in their enums; a Pending complaint has no
    assignee, no resolution time and no resolution; every other complaint
    has an assignee, and a Resolved one a resolution time. *)
Theorem complaints_coherent (init sd : Store) :
  map_Forall (λ _, complaintCoherent) (complaints init) →
  servedDesk init sd →
  map_Forall (λ _, complaintCoherent) (complaints sd).
Proof.
  intros Hinit Hserved. induction Hserved as [|env sd call _ IH]; [done|].
  intros id c' Hc'.
  destruct (complaints sd !! id) as [c|] eqn:Hc.
  - destruct (serveDesk_complaint env sd call id c Hc)
      as [Hsame|(status & by_ & res & Hstatus & Hupd)].
    + assert (c' = c) as -> by congruence. by apply (IH id).
    + assert (c' = applyComplaintUpdate status by_ (now env) res c) as ->
        by congruence.
      apply applyComplaintUpdate_coherent; [done|]. by apply (IH id).
  - by destruct (serveDesk_complaint_new env sd call id c' Hc Hc').
Qed.

Lemma complaints_coherent_witness :
  let sd0 := mkStore Sample.hostel ∅ in
  let sd1 := serveDesk Sample.env sd0
               (CreateComplaint Sample.asha
                  (mkCreateComplaintBody (Some " Fan ") (Some "It is broken")
                                         (Some "Electrical") None)) in
  let sd2 := serveDesk Sample.env sd1
               (UpdateComplaintStatus Sample.head_warden 0
                  (mkComplaintStatusBody (Some "Resolved") (Some " fixed "))) in
  (Complaint.status <$> complaints sd2 !! 0%nat) = Some Complaint.Resolved
  ∧ map_Forall (λ _, complaintCoherent) (complaints sd2).
Proof.
  intros sd0 sd1 sd2. split; [reflexivity|].
  apply (complaints_coherent sd0 sd2).
  - apply map_Forall_empty.
  - do 2 apply servedDesk_step. apply servedDesk_init.
Defined.

(** A decision with an admissible status on a stored complaint is written,
    whatever the answer. *)
Lemma updateComplaintStatus_writes env sd user id body status lower c :
  cs_status body ≫= decisionOfString = Some (status, lower) →
  complaints sd !! id = Some c →
  complaints (updateComplaintStatus env sd user id body).1
  = <[id := applyComplaintUpdate status (_id user) (now env)
                                 (cs_resolution body) c]> (complaints sd).
Proof.
  intros Hd Hc. unfold updateComplaintStatus. rewrite Hd, Hc.
  by destruct (complaintStudentOfQuery (base sd) _),
    (users (base sd) !! _id user).
Qed.

(** X27.  The status of a complaint is not guarded: whatever status a
    stored complaint has, a Resolved decision is written, and so is a later
    In Progress or Rejected decision on the same complaint, whatever the
    two answers.  The complaint then is no longer Resolved but keeps the
    resolution time and the resolution of the earlier decision, with the
    later caller as assignee. *)
Theorem updateComplaintStatus_reopen
    (env env' : Env) (sd : Store) (user user' : ReqUser) (id : ObjectId)
    (body body' : ComplaintStatusBody) (c : Complaint.doc) :
  complaints sd !! id = Some c →
  cs_status body = Some "Resolved" →
  cs_status body' = Some "In Progress" ∨ cs_status body' = Some "Rejected" →
  let sd1 := (updateComplaintStatus env sd user id body).1 in
  let sd2 := (updateComplaintStatus env' sd1 user' id body').1 in
  ∃ c1 c2,
    complaints sd1 !! id = Some c1
    ∧ Complaint.status c1 = Complaint.Resolved
    ∧ complaints sd2 !! id = Some c2
    ∧ Complaint.status c2
      = (if bool_decide (cs_status body' = Some "Rejected")
         then Complaint.Rejected else Complaint.InProgress)
    ∧ Complaint.resolvedAt c2 = Some (now env)
    ∧ Complaint.resolution c2
      = match cs_resolution body with
        | Some r => Some (trim r)
        | None => Complaint.resolution c
        end
    ∧ Complaint.assignedTo c2 = Some (_id user').
Proof.
  intros Hc Hbody Hbody' sd1 sd2.
  set (c1 := applyComplaintUpdate Complaint.Resolved (_id user) (now env)
                                  (cs_resolution body) c).
  assert (complaints sd1 !! id = Some c1) as H1.
  { unfold sd1.
    rewrite (updateComplaintStatus_writes env sd user id body
               Complaint.Resolved "resolved" c);
      [apply lookup_insert_eq|by rewrite Hbody|done]. }
  set (status2 := if bool_decide (cs_status body' = Some "Rejected")
                  then Complaint.Rejected else Complaint.InProgress).
  set (c2 := applyComplaintUpdate status2 (_id user') (now env')
                                  (cs_resolution body') c1).
  assert (complaints sd2 !! id = Some c2) as H2.
  { unfold sd2.
    rewrite (updateComplaintStatus_writes env' sd1 user' id body' status2
               (if bool_decide (cs_status body' = Some "Rejected")
                then "rejected" else "in progress") c1);
      [apply lookup_insert_eq| |done].
    unfold status2. by destruct Hbody' as [-> | ->]. }
  exists c1, c2. split_and!; [done..| | |done].
  - unfold c2, status2. by destruct Hbody' as [-> | ->].
  - unfold c2, status2. by destruct Hbody' as [-> | ->].
Qed.

Lemma updateComplaintStatus_reopen_witness :
  let sd := mkStore Sample.hostel
              (<[1%nat := Complaint.mk 1 "Fan" "The fan is broken"
                                        "Electrical" Complaint.Rejected "High"
                                        (Some 30%nat) None None 100]> ∅) in
  let later := mkEnv 1700000600000 "LOYWGQ0W" "K2M9QA" true in
  let sd1 := (updateComplaintStatus Sample.env sd Sample.head_warden 1
                (mkComplaintStatusBody (Some "Resolved") (Some "Replaced"))).1 in
  let sd2 := (updateComplaintStatus later sd1 Sample.head_warden 1
                (mkComplaintStatusBody (Some "In Progress") None)).1 in
  ∃ c2, complaints sd2 !! 1%nat = Some c2
        ∧ Complaint.status c2 = Complaint.InProgress
        ∧ Complaint.resolvedAt c2 = Some 1700000000000
        ∧ Complaint.resolution c2 = Some "Replaced".
Proof.
  intros sd later sd1 sd2.
  destruct (updateComplaintStatus_reopen Sample.env later sd
              Sample.head_warden Sample.head_warden 1
              (mkComplaintStatusBody (Some "Resolved") (Some "Replaced"))
              (mkComplaintStatusBody (Some "In Progress") None)
              (Complaint.mk 1 "Fan" "The fan is broken" "Electrical"
                            Complaint.Rejected "High" (Some 30%nat) None None
                            100))
    as (c1 & c2 & _ & _ & H2 & Hs & Hat & Hres & _);
    [reflexivity|reflexivity|by left|].
  exists c2. split_and!; [exact H2|exact Hs|exact Hat|exact Hres].
Defined.

(** X28.  A complaint submitted with a title, a description and a category
    by a caller with a student profile.  When the title or the description
    is blank, or the category or the priority is outside its enum, nothing
    is stored and the answer is 500, not 400.  Otherwise one Pending
    complaint is stored under a new id for the caller's own student, with
    title and description trimmed and priority Medium unless given, and
    the stored complaints are otherwise untouched; the answer is 201
    exactly when the caller's user record is stored, and 500 otherwise,
    the complaint being stored all the same. *)
Theorem createComplaint_outcomes
    (env : Env) (sd : Store) (user : ReqUser)
    (title description category : string) (priority : option string)
    (sid : ObjectId) (s : Student.doc) :
  title ≠ "" → description ≠ "" → category ≠ "" →
  Student.findOneByUserId (students (base sd)) (_id user) = Some (sid, s) →
  let body := mkCreateComplaintBody (Some title) (Some description)
                                    (Some category) priority in
  let r := createComplaint env sd user body in
  let accepted :=
    trim title ≠ "" ∧ trim description ≠ ""
    ∧ category ∈ Complaint.categoryEnum
    ∧ default "Medium" priority ∈ Complaint.priorityEnum in
  (¬ accepted →
   r = (logged sd "Create complaint error:" ValidationFailed,
        fail 500 "Server error while creating complaint"))
  ∧ (accepted →
     let id := fresh (dom (complaints sd)) in
     let c := Complaint.mk sid (trim title) (trim description) category
                           Complaint.Pending (default "Medium" priority)
                           None None None (now env) in
     complaints sd !! id = None
     ∧ complaints r.1 = <[id := c]> (complaints sd)
     ∧ httpStatus r.2
       = match users (base sd) !! _id user with
         | Some _ => 201%nat
         | None => 500%nat
         end).
Proof.
  intros Ht Hd Hcat Hst body r accepted.
  assert (Complaint.valid
            (Complaint.mk sid (trim (trim title)) (trim (trim description))
                          category Complaint.Pending
                          (default "Medium" priority) None None None (now env))
          = true ↔ accepted) as Hvalid.
  { unfold Complaint.valid, accepted. simpl. rewrite !trim_idemp.
    rewrite !andb_true_iff, !negb_true_iff, !bool_decide_eq_false,
      !bool_decide_eq_true. tauto. }
  unfold r, createComplaint, body. simpl.
  rewrite !bool_decide_eq_false_2 by done. simpl. rewrite Hst.
  apply Student_findOneByUserId_lookup in Hst as [Hs Hu].
  split.
  - intros Hno. destruct (Complaint.valid _) eqn:Hv; [|done].
    by destruct Hno; apply Hvalid.
  - intros Hyes. apply Hvalid in Hyes as ->. simpl.
    split; [apply fresh_lookup_None|].
    unfold complaintStudent. simpl. rewrite Hs, Hu, !trim_idemp.
    by destruct (users (base sd) !! _id user).
Qed.

Lemma createComplaint_outcomes_witness :
  let sd := mkStore Sample.hostel ∅ in
  createComplaint Sample.env sd Sample.asha
    (mkCreateComplaintBody (Some "   ") (Some "The fan is broken")
                           (Some "Electrical") None)
  = (logged sd "Create complaint error:" ValidationFailed,
     fail 500 "Server error while creating complaint").
Proof.
  intros sd.
  apply (createComplaint_outcomes Sample.env sd Sample.asha "   "
           "The fan is broken" "Electrical" None 1
           (Student.mk 10 "R-001" (Some "A1"))); [done..|].
  intros (Hblank & _). by apply Hblank.
Defined.

(** The complaints of a listing that selects all of them. *)
Lemma sorted_all_elem {A} (R : relation (nat * A)) `{!RelDecision R}
    (c : gmap nat A) id x :
  (id, x) ∈ merge_sort R (map_to_list c) ↔ c !! id = Some x.
Proof. by rewrite merge_sort_Permutation, elem_of_map_to_list. Qed.

Lemma sorted_all_NoDup {A} (R : relation (nat * A)) `{!RelDecision R}
    (c : gmap nat A) :
  NoDup (merge_sort R (map_to_list c)).*1.
Proof. rewrite merge_sort_Permutation. apply NoDup_fst_map_to_list. Qed.

Global Instance Complaint_newerFirst_total : Total Complaint.newerFirst.
Proof. intros a b. unfold Complaint.newerFirst. lia. Qed.

Global Instance Complaint_newerFirst_trans : Transitive Complaint.newerFirst.
Proof. intros a b c. unfold Complaint.newerFirst. lia. Qed.

Lemma formatComplaintForWarden_Some st p v :
  formatComplaintForWarden st p = Some v →
  cv_id v = p.1 ∧ cv_complaint v = p.2
  ∧ ∃ s, students st !! Complaint.studentId p.2 = Some s
         ∧ cv_student v = Some (None, Student.room s).
Proof.
  unfold formatComplaintForWarden, complaintStudentOfQuery.
  destruct (students st !! Complaint.studentId p.2) as [s|]; [|done].
  intros [= <-]. simpl. split_and!; [done..|]. by exists s.
Qed.

(** X29.  The warden's list of complaints.  When the student profile of
    every stored complaint is stored, the answer is 200 and lists every
    stored complaint once, a newer complaint before an older one, each
    with the student's room and without a name, whether or not the
    student's user is stored.  One complaint whose student profile is no
    longer stored makes the whole listing fail with 500. *)
Theorem getAllComplaints_listing (sd : Store) :
  ((∀ id c, complaints sd !! id = Some c →
            is_Some (students (base sd) !! Complaint.studentId c)) →
   ∃ data,
     getAllComplaints sd = (sd, okData data)
     ∧ (∀ id c, complaints sd !! id = Some c ↔
                ∃ v, v ∈ data ∧ cv_id v = id ∧ cv_complaint v = c)
     ∧ NoDup (cv_id <$> data)
     ∧ StronglySorted
         (λ a b, Complaint.createdAt (cv_complaint b)
                 ≤ Complaint.createdAt (cv_complaint a))
         data
     ∧ (∀ v, v ∈ data →
             ∃ s, students (base sd) !! Complaint.studentId (cv_complaint v)
                  = Some s
                  ∧ cv_student v = Some (None, Student.room s)))
  ∧ ((∃ id c, complaints sd !! id = Some c
              ∧ students (base sd) !! Complaint.studentId c = None) →
     getAllComplaints sd
     = (logged sd "Get complaints error:" NullDereference,
        fail 500 "Server error while fetching complaints")).
Proof.
  unfold getAllComplaints.
  set (sel := merge_sort Complaint.newerFirst (map_to_list (complaints sd))).
  assert (∀ id c, (id, c) ∈ sel ↔ complaints sd !! id = Some c) as Hsel.
  { intros id c. unfold sel. by rewrite sorted_all_elem. }
  split.
  - intros Hpop.
    destruct (mapM (formatComplaintForWarden (base sd)) sel) as [data|] eqn:Hm.
    2:{ apply mapM_None in Hm. apply Exists_exists in Hm as ([id c] & Hin & Hn).
        destruct (Hpop id c (proj1 (Hsel id c) Hin)) as [named Hs].
        unfold formatComplaintForWarden, complaintStudentOfQuery in Hn.
        simpl in Hn. by rewrite Hs in Hn. }
    exists data. split; [done|].
    apply mapM_Some in Hm.
    assert ((λ v, (cv_id v, cv_complaint v)) <$> data = sel) as Hproj.
    { apply (Forall2_projection (formatComplaintForWarden (base sd))); [|done].
      intros [i c] v (Hi & Hc & _)%formatComplaintForWarden_Some. simpl in *.
      by rewrite Hi, Hc. }
    split_and!.
    + intros id c. rewrite <- Hsel, <- Hproj, list_elem_of_fmap. split.
      * intros (v & [= -> ->] & Hin). by exists v.
      * intros (v & Hin & <- & <-). by exists v.
    + assert (cv_id <$> data = sel.*1) as ->.
      { rewrite <- Hproj, <- list_fmap_compose. by apply list_fmap_ext. }
      apply sorted_all_NoDup.
    + assert (StronglySorted Complaint.newerFirst
                ((λ v, (cv_id v, cv_complaint v)) <$> data)) as Hsorted.
      { rewrite Hproj. apply StronglySorted_merge_sort; apply _. }
      clear -Hsorted. induction data as [|v data IH]; [constructor|].
      rewrite fmap_cons in Hsorted.
      apply StronglySorted_inv in Hsorted as [Htl Hhd].
      constructor; [by apply IH|].
      rewrite Forall_fmap in Hhd. exact Hhd.
    + intros v Hin.
      destruct (proj1 (list_elem_of_lookup _ _) Hin) as [n Hn].
      destruct (Forall2_lookup_r _ _ _ _ _ Hm Hn) as (p & _ & Hp).
      apply formatComplaintForWarden_Some in Hp as (_ & <- & Hst).
      exact Hst.
  - intros (id & c & Hc & Hnone).
    rewrite mapM_None_2; [done|].
    apply Exists_exists. exists (id, c). split; [by apply Hsel|].
    unfold formatComplaintForWarden, complaintStudentOfQuery. simpl.
    by rewrite Hnone.
Qed.

Lemma getAllComplaints_listing_witness :
  let sd := mkStore Sample.hostel
              (<[1%nat := Complaint.mk 9 "Fan" "The fan is broken"
                                        "Electrical" Complaint.Pending "High"
                                        None None None 100]> ∅) in
  httpStatus (getAllComplaints sd).2 = 500%nat.
Proof.
  intros sd.
  rewrite (proj2 (getAllComplaints_listing sd)); [reflexivity|].
  exists 1%nat, (Complaint.mk 9 "Fan" "The fan is broken" "Electrical"
                              Complaint.Pending "High" None None None 100).
  split; reflexivity.
Defined.

(** X30.  A student's own complaints: without a student profile the
    answer is 404; otherwise it is 200 and lists exactly the stored
    complaints of the caller's student, each once, a newer complaint before
    an older one, with no complaint of another student, whether or not
    other complaints refer to profiles that are no longer stored.  The
    store is returned as received. *)
Theorem getMyComplaints_listing (sd : Store) (user : ReqUser) :
  (Student.findOneByUserId (students (base sd)) (_id user) = None →
   getMyComplaints sd user = (sd, fail 404 "Student profile not found"))
  ∧ (∀ sid s,
       Student.findOneByUserId (students (base sd)) (_id user) = Some (sid, s) →
       ∃ data,
         getMyComplaints sd user = (sd, okData data)
         ∧ (∀ id c, complaints sd !! id = Some c ∧ Complaint.studentId c = sid ↔
                    ∃ v, v ∈ data ∧ cv_id v = id ∧ cv_complaint v = c)
         ∧ NoDup (cv_id <$> data)
         ∧ StronglySorted
             (λ a b, Complaint.createdAt (cv_complaint b)
                     ≤ Complaint.createdAt (cv_complaint a))
             data).
Proof.
  unfold getMyComplaints. split; [by intros ->|].
  intros sid s ->. eexists. split; [reflexivity|].
  set (sel := merge_sort Complaint.newerFirst
                (filter (λ p, Complaint.studentId p.2 = sid)
                        (map_to_list (complaints sd)))).
  split_and!.
  - intros id c.
    rewrite <- (selection_elem Complaint.newerFirst
                  (λ p, Complaint.studentId p.2 = sid) (complaints sd) id c).
    fold sel. split.
    + intros Hin.
      exists (mkComplaintView id c None (assignedToName (base sd) c)).
      split; [|done]. apply list_elem_of_fmap. by exists (id, c).
    + intros (v & Hin & <- & <-).
      apply list_elem_of_fmap in Hin as ([i c0] & -> & Hin). done.
  - rewrite <- list_fmap_compose.
    rewrite (list_fmap_ext _ fst sel) by done.
    apply selection_NoDup.
  - assert (StronglySorted Complaint.newerFirst sel) as Hsorted
      by (apply StronglySorted_merge_sort; apply _).
    eapply StronglySorted_fmap; [|exact Hsorted]. by intros [??] [??].
Qed.

Lemma getMyComplaints_listing_witness :
  let sd := mkStore Sample.hostel
              (<[1%nat := Complaint.mk 1 "Fan" "The fan is broken"
                                        "Electrical" Complaint.Pending "High"
                                        None None None 100]>
                 (<[2%nat := Complaint.mk 2 "Tap" "The tap leaks"
                                           "Plumbing" Complaint.Pending "Low"
                                           None None None 200]> ∅)) in
  ∃ data, getMyComplaints sd Sample.asha = (sd, okData data)
          ∧ cv_id <$> data = [1%nat].
Proof.
  intros sd.
  destruct (proj2 (getMyComplaints_listing sd Sample.asha)
              1%nat (Student.mk 10 "R-001" (Some "A1")) eq_refl)
    as (data & Heq & _).
  exists data. split; [exact Heq|].
  vm_compute in Heq. injection Heq as <-. reflexivity.
Defined.
